(** * imagen.py: the image CLI's response handling, persistence and requests

    A shallow embedding of [src/imagen.py].  Python code that prints, reads
    the clock, touches the file system or talks to the network becomes a
    function in a state-and-exception monad over an explicit [world]; what
    the outside decides (the clock, which paths exist, which opens and
    writes fail, what the server answers) is read from an [env] record of
    oracles.  Every effect is also appended to a trace of events, and the
    properties below are statements about that trace and the final world.

    Embedded: [save_image_from_b64], [handle_api_response], [create_image]
    and [edit_image].  Not embedded: the start-up test of [OPENAI_API_KEY]
    (lines 9-12), after which the key is a non-empty string, and [main]
    with its argument parser, which only builds the argument records.

    Library calls are modelled by what they do: [base64.b64decode] after
    CPython's [binascii.a2b_base64], [response.json()] as either the parsed
    body or the exception it raises, [print] as a line on the standard
    output or the exception of a stream that cannot encode the line.  A
    [host] is an [env] with such a stream; a property stated for an [env]
    is about a standard output that takes every line. *)

From Stdlib Require Import ZArith NArith List Bool Ascii String Lia.
From Stdlib Require Import DecimalString DecimalNat SpecFloat.
From stdpp Require Import gmap strings.

Import ListNotations.
Local Set Warnings "-register-all".
Local Open Scope string_scope.
Local Open Scope list_scope.

(** ** Python values *)

(** What [response.json()] returns: the parsed body.  A [PyDict] lists the
    items of the dict in order; a Python dict binds a key once, and lookup
    takes the first binding.  A [str] is a [string]: a character above 127
    stands for a non-ASCII character. *)
Inductive pyval : Type :=
| PyNone
| PyBool (b : bool)
| PyInt (z : Z)
| PyFloat (f : spec_float)
| PyStr (s : string)
| PyList (l : list pyval)
| PyDict (kvs : list (string * pyval)).

Inductive exn_class : Type :=
| JSONDecodeError
| TypeError
| KeyError
| AttributeError
| ValueError
| BinasciiError
| OSError
| FileNotFoundError
| RequestException
| UnicodeEncodeError
| RecursionError
| OtherException.

(** An exception: its class, which the [except] clauses test, and its
    message, which [print(f"...{e}")] shows. *)
Record exn : Type := Exn { exn_cls : exn_class; exn_msg : string }.

Inductive result (A : Type) : Type :=
| Ok (a : A)
| Raise (e : exn).
Arguments Ok {A} a.
Arguments Raise {A} e.

Definition exn_class_eqb (a b : exn_class) : bool :=
  match a, b with
  | JSONDecodeError, JSONDecodeError | TypeError, TypeError
  | KeyError, KeyError | AttributeError, AttributeError
  | ValueError, ValueError | BinasciiError, BinasciiError
  | OSError, OSError | FileNotFoundError, FileNotFoundError
  | RequestException, RequestException
  | UnicodeEncodeError, UnicodeEncodeError
  | RecursionError, RecursionError
  | OtherException, OtherException => true
  | _, _ => false
  end.

(** [isinstance(e, c)] for the classes the [except] clauses name: in Python
    [FileNotFoundError] is an [OSError], every class is an [Exception]. *)
Definition exn_isinstance (e : exn) (c : exn_class) : bool :=
  exn_class_eqb (exn_cls e) c
  || (exn_class_eqb (exn_cls e) FileNotFoundError && exn_class_eqb c OSError).

Fixpoint dict_get (k : string) (kvs : list (string * pyval)) : option pyval :=
  match kvs with
  | [] => None
  | (k', v) :: rest => if String.eqb k' k then Some v else dict_get k rest
  end.

(** [sub in s] on two strings. *)
Fixpoint is_substring (sub s : string) : bool :=
  String.prefix sub s
  || match s with
     | EmptyString => false
     | String _ s' => is_substring sub s'
     end.

Definition is_str_eq (k : string) (v : pyval) : bool :=
  match v with
  | PyStr s => String.eqb s k
  | _ => false
  end.

(** [k in c] for a string [k]: key test on a dict, element test on a list,
    substring test on a string, [TypeError] on anything else. *)
Definition py_contains (k : string) (c : pyval) : result bool :=
  match c with
  | PyDict kvs => Ok (match dict_get k kvs with Some _ => true | None => false end)
  | PyList l => Ok (existsb (is_str_eq k) l)
  | PyStr s => Ok (is_substring k s)
  | _ => Raise (Exn TypeError "argument is not iterable")
  end.

(** [c[k]] for a string [k]. *)
Definition py_getitem (c : pyval) (k : string) : result pyval :=
  match c with
  | PyDict kvs =>
      match dict_get k kvs with
      | Some v => Ok v
      | None => Raise (Exn KeyError k)
      end
  | PyList _ => Raise (Exn TypeError "list indices must be integers or slices, not str")
  | PyStr _ => Raise (Exn TypeError "string indices must be integers, not 'str'")
  | _ => Raise (Exn TypeError "object is not subscriptable")
  end.

(** [c.get(k)]: only a dict has the method. *)
Definition py_get (c : pyval) (k : string) : result pyval :=
  match c with
  | PyDict kvs =>
      Ok (match dict_get k kvs with Some v => v | None => PyNone end)
  | _ => Raise (Exn AttributeError "object has no attribute 'get'")
  end.

Definition isinstance_list (v : pyval) : bool :=
  match v with PyList _ => true | _ => false end.

Definition is_none (v : pyval) : bool :=
  match v with PyNone => true | _ => false end.

(** Truth value of a parsed value, as [not v] and [if v] test it. *)
Definition py_truthy (v : pyval) : bool :=
  match v with
  | PyNone => false
  | PyBool b => b
  | PyInt z => negb (z =? 0)%Z
  | PyFloat (S754_zero _) => false
  | PyFloat _ => true
  | PyStr s => negb (String.eqb s "")
  | PyList l => match l with [] => false | _ => true end
  | PyDict kvs => match kvs with [] => false | _ => true end
  end.

Definition str_truthy (s : string) : bool := negb (String.eqb s "").

Definition opt_str_truthy (o : option string) : bool :=
  match o with Some s => str_truthy s | None => false end.

Definition string_of_nat (n : nat) : string :=
  NilEmpty.string_of_uint (Nat.to_uint n).

Definition string_of_Z (z : Z) : string :=
  NilZero.string_of_int (Z.to_int z).

(** ** Base64, as [base64.b64decode] does it

    [base64.b64decode(s)] with its default [validate=False] turns a [str]
    into bytes with [s.encode("ascii")] and hands them to
    [binascii.a2b_base64] in its lenient mode: characters outside the
    alphabet are skipped, a padding character ends the input once the
    current quad is complete, and input that stops inside a quad is an
    error. *)
Module Base64.

Definition alphabet : string :=
  "ABCDEFGHIJKLMNOPQRSTUVWXYZabcdefghijklmnopqrstuvwxyz0123456789+/".

(** The encoder's table: the character of a 6-bit value. *)
Definition b2a (v : N) : ascii :=
  match String.get (N.to_nat v) alphabet with
  | Some c => c
  | None => "="%char
  end.

(** The decoder's table: the 6-bit value of a character of the alphabet. *)
Definition a2b (c : ascii) : option N :=
  let n := N_of_ascii c in
  if (65 <=? n)%N && (n <=? 90)%N then Some (n - 65)%N
  else if (97 <=? n)%N && (n <=? 122)%N then Some (n - 71)%N
  else if (48 <=? n)%N && (n <=? 57)%N then Some (n + 4)%N
  else if (n =? 43)%N then Some 62%N
  else if (n =? 47)%N then Some 63%N
  else None.

(** Storing into an [unsigned char] keeps the low eight bits. *)
Definition byte_of_N (n : N) : Byte.byte :=
  match Byte.of_N (n mod 256) with
  | Some b => b
  | None => Byte.x00
  end.

(** RFC 4648 encoding with padding, as [base64.b64encode] produces it. *)
Fixpoint b64encode (bs : list Byte.byte) : string :=
  match bs with
  | [] => ""
  | [b1] =>
      let n1 := Byte.to_N b1 in
      String (b2a (N.shiftr n1 2))
        (String (b2a (N.shiftl (N.land n1 3) 4)) "==")
  | [b1; b2] =>
      let n1 := Byte.to_N b1 in
      let n2 := Byte.to_N b2 in
      String (b2a (N.shiftr n1 2))
        (String (b2a (N.lor (N.shiftl (N.land n1 3) 4) (N.shiftr n2 4)))
           (String (b2a (N.shiftl (N.land n2 15) 2)) "="))
  | b1 :: b2 :: b3 :: rest =>
      let n1 := Byte.to_N b1 in
      let n2 := Byte.to_N b2 in
      let n3 := Byte.to_N b3 in
      String (b2a (N.shiftr n1 2))
        (String (b2a (N.lor (N.shiftl (N.land n1 3) 4) (N.shiftr n2 4)))
           (String (b2a (N.lor (N.shiftl (N.land n2 15) 2) (N.shiftr n3 6)))
              (String (b2a (N.land n3 63)) (b64encode rest))))
  end.

Definition incorrect_padding : exn := Exn BinasciiError "Incorrect padding".

Definition one_extra_character : exn :=
  Exn BinasciiError
    "Invalid base64-encoded string: number of data characters cannot be 1 more than a multiple of 4".

(** The loop of [a2b_base64]: [quad_pos] counts the characters of the
    current quad, [leftchar] holds the bits not yet written, [pads] the
    padding characters seen since the last data character, [out] the bytes
    written so far. *)
Fixpoint a2b_loop (s : string) (quad_pos : nat) (leftchar : N) (pads : nat)
    (out : list Byte.byte) : result (list Byte.byte) :=
  match s with
  | EmptyString =>
      match quad_pos with
      | 0 => Ok out
      | 1 => Raise one_extra_character
      | _ => Raise incorrect_padding
      end
  | String c rest =>
      if Ascii.eqb c "="%char then
        if (2 <=? quad_pos)%nat then
          if (4 <=? quad_pos + S pads)%nat then Ok out
          else a2b_loop rest quad_pos leftchar (S pads) out
        else a2b_loop rest quad_pos leftchar pads out
      else
        match a2b c with
        | None => a2b_loop rest quad_pos leftchar pads out
        | Some v =>
            match quad_pos with
            | 0 => a2b_loop rest 1 v 0 out
            | 1 =>
                a2b_loop rest 2 (N.land v 15) 0
                  (out ++ [byte_of_N (N.lor (N.shiftl leftchar 2) (N.shiftr v 4))])
            | 2 =>
                a2b_loop rest 3 (N.land v 3) 0
                  (out ++ [byte_of_N (N.lor (N.shiftl leftchar 4) (N.shiftr v 2))])
            | _ =>
                a2b_loop rest 0 0 0
                  (out ++ [byte_of_N (N.lor (N.shiftl leftchar 6) v)])
            end
        end
  end.

Definition a2b_base64 (s : string) : result (list Byte.byte) :=
  a2b_loop s 0 0 0 [].

Definition is_ascii_char (c : ascii) : bool := (N_of_ascii c <? 128)%N.

Fixpoint is_ascii (s : string) : bool :=
  match s with
  | EmptyString => true
  | String c rest => is_ascii_char c && is_ascii rest
  end.

(** [base64.b64decode(v)] on a parsed value: a non-ASCII [str] is a
    [ValueError], anything that is not a [str] a [TypeError]. *)
Definition b64decode (v : pyval) : result (list Byte.byte) :=
  match v with
  | PyStr s =>
      if is_ascii s then a2b_base64 s
      else Raise (Exn ValueError "string argument should contain only ASCII characters")
  | _ =>
      Raise (Exn TypeError "argument should be a bytes-like object or ASCII string")
  end.

End Base64.

(** ** The outside world *)

(** What [datetime.now()] returns, to the second; [datetime] keeps the year
    within 1..9999 and the other fields within their calendar ranges. *)
Record datetime : Type := {
  year : nat; month : nat; day : nat;
  hour : nat; minute : nat; second : nat
}.

Definition digit (n : nat) : ascii := ascii_of_nat (48 + n mod 10).

Definition two_digits (n : nat) : string :=
  String (digit (n / 10)) (String (digit n) EmptyString).

Definition four_digits (n : nat) : string :=
  String (digit (n / 1000)) (String (digit (n / 100)) (two_digits n)).

(** [d.strftime("%Y%m%d_%H%M%S")]: every field zero-padded to its width
    (four digits for the year, as C libraries print years from 1000 on). *)
Definition strftime (d : datetime) : string :=
  four_digits (year d) +:+ two_digits (month d) +:+ two_digits (day d)
  +:+ "_" +:+ two_digits (hour d) +:+ two_digits (minute d)
  +:+ two_digits (second d).

(** A part of an f-string: literal text, or a parsed value shown with
    [str()], or one shown with [json.dumps(v, ensure_ascii=False, indent=2)].
    Numbers, paths and exception messages are text. *)
Inductive piece : Type :=
| Lit (s : string)
| Val (v : pyval)
| Json (v : pyval).

Definition line : Type := list piece.

(** A part of a multipart upload: the field name, the file name shown to
    the server and the open handle. *)
Definition file_part : Type := (string * (string * nat))%type.

Inductive body : Type :=
| JsonBody (payload : gmap string pyval)
| MultipartBody (files : list file_part) (data : gmap string pyval).

Record request : Type := {
  req_url : string;
  req_headers : list (string * string);
  req_body : body;
  req_timeout : Z
}.

(** A [requests.Response]: [json] is what [response.json()] does, the parsed
    body or the exception it raises: [JSONDecodeError] when the body is not
    JSON, and whatever else the parser gives up with ([ValueError] on an
    integer of more digits than Python converts, [RecursionError] on a body
    nested too deep).  The body does not change, so every call does the
    same. *)
Record response : Type := {
  status_code : Z;
  text : string;
  json : result pyval
}.

(** What the outside decides during one run. *)
Record env : Type := {
  API_KEY : string;
  (** the [n]-th reading of the clock *)
  now : nat -> datetime;
  (** [os.path.exists] *)
  path_exists : string -> bool;
  (** the error of [open(path, "rb")], if it fails *)
  open_rb : string -> option exn;
  (** the error of [open(path, "wb")], if it fails *)
  open_wb : string -> option exn;
  (** the error of [f.write(data)], if it fails *)
  write_err : string -> list Byte.byte -> option exn;
  (** what [requests.post] does with a request *)
  post : request -> result response
}.

(** The machine with its standard output: [stdout_err] is the exception of
    [print] on a line the output stream cannot encode
    ([UnicodeEncodeError]), if it has one. *)
Record host : Type := {
  host_env : env;
  stdout_err : line -> option exn
}.

(** A standard output that takes every line.  A statement about an [env]
    is a statement about such a host. *)
Definition accepting (E : env) : host :=
  {| host_env := E; stdout_err := fun _ => None |}.

Coercion accepting : env >-> host.

(** What a run does, in order.  [EvSave] records a call of
    [save_image_from_b64] with its arguments, [EvWrite] a file written in
    full, [EvOpen] and [EvClose] a handle opened for reading and closed,
    [EvPost] a call of [requests.post]. *)
Inductive event : Type :=
| EvPrint (l : line)
| EvSave (b64 : pyval) (prefix : string) (index : nat) (fmt : string)
| EvWrite (name : string) (data : list Byte.byte)
| EvOpen (fd : nat) (path : string)
| EvClose (fd : nat)
| EvPost (r : request).

Record world : Type := {
  (** readings of the clock so far *)
  w_ticks : nat;
  (** the files this run has created, with their contents *)
  w_files : gmap string (list Byte.byte);
  (** the handles open for reading *)
  w_open : list nat;
  w_next_fd : nat;
  w_trace : list event
}.

Definition emit_event (e : event) (w : world) : world :=
  {| w_ticks := w_ticks w; w_files := w_files w; w_open := w_open w;
     w_next_fd := w_next_fd w; w_trace := w_trace w ++ [e] |}.

Definition set_file (name : string) (data : list Byte.byte) (w : world) : world :=
  {| w_ticks := w_ticks w; w_files := <[name := data]> (w_files w);
     w_open := w_open w; w_next_fd := w_next_fd w; w_trace := w_trace w |}.

Definition tick (w : world) : world :=
  {| w_ticks := S (w_ticks w); w_files := w_files w; w_open := w_open w;
     w_next_fd := w_next_fd w; w_trace := w_trace w |}.

Definition add_handle (w : world) : world :=
  {| w_ticks := w_ticks w; w_files := w_files w;
     w_open := w_next_fd w :: w_open w; w_next_fd := S (w_next_fd w);
     w_trace := w_trace w |}.

Definition drop_handle (fd : nat) (w : world) : world :=
  {| w_ticks := w_ticks w; w_files := w_files w;
     w_open := List.filter (fun h => negb (Nat.eqb h fd)) (w_open w);
     w_next_fd := w_next_fd w; w_trace := w_trace w |}.

(** ** The monad: state and exceptions *)

Definition M (A : Type) : Type := world -> result A * world.

Definition ret {A : Type} (a : A) : M A := fun w => (Ok a, w).

Definition raise {A : Type} (e : exn) : M A := fun w => (Raise e, w).

Definition bind {A B : Type} (m : M A) (k : A -> M B) : M B :=
  fun w =>
    match m w with
    | (Ok a, w') => k a w'
    | (Raise e, w') => (Raise e, w')
    end.

Definition lift {A : Type} (r : result A) : M A := fun w => (r, w).

(** [try: m  except Exception as e: h e]; the handler re-raises what its
    clause does not name. *)
Definition try_except {A : Type} (m : M A) (h : exn -> M A) : M A :=
  fun w =>
    match m w with
    | (Ok a, w') => (Ok a, w')
    | (Raise e, w') => h e w'
    end.

(** [try: m  finally: f]. *)
Definition try_finally {A : Type} (m : M A) (f : M unit) : M A :=
  fun w =>
    match m w with
    | (r, w') =>
        match f w' with
        | (Ok _, w'') => (r, w'')
        | (Raise e, w'') => (Raise e, w'')
        end
    end.

Declare Scope py_scope.
Delimit Scope py_scope with py.
Notation "x <- m ;; k" := (bind m (fun x => k))
  (at level 100, m at next level, right associativity) : py_scope.
Notation "m ;; k" := (bind m (fun _ => k))
  (at level 100, right associativity) : py_scope.
Local Open Scope py_scope.

Definition bind_result {A B : Type} (r : result A) (k : A -> result B) : result B :=
  match r with
  | Ok a => k a
  | Raise e => Raise e
  end.

Definition dquote : string := String (ascii_of_nat 34) EmptyString.
Definition newline : string := String (ascii_of_nat 10) EmptyString.

(** ** The program *)

Definition BASE_URL : string := "https://api.openai.com/v1/images".
Definition GPT_IMAGE_MODEL : string := "gpt-image-1".

(** [f"{prefix}_{timestamp}_{index+1}.{output_format}"] *)
Definition mk_filename (prefix timestamp : string) (index : nat)
    (output_format : string) : string :=
  prefix +:+ "_" +:+ timestamp +:+ "_" +:+ string_of_nat (index + 1)
  +:+ "." +:+ output_format.

Definition saved_line (filename : string) : line :=
  [Lit "Saved image: "; Lit filename].

Definition error_saving_line (e : exn) : line :=
  [Lit "Error saving image: "; Lit (exn_msg e)].

Definition item_warning_line (i : nat) (item : pyval) : line :=
  [Lit ("Warning: Item " +:+ string_of_nat i +:+ " does not contain "
        +:+ dquote +:+ "b64_json" +:+ dquote +:+ ". Item: "); Val item].

Definition unexpected_structure_line (data : pyval) : line :=
  [Lit ("Unexpected response structure: " +:+ dquote +:+ "data" +:+ dquote
        +:+ " field missing or not a list. Full response: "); Val data].

Definition no_images_line : line :=
  [Lit "No images were generated. This might be due to a safety filter or other issue."].

Definition no_usage_warning_line : line :=
  [Lit "Warning: No usage information provided in the response, and data structure is unexpected."].

Definition status_error_line (status : Z) : line :=
  [Lit ("Error: API request failed with status code " +:+ string_of_Z status)].

Definition error_details_line (error_details : pyval) : line :=
  [Lit "Error details: "; Json error_details].

Definition unparsed_error_line (raw : string) : line :=
  [Lit "Could not parse error response: "; Lit raw].

(** The arguments of [create]. [user] is [None] unless [--user] is given;
    [output_compression] is [None] unless [--output-compression] is. *)
Record create_args : Type := {
  prompt : string;
  n : Z;
  quality : string;
  size : string;
  background : string;
  output_format : string;
  output_compression : option Z;
  moderation : string;
  user : option string;
  output_prefix : string
}.

(** The arguments of [edit]. *)
Record edit_args : Type := {
  image_paths : list string;
  edit_prompt : string;
  mask_path : option string;
  edit_n : Z;
  edit_quality : string;
  edit_size : string;
  edit_user : option string;
  edit_output_prefix : string
}.

(** The two lists [edit_image] fills while it opens the files. *)
Record upload : Type := {
  files_to_send : list file_part;
  opened_files : list nat
}.

(** [os.path.basename]: what follows the last slash. *)
Fixpoint basename_from (cur p : string) : string :=
  match p with
  | EmptyString => cur
  | String c rest =>
      if Ascii.eqb c "/"%char then basename_from EmptyString rest
      else basename_from (cur +:+ String c EmptyString) rest
  end.

Definition basename (p : string) : string := basename_from EmptyString p.

(** Lines 85-100: the JSON body of a creation request. *)
Definition create_payload (args : create_args) : gmap string pyval :=
  let payload : gmap string pyval :=
    <["output_format" := PyStr (output_format args)]>
    (<["background" := PyStr (background args)]>
    (<["size" := PyStr (size args)]>
    (<["quality" := PyStr (quality args)]>
    (<["n" := PyInt (n args)]>
    (<["model" := PyStr GPT_IMAGE_MODEL]>
    (<["prompt" := PyStr (prompt args)]> ∅)))))) in
  let payload :=
    match user args with
    | Some u => if str_truthy u then <["user" := PyStr u]> payload else payload
    | None => payload
    end in
  let payload :=
    match output_compression args with
    | Some c =>
        if String.eqb (output_format args) "jpeg"
           || String.eqb (output_format args) "webp"
        then <["output_compression" := PyInt c]> payload
        else payload
    | None => payload
    end in
  if str_truthy (moderation args)
  then <["moderation" := PyStr (moderation args)]> payload
  else payload.

(** Lines 154-162: the form fields of an edit request. *)
Definition edit_payload (args : edit_args) : gmap string pyval :=
  let data_payload : gmap string pyval :=
    <["size" := PyStr (edit_size args)]>
    (<["quality" := PyStr (edit_quality args)]>
    (<["n" := PyInt (edit_n args)]>
    (<["model" := PyStr GPT_IMAGE_MODEL]>
    (<["prompt" := PyStr (edit_prompt args)]> ∅)))) in
  match edit_user args with
  | Some u => if str_truthy u then <["user" := PyStr u]> data_payload else data_payload
  | None => data_payload
  end.

(** ["data" in data and isinstance(data["data"], list)] *)
Definition data_is_list (data : pyval) : result bool :=
  bind_result (py_contains "data" data) (fun c =>
  if c then bind_result (py_getitem data "data") (fun d => Ok (isinstance_list d))
  else Ok false).

(** ["usage" in data and data["usage"] is not None] *)
Definition usage_present (data : pyval) : result bool :=
  bind_result (py_contains "usage" data) (fun c =>
  if c then bind_result (py_getitem data "usage") (fun u => Ok (negb (is_none u)))
  else Ok false).

(** ["data" in data and not data["data"]] *)
Definition data_is_empty (data : pyval) : result bool :=
  bind_result (py_contains "data" data) (fun c =>
  if c then bind_result (py_getitem data "data") (fun d => Ok (negb (py_truthy d)))
  else Ok false).

(** [data["usage"].get(key)] *)
Definition usage_get (data : pyval) (key : string) : result pyval :=
  bind_result (py_getitem data "usage") (fun u => py_get u key).

(** [data["usage"]["input_tokens_details"].get(key)] *)
Definition usage_details_get (data : pyval) (key : string) : result pyval :=
  bind_result (py_getitem data "usage") (fun u =>
  bind_result (py_getitem u "input_tokens_details") (fun d => py_get d key)).

(** What [for i, item in enumerate(v)] walks through; the loop is only
    reached with a list. *)
Definition list_items (v : pyval) : list pyval :=
  match v with
  | PyList l => l
  | _ => []
  end.

Section Program.

Variable H : host.

(** [print(...)]: the line goes to the standard output, or the stream's
    exception is raised and nothing is shown. *)
Definition print (l : line) : M unit :=
  fun w =>
    match stdout_err H l with
    | Some e => (Raise e, w)
    | None => (Ok tt, emit_event (EvPrint l) w)
    end.

(** Note in the trace that [save_image_from_b64] was entered. *)
Definition enter_save (b64_string : pyval) (prefix : string) (index : nat)
    (output_format : string) : M unit :=
  fun w => (Ok tt, emit_event (EvSave b64_string prefix index output_format) w).

Definition response_json (r : response) : M pyval :=
  lift (json r).

Definition datetime_now : M datetime :=
  fun w => (Ok (now (host_env H) (w_ticks w)), tick w).

(** [with open(filename, "wb") as f: f.write(data)]: opening creates the
    file or empties it, writing fills it. *)
Definition write_file (filename : string) (data : list Byte.byte) : M unit :=
  fun w =>
    match open_wb (host_env H) filename with
    | Some e => (Raise e, w)
    | None =>
        match write_err (host_env H) filename data with
        | Some e => (Raise e, set_file filename [] w)
        | None => (Ok tt, emit_event (EvWrite filename data) (set_file filename data w))
        end
    end.

Definition close (fd : nat) : M unit :=
  fun w => (Ok tt, emit_event (EvClose fd) (drop_handle fd w)).

Fixpoint close_all (fds : list nat) : M unit :=
  match fds with
  | [] => ret tt
  | fd :: rest => close fd ;; close_all rest
  end.

Definition requests_post (r : request) : M response :=
  fun w => (post (host_env H) r, emit_event (EvPost r) w).

(** Lines 18-30. *)
Definition save_image_from_b64 (b64_string : pyval) (prefix : string)
    (index : nat) (output_format : string) : M (option string) :=
  enter_save b64_string prefix index output_format ;;
  try_except
    (image_data <- lift (Base64.b64decode b64_string) ;;
     d <- datetime_now ;;
     let timestamp := strftime d in
     let filename := mk_filename prefix timestamp index output_format in
     write_file filename image_data ;;
     print (saved_line filename) ;;
     ret (Some filename))
    (fun e => print (error_saving_line e) ;; ret None).

(** Lines 41-44: the body of the loop. *)
Definition handle_item (output_prefix fmt : string) (i : nat) (item : pyval) : M unit :=
  c <- lift (py_contains "b64_json" item) ;;
  if c then
    b64 <- lift (py_getitem item "b64_json") ;;
    save_image_from_b64 b64 output_prefix i fmt ;;
    ret tt
  else print (item_warning_line i item).

(** Line 40: [for i, item in enumerate(...)], from position [i] on. *)
Fixpoint handle_items (output_prefix fmt : string) (i : nat) (items : list pyval) : M unit :=
  match items with
  | [] => ret tt
  | item :: rest =>
      handle_item output_prefix fmt i item ;;
      handle_items output_prefix fmt (S i) rest
  end.

(** Lines 49-55. *)
Definition print_usage (data : pyval) : M unit :=
  print [Lit (newline +:+ "Usage Information:")] ;;
  total <- lift (usage_get data "total_tokens") ;;
  print [Lit "  Total Tokens: "; Val total] ;;
  input <- lift (usage_get data "input_tokens") ;;
  print [Lit "  Input Tokens: "; Val input] ;;
  output <- lift (usage_get data "output_tokens") ;;
  print [Lit "  Output Tokens: "; Val output] ;;
  details <- lift (bind_result (py_getitem data "usage")
                     (py_contains "input_tokens_details")) ;;
  if details then
    text_tokens <- lift (usage_details_get data "text_tokens") ;;
    print [Lit "  Input Text Tokens: "; Val text_tokens] ;;
    image_tokens <- lift (usage_details_get data "image_tokens") ;;
    print [Lit "  Input Image Tokens: "; Val image_tokens]
  else ret tt.

(** Lines 39-46: save what the ["data"] list holds, or report its shape. *)
Definition save_items (data : pyval) (output_prefix fmt : string) : M unit :=
  is_list <- lift (data_is_list data) ;;
  if is_list then
    items <- lift (py_getitem data "data") ;;
    handle_items output_prefix fmt 0 (list_items items)
  else print (unexpected_structure_line data).

(** Lines 48-59: the [if]/[elif]/[elif] chain on ["usage"]. *)
Definition report_usage (data : pyval) : M unit :=
  has_usage <- lift (usage_present data) ;;
  if has_usage then print_usage data
  else
    empty <- lift (data_is_empty data) ;;
    if empty then print no_images_line
    else
      is_list <- lift (data_is_list data) ;;
      if negb is_list then print no_usage_warning_line else ret tt.

(** Lines 36-59: the body of the [try]. *)
Definition process_body (r : response) (output_prefix fmt : string) : M unit :=
  data <- response_json r ;;
  save_items data output_prefix fmt ;;
  report_usage data.

(** Lines 32-74. *)
Definition handle_api_response (r : response) (output_prefix : string)
    (expected_output_format_for_saving : string) : M unit :=
  if (status_code r =? 200)%Z then
    try_except
      (process_body r output_prefix expected_output_format_for_saving)
      (fun e =>
         if exn_isinstance e JSONDecodeError then
           print [Lit "Error: Could not decode JSON response."] ;;
           print [Lit "Raw response: "; Lit (text r)]
         else
           print [Lit "An error occurred while processing the response: ";
                  Lit (exn_msg e)] ;;
           again <- response_json r ;;
           print [Lit "Raw response JSON: "; Val again])
  else
    print (status_error_line (status_code r)) ;;
    try_except
      (error_details <- response_json r ;;
       print (error_details_line error_details))
      (fun e =>
         if exn_isinstance e JSONDecodeError
         then print (unparsed_error_line (text r))
         else raise e).

(** Lines 77-108. *)
Definition create_image (args : create_args) : M unit :=
  print [Lit ("Creating image with prompt: " +:+ dquote +:+ prompt args +:+ dquote
              +:+ " using model " +:+ GPT_IMAGE_MODEL)] ;;
  let url := BASE_URL +:+ "/generations" in
  let headers := [("Authorization", "Bearer " +:+ API_KEY (host_env H));
                  ("Content-Type", "application/json")] in
  let payload := create_payload args in
  try_except
    (response <- requests_post {| req_url := url; req_headers := headers;
                                  req_body := JsonBody payload;
                                  req_timeout := 120 |} ;;
     handle_api_response response (output_prefix args) (output_format args))
    (fun e =>
       if exn_isinstance e RequestException
       then print [Lit "Request failed: "; Lit (exn_msg e)]
       else raise e).

(** Lines 130-134 and 137-141: check, open, remember the handle, add the
    part.  The lists are returned also when an exception ends the step. *)
Definition open_for_upload (field not_found path : string) (st : upload) (w : world)
    : (option exn * upload) * world :=
  if negb (path_exists (host_env H) path) then
    ((Some (Exn FileNotFoundError (not_found +:+ path)), st), w)
  else
    match open_rb (host_env H) path with
    | Some e => ((Some e, st), w)
    | None =>
        let file_obj := w_next_fd w in
        ((None,
          {| files_to_send := files_to_send st ++ [(field, (basename path, file_obj))];
             opened_files := opened_files st ++ [file_obj] |}),
         emit_event (EvOpen file_obj path) (add_handle w))
    end.

(** Lines 129-134: the loop over the source images. *)
Fixpoint open_images (paths : list string) (st : upload) (w : world)
    : (option exn * upload) * world :=
  match paths with
  | [] => ((None, st), w)
  | image_path :: rest =>
      match open_for_upload "image[]" "Image file not found: " image_path st w with
      | ((Some e, st'), w') => ((Some e, st'), w')
      | ((None, st'), w') => open_images rest st' w'
      end
  end.

(** Lines 129-141: the body of the first [try]. *)
Definition open_uploads (args : edit_args) (w : world)
    : (option exn * upload) * world :=
  match open_images (image_paths args) {| files_to_send := []; opened_files := [] |} w with
  | ((Some e, st), w') => ((Some e, st), w')
  | ((None, st), w') =>
      match mask_path args with
      | Some mask =>
          if str_truthy mask
          then open_for_upload "mask" "Mask file not found: " mask st w'
          else ((None, st), w')
      | None => ((None, st), w')
      end
  end.

(** Lines 112-117: say what is being edited, and warn. *)
Definition edit_announce (args : edit_args) : M unit :=
  let image_paths_str :=
    String.concat ", " (map (fun path => dquote +:+ path +:+ dquote) (image_paths args)) in
  print [Lit ("Editing image(s) " +:+ image_paths_str +:+ " with prompt: " +:+ dquote
              +:+ edit_prompt args +:+ dquote +:+ " using model " +:+ GPT_IMAGE_MODEL)] ;;
  (if (16 <? length (image_paths args))%nat then
     print [Lit ("Warning: You provided " +:+ string_of_nat (length (image_paths args))
                 +:+ " images. gpt-image-1 supports up to 16 images for edits. Proceeding, but the API might reject this.")]
   else ret tt) ;;
  if opt_str_truthy (mask_path args) && (1 <? length (image_paths args))%nat then
    print [Lit ("Note: A mask was provided with multiple images. The mask will be applied to the first image: "
                +:+ dquote +:+ nth 0 (image_paths args) EmptyString +:+ dquote +:+ ".")]
  else ret tt.

(** Lines 119-174: open the files, send the request, close the files. *)
Definition edit_send (args : edit_args) : M unit :=
  let url := BASE_URL +:+ "/edits" in
  let headers := [("Authorization", "Bearer " +:+ API_KEY (host_env H))] in
  fun w =>
    match open_uploads args w with
    | ((Some e, st), w') =>
        ((if exn_isinstance e FileNotFoundError
          then print [Lit "Error: "; Lit (exn_msg e)]
          else print [Lit "Error opening file(s): "; Lit (exn_msg e)]) ;;
         close_all (opened_files st)) w'
    | ((None, st), w') =>
        let data_payload := edit_payload args in
        try_finally
          (try_except
             (response <- requests_post
                            {| req_url := url; req_headers := headers;
                               req_body := MultipartBody (files_to_send st) data_payload;
                               req_timeout := 120 |} ;;
              handle_api_response response (edit_output_prefix args) "png")
             (fun e =>
                if exn_isinstance e RequestException
                then print [Lit "Request failed: "; Lit (exn_msg e)]
                else raise e))
          (close_all (opened_files st)) w'
    end.

(** Lines 110-174. *)
Definition edit_image (args : edit_args) : M unit :=
  edit_announce args ;; edit_send args.

End Program.

(** ** Reading a run *)

(** The events a computation adds to the trace of [w]. *)
Definition events_of {A : Type} (m : M A) (w : world) : list event :=
  skipn (length (w_trace w)) (w_trace (snd (m w))).

(** The calls of [save_image_from_b64], in order. *)
Fixpoint save_calls (evs : list event) : list (pyval * string * nat * string) :=
  match evs with
  | [] => []
  | EvSave b64 prefix index fmt :: rest => (b64, prefix, index, fmt) :: save_calls rest
  | _ :: rest => save_calls rest
  end.

(** The files written, in order. *)
Fixpoint written (evs : list event) : list (string * list Byte.byte) :=
  match evs with
  | [] => []
  | EvWrite name data :: rest => (name, data) :: written rest
  | _ :: rest => written rest
  end.

(** The lines printed, in order. *)
Fixpoint printed (evs : list event) : list line :=
  match evs with
  | [] => []
  | EvPrint l :: rest => l :: printed rest
  | _ :: rest => printed rest
  end.

(** The requests sent, in order. *)
Fixpoint posted (evs : list event) : list request :=
  match evs with
  | [] => []
  | EvPost r :: rest => r :: posted rest
  | _ :: rest => posted rest
  end.

(** The handles opened, in order. *)
Fixpoint opened (evs : list event) : list nat :=
  match evs with
  | [] => []
  | EvOpen fd _ :: rest => fd :: opened rest
  | _ :: rest => opened rest
  end.

(** What lines 41-42 read from an item: its payload, [None] when the
    membership test says no, the exception when the test or the indexing
    raises. *)
Definition item_payload (item : pyval) : result (option pyval) :=
  bind_result (py_contains "b64_json" item) (fun c =>
  if c then bind_result (py_getitem item "b64_json") (fun b64 => Ok (Some b64))
  else Ok None).

(** The item can be tested and indexed without an exception; every JSON
    object can. *)
Definition readable (item : pyval) : bool :=
  match item_payload item with
  | Ok _ => true
  | Raise _ => false
  end.

Definition is_object (v : pyval) : bool :=
  match v with PyDict _ => true | _ => false end.

(** The items the loop gets through: those before the first one that
    cannot be read. *)
Fixpoint readable_prefix (items : list pyval) : list pyval :=
  match items with
  | [] => []
  | item :: rest => if readable item then item :: readable_prefix rest else []
  end.

(** [enumerate(items)], counting from [i]. *)
Fixpoint enumerate_from (i : nat) (items : list pyval) : list (nat * pyval) :=
  match items with
  | [] => []
  | item :: rest => (i, item) :: enumerate_from (S i) rest
  end.

(** What the handler returns where the standard output takes every line:
    the exception of [response.json()], unless it is a [JSONDecodeError]
    (lines 61 and 73 catch that one; line 66 raises any other one again). *)
Definition handler_result (r : response) : result unit :=
  match json r with
  | Ok _ => Ok tt
  | Raise e => if exn_isinstance e JSONDecodeError then Ok tt else Raise e
  end.

(** The paths an edit request refers to: the source images, and the mask
    when [--mask-path] names one (an empty string names none). *)
Definition referenced_paths (args : edit_args) : list string :=
  image_paths args
  ++ match mask_path args with
     | Some mask => if str_truthy mask then [mask] else []
     | None => []
     end.

Definition is_digit (c : ascii) : bool :=
  ((48 <=? nat_of_ascii c) && (nat_of_ascii c <=? 57))%nat.

(** [YYYYMMDD_HHMMSS]: eight digits, an underscore, six digits. *)
Definition timestamp_form (s : string) : bool :=
  match list_ascii_of_string s with
  | [y1; y2; y3; y4; m1; m2; d1; d2; u; h1; h2; n1; n2; s1; s2] =>
      forallb is_digit [y1; y2; y3; y4; m1; m2; d1; d2; h1; h2; n1; n2; s1; s2]
      && Ascii.eqb u "_"%char
  | _ => false
  end.

(** The trace of one call of [save_image_from_b64] made when the clock has
    been read [ticks] times: the call, then either the file and its
    confirmation or the error. *)
Definition save_events (E : env) (b64 : pyval) (prefix : string) (index : nat)
    (fmt : string) (ticks : nat) : list event :=
  EvSave b64 prefix index fmt ::
  match Base64.b64decode b64 with
  | Raise e => [EvPrint (error_saving_line e)]
  | Ok data =>
      let filename := mk_filename prefix (strftime (now E ticks)) index fmt in
      match open_wb E filename with
      | Some e => [EvPrint (error_saving_line e)]
      | None =>
          match write_err E filename data with
          | Some e => [EvPrint (error_saving_line e)]
          | None => [EvWrite filename data; EvPrint (saved_line filename)]
          end
      end
  end.

(** The clock is read once the payload has been decoded. *)
Definition save_ticks (b64 : pyval) (ticks : nat) : nat :=
  match Base64.b64decode b64 with
  | Ok _ => S ticks
  | Raise _ => ticks
  end.

(** The trace of the loop over items that can be read, from position [i] on. *)
Fixpoint items_events (E : env) (prefix fmt : string) (i : nat)
    (items : list pyval) (ticks : nat) : list event :=
  match items with
  | [] => []
  | item :: rest =>
      match item_payload item with
      | Ok (Some b64) =>
          save_events E b64 prefix i fmt ticks
          ++ items_events E prefix fmt (S i) rest (save_ticks b64 ticks)
      | _ =>
          EvPrint (item_warning_line i item)
          :: items_events E prefix fmt (S i) rest ticks
      end
  end.

(** Why a save fails, if it does (lines 21-25): the payload does not
    decode, or the file cannot be created, or it cannot be written. *)
Definition save_failure (E : env) (b64 : pyval) (prefix : string) (index : nat)
    (fmt : string) (ticks : nat) : option exn :=
  match Base64.b64decode b64 with
  | Raise e => Some e
  | Ok data =>
      let filename := mk_filename prefix (strftime (now E ticks)) index fmt in
      match open_wb E filename with
      | Some e => Some e
      | None => write_err E filename data
      end
  end.

(** The readings of the clock when the loop has gone through [items]. *)
Fixpoint loop_ticks (items : list pyval) (ticks : nat) : nat :=
  match items with
  | [] => ticks
  | item :: rest =>
      match item_payload item with
      | Ok (Some b64) => loop_ticks rest (save_ticks b64 ticks)
      | _ => loop_ticks rest ticks
      end
  end.

(** [w'] continues [w]: the trace grows by events that satisfy [P], and the
    open handles are as they were. *)
Definition grows (P : event -> Prop) (w w' : world) : Prop :=
  exists evs, w_trace w' = w_trace w ++ evs /\ Forall P evs
              /\ w_open w' = w_open w /\ w_next_fd w' = w_next_fd w.

(** Every run of [m] continues the world it starts from. *)
Definition quiet {A : Type} (P : event -> Prop) (m : M A) : Prop :=
  forall w, grows P w (snd (m w)).

(** What the response handler may do: print, call the persister, and write
    files named after its prefix and format. *)
Definition handler_event (prefix fmt : string) (e : event) : Prop :=
  match e with
  | EvPrint _ => True
  | EvSave _ p _ f => p = prefix /\ f = fmt
  | EvWrite name _ => exists timestamp index, name = mk_filename prefix timestamp index fmt
  | EvOpen _ _ | EvClose _ | EvPost _ => False
  end.

Definition is_print (e : event) : Prop :=
  match e with EvPrint _ => True | _ => False end.

(** The item is a JSON object with the payload field. *)
Definition carries_payload (item : pyval) : bool :=
  match item with
  | PyDict kvs => match dict_get "b64_json" kvs with Some _ => true | None => false end
  | _ => false
  end.

Definition payload_of (item : pyval) : pyval :=
  match item with
  | PyDict kvs => match dict_get "b64_json" kvs with Some b64 => b64 | None => PyNone end
  | _ => PyNone
  end.

Definition call_index (c : pyval * string * nat * string) : nat := snd (fst c).

Definition is_open_event (e : event) : Prop :=
  match e with EvOpen _ _ => True | _ => False end.

(** [name] ends with a dot and [ext]. *)
Definition has_extension (ext name : string) : Prop :=
  exists stem, name = stem +:+ "." +:+ ext.

(** Neither the notice of an empty result nor one of the two warnings about
    the shape of the body. *)
Definition not_a_notice (data : pyval) (e : event) : Prop :=
  e <> EvPrint no_images_line
  /\ e <> EvPrint (unexpected_structure_line data)
  /\ e <> EvPrint no_usage_warning_line.

(** ** Describing the runs

    Vocabulary for the properties of whole runs: what a run may change,
    the lines of the error reports, and the requests, parts and events of a
    creation and of an edit. *)

(** [w'] continues [w] by printing: the trace grows by printed lines and
    the files, the clock and the handles are as they were. *)
Definition only_printed (w w' : world) : Prop :=
  exists evs, w_trace w' = w_trace w ++ evs /\ Forall is_print evs
              /\ w_files w' = w_files w /\ w_open w' = w_open w
              /\ w_ticks w' = w_ticks w.

(** Every run of [m] only prints. *)
Definition talkative {A : Type} (m : M A) : Prop :=
  forall w, only_printed w (snd (m w)).

(** Every file of [evs] is in [w] with the bytes written. *)
Definition files_hold (evs : list event) (w : world) : Prop :=
  forall name data, In (EvWrite name data) evs -> w_files w !! name = Some data.

(** [w'] continues [w] by events whose files are all in [w'], under
    pairwise different names. *)
Definition stored (w w' : world) : Prop :=
  exists evs, w_trace w' = w_trace w ++ evs /\ files_hold evs w'
              /\ List.NoDup (map fst (written evs)).

(** Lines 61-63: what the handler of [json.JSONDecodeError] prints. *)
Definition decode_error_lines (raw : string) : list line :=
  [[Lit "Error: Could not decode JSON response."]; [Lit "Raw response: "; Lit raw]].

(** Lines 64-66: what the catch-all handler prints. *)
Definition processing_error_lines (e : exn) (body : pyval) : list line :=
  [[Lit "An error occurred while processing the response: "; Lit (exn_msg e)];
   [Lit "Raw response JSON: "; Val body]].

(** [u.get(key)] on the items of a dict. *)
Definition get_or_none (key : string) (u : list (string * pyval)) : pyval :=
  match dict_get key u with
  | Some v => v
  | None => PyNone
  end.

(** Lines 49-52: the header and the three counts. *)
Definition count_lines (u : list (string * pyval)) : list line :=
  [[Lit (newline +:+ "Usage Information:")];
   [Lit "  Total Tokens: "; Val (get_or_none "total_tokens" u)];
   [Lit "  Input Tokens: "; Val (get_or_none "input_tokens" u)];
   [Lit "  Output Tokens: "; Val (get_or_none "output_tokens" u)]].

(** Lines 54-55: the two counts of the breakdown. *)
Definition detail_lines (d : list (string * pyval)) : list line :=
  [[Lit "  Input Text Tokens: "; Val (get_or_none "text_tokens" d)];
   [Lit "  Input Image Tokens: "; Val (get_or_none "image_tokens" d)]].

(** A JSON null, boolean or number: [in] raises on it. *)
Definition is_scalar (v : pyval) : bool :=
  match v with
  | PyNone | PyBool _ | PyInt _ | PyFloat _ => true
  | _ => false
  end.

(** Lines 80-84 and 105: the request of a creation. *)
Definition create_request (E : env) (args : create_args) : request :=
  {| req_url := BASE_URL +:+ "/generations";
     req_headers := [("Authorization", "Bearer " +:+ API_KEY E);
                     ("Content-Type", "application/json")];
     req_body := JsonBody (create_payload args);
     req_timeout := 120 |}.

(** Line 79. *)
Definition create_announcement (args : create_args) : line :=
  [Lit ("Creating image with prompt: " +:+ dquote +:+ prompt args +:+ dquote
        +:+ " using model " +:+ GPT_IMAGE_MODEL)].

(** Lines 108 and 171: the transport failed. *)
Definition request_failed_line (e : exn) : line :=
  [Lit "Request failed: "; Lit (exn_msg e)].

(** The outcome of the [try] of lines 104-106 and 167-169 where the
    standard output takes every line: the exception of the transport, or
    what the handler returns. *)
Definition request_outcome (E : env) (req : request) : result unit :=
  match post E req with
  | Ok response => handler_result response
  | Raise e => Raise e
  end.

(** Lines 107-108 and 170-171: a [RequestException] is reported and ends
    there, any other exception goes on. *)
Definition caller_result (outcome : result unit) : result unit :=
  match outcome with
  | Ok _ => Ok tt
  | Raise e => if exn_isinstance e RequestException then Ok tt else Raise e
  end.

Definition caller_report (outcome : result unit) : list event :=
  match outcome with
  | Ok _ => []
  | Raise e => if exn_isinstance e RequestException
               then [EvPrint (request_failed_line e)] else []
  end.

(** The world after [evs] happened. *)
Definition emit_events (evs : list event) (w : world) : world :=
  fold_left (fun w ev => emit_event ev w) evs w.

(** What the [try] around a request adds to the trace once the request is
    sent from [w]: the handling of the answer, if one came, and the report
    of a failure that was caught. *)
Definition answer_events (E : env) (req : request) (prefix fmt : string)
    (w : world) : list event :=
  match post E req with
  | Ok response => events_of (handle_api_response E response prefix fmt) w
  | Raise _ => []
  end
  ++ caller_report (request_outcome E req).

(** The world when that [try] is over. *)
Definition after_request (E : env) (req : request) (prefix fmt : string)
    (w : world) : world :=
  emit_events (caller_report (request_outcome E req))
    match post E req with
    | Ok response => snd (handle_api_response E response prefix fmt w)
    | Raise _ => w
    end.

(** The world in which the answer to a creation request is handled. *)
Definition after_create_post (E : env) (args : create_args) (w : world) : world :=
  emit_event (EvPost (create_request E args)) (emit_event (EvPrint (create_announcement args)) w).

(** What [open_for_upload] raises for [path], if anything: the check of
    [os.path.exists] first, then [open(path, "rb")]. *)
Definition open_error (E : env) (not_found path : string) : option exn :=
  if negb (path_exists E path)
  then Some (Exn FileNotFoundError (not_found +:+ path))
  else open_rb E path.

(** The path exists and [open(path, "rb")] succeeds. *)
Definition usable (E : env) (path : string) : bool :=
  path_exists E path && match open_rb E path with None => true | Some _ => false end.

(** The paths before the first one that cannot be opened. *)
Fixpoint usable_prefix (E : env) (paths : list string) : list string :=
  match paths with
  | [] => []
  | path :: rest => if usable E path then path :: usable_prefix E rest else []
  end.

(** The first failure of the loop over the source images, if any. *)
Fixpoint images_error (E : env) (paths : list string) : option exn :=
  match paths with
  | [] => None
  | path :: rest =>
      match open_error E "Image file not found: " path with
      | Some e => Some e
      | None => images_error E rest
      end
  end.

(** The exception that ends the first [try] of [edit_image], if any. *)
Definition upload_error (E : env) (args : edit_args) : option exn :=
  match images_error E (image_paths args) with
  | Some e => Some e
  | None =>
      match mask_path args with
      | Some mask =>
          if str_truthy mask then open_error E "Mask file not found: " mask else None
      | None => None
      end
  end.

(** Lines 143-152: what the two handlers of the first [try] print. *)
Definition open_error_line (e : exn) : line :=
  if exn_isinstance e FileNotFoundError
  then [Lit "Error: "; Lit (exn_msg e)]
  else [Lit "Error opening file(s): "; Lit (exn_msg e)].

(** The parts of the source images when the handles are numbered from [fd]. *)
Fixpoint image_parts (fd : nat) (paths : list string) : list file_part :=
  match paths with
  | [] => []
  | path :: rest => ("image[]", (basename path, fd)) :: image_parts (S fd) rest
  end.

(** The parts of an edit request: the images in order, then the mask. *)
Definition edit_parts (args : edit_args) (fd : nat) : list file_part :=
  image_parts fd (image_paths args)
  ++ match mask_path args with
     | Some mask =>
         if str_truthy mask
         then [("mask", (basename mask, fd + length (image_paths args)))]
         else []
     | None => []
     end.

(** Opening [paths] in order with handles numbered from [fd]. *)
Fixpoint open_events (fd : nat) (paths : list string) : list event :=
  match paths with
  | [] => []
  | path :: rest => EvOpen fd path :: open_events (S fd) rest
  end.

(** The world after [paths] have been opened in order. *)
Definition open_all (paths : list string) (w : world) : world :=
  fold_left (fun w path => emit_event (EvOpen (w_next_fd w) path) (add_handle w)) paths w.

(** Lines 119-123 and 168: the request of an edit. *)
Definition edit_request (E : env) (args : edit_args) (parts : list file_part) : request :=
  {| req_url := BASE_URL +:+ "/edits";
     req_headers := [("Authorization", "Bearer " +:+ API_KEY E)];
     req_body := MultipartBody parts (edit_payload args);
     req_timeout := 120 |}.

(** The world in which the answer to an edit request is handled. *)
Definition after_edit_post (E : env) (args : edit_args) (w : world) : world :=
  emit_event (EvPost (edit_request E args (edit_parts args (w_next_fd w))))
    (open_all (referenced_paths args) (snd (edit_announce E args w))).

(** A part [(field, (name, handle))] of a multipart body. *)
Definition part_handle (part : file_part) : nat := snd (snd part).
Definition part_label (part : file_part) : string * string := (fst part, fst (snd part)).
Definition part_name (part : file_part) : string := fst (snd part).

(** The string has no path separator. *)
Definition no_slash (s : string) : bool :=
  forallb (fun c => negb (Ascii.eqb c "/"%char)) (list_ascii_of_string s).

(** The arguments with another [--mask-path]. *)
Definition with_mask (mask : option string) (args : edit_args) : edit_args :=
  {| image_paths := image_paths args; edit_prompt := edit_prompt args;
     mask_path := mask; edit_n := edit_n args; edit_quality := edit_quality args;
     edit_size := edit_size args; edit_user := edit_user args;
     edit_output_prefix := edit_output_prefix args |}.

(** The handles closed, in order. *)
Fixpoint closed (evs : list event) : list nat :=
  match evs with
  | [] => []
  | EvClose fd :: rest => fd :: closed rest
  | _ :: rest => closed rest
  end.

(** ** Sample inputs *)

Definition sample_clock (k : nat) : datetime :=
  {| year := 2025; month := 4; day := 9;
     hour := 7; minute := 5; second := k mod 60 |}.

(** Two images, ["hi"] and ["yo"]. *)
Definition sample_response : response :=
  {| status_code := 200; text := "";
     json := Ok (PyDict [("data", PyList [PyDict [("b64_json", PyStr "aGk=")];
                                            PyDict [("b64_json", PyStr "eW8=")]])]) |}.

(** Only [cat.png] exists; a file whose name starts with [ro_] cannot be
    created; the server answers with [sample_response]. *)
Definition sample_env : env :=
  {| API_KEY := "sk-sample";
     now := sample_clock;
     path_exists := fun p => String.eqb p "cat.png";
     open_rb := fun _ => None;
     open_wb := fun name =>
       if String.prefix "ro_" name then Some (Exn OSError "Permission denied") else None;
     write_err := fun _ _ => None;
     post := fun _ => Ok sample_response |}.

Definition fresh_world : world :=
  {| w_ticks := 0; w_files := ∅; w_open := []; w_next_fd := 3; w_trace := [] |}.

Definition empty_with_usage_body : list (string * pyval) :=
  [("data", PyList []); ("usage", PyDict [("total_tokens", PyInt 0)])].

Definition empty_with_usage : response :=
  {| status_code := 200; text := ""; json := Ok (PyDict empty_with_usage_body) |}.

Definition empty_without_usage : response :=
  {| status_code := 200; text := ""; json := Ok (PyDict [("data", PyList [])]) |}.

Definition bad_request : response :=
  {| status_code := 400; text := "";
     json := Ok (PyDict [("error", PyDict [("message", PyStr "Invalid size")])]) |}.

(** The first payload stops inside a quad, the second is sound. *)
Definition broken_then_sound : response :=
  {| status_code := 200; text := "";
     json := Ok (PyDict [("data", PyList [PyDict [("b64_json", PyStr "a")];
                                            PyDict [("b64_json", PyStr "aGk=")]])]) |}.

(** The first item has no payload, the second has one. *)
Definition gap_then_image : response :=
  {| status_code := 200; text := "";
     json := Ok (PyDict [("data", PyList [PyDict [("revised_prompt", PyStr "a hat")];
                                            PyDict [("b64_json", PyStr "aGk=")]])]) |}.

(** A 400 response whose body holds an integer of more digits than Python
    converts: [response.json()] raises [ValueError]. *)
Definition huge_number_response : response :=
  {| status_code := 400; text := "{...}";
     json := Raise (Exn ValueError
                      "Exceeds the limit (4300 digits) for integer string conversion") |}.

Fixpoint has_char (c : ascii) (s : string) : bool :=
  match s with
  | EmptyString => false
  | String x rest => Ascii.eqb x c || has_char c rest
  end.

Definition shows_char (c : ascii) (p : piece) : bool :=
  match p with
  | Lit s | Val (PyStr s) | Json (PyStr s) => has_char c s
  | _ => false
  end.

Definition surrogates_not_allowed : exn :=
  Exn UnicodeEncodeError "'utf-8' codec can't encode character: surrogates not allowed".

(** The sample machine with a standard output that cannot encode the
    character 255; it stands for the lone surrogate Python makes of a byte
    of the command line that is not UTF-8. *)
Definition surrogate_host : host :=
  {| host_env := sample_env;
     stdout_err := fun l =>
       if existsb (shows_char "255"%char) l then Some surrogates_not_allowed else None |}.

(** A path with such a byte. *)
Definition unprintable_mask : string := String "255"%char "mask.png".

(** A 400 response whose body is a JSON string with such a character
    (written [\udcff] in the body). *)
Definition unprintable_detail : response :=
  {| status_code := 400; text := "";
     json := Ok (PyStr (String "255"%char " is not a valid size")) |}.

Definition sample_edit (paths : list string) (mask : option string) : edit_args :=
  {| image_paths := paths; edit_prompt := "add a hat"; mask_path := mask;
     edit_n := 1; edit_quality := "low"; edit_size := "1024x1024";
     edit_user := None; edit_output_prefix := "edi" |}.

(** * Facts *)

(** ** Base64: decoding undoes encoding *)

Module Base64Facts.
Import Base64.

(** Exhaustive checks over the 256 bytes and the 64 sextets. *)
Definition N_range (n : nat) : list N := map N.of_nat (seq 0 n).

Lemma N_range_complete (n : nat) (v : N) : (v < N.of_nat n)%N -> In v (N_range n).
Proof.
  intros Hv. unfold N_range. apply in_map_iff. exists (N.to_nat v). split.
  - apply N2Nat.id.
  - apply in_seq. lia.
Qed.

Lemma forall_below (n : nat) (P : N -> bool) :
  forallb P (N_range n) = true -> forall v, (v < N.of_nat n)%N -> P v = true.
Proof.
  intros Hall v Hv. rewrite forallb_forall in Hall. apply Hall.
  now apply N_range_complete.
Qed.

Definition all_bytes : list Byte.byte := map byte_of_N (N_range 256).

Lemma byte_of_to_N (b : Byte.byte) : byte_of_N (Byte.to_N b) = b.
Proof.
  unfold byte_of_N. pose proof (Byte.to_N_bounded b) as Hb.
  rewrite N.mod_small by lia. now rewrite Byte.of_to_N.
Qed.

Lemma all_bytes_complete (b : Byte.byte) : In b all_bytes.
Proof.
  unfold all_bytes. apply in_map_iff. exists (Byte.to_N b). split.
  - apply byte_of_to_N.
  - apply N_range_complete. pose proof (Byte.to_N_bounded b). simpl. lia.
Qed.

Lemma forall_byte (P : Byte.byte -> bool) :
  forallb P all_bytes = true -> forall b, P b = true.
Proof.
  intros Hall b. rewrite forallb_forall in Hall. apply Hall, all_bytes_complete.
Qed.

Lemma forall_byte2 (P : Byte.byte -> Byte.byte -> bool) :
  forallb (fun a => forallb (P a) all_bytes) all_bytes = true ->
  forall a b, P a b = true.
Proof.
  intros Hall a b. 
  apply (forall_byte (P a)). revert a. apply (forall_byte (fun a => forallb (P a) all_bytes)), Hall.
Qed.

Definition sextet_ok (v : N) : bool :=
  match a2b (b2a v) with Some u => N.eqb u v | None => false end
  && negb (Ascii.eqb (b2a v) "="%char) && is_ascii_char (b2a v).

Lemma sextet_ok_below : forall v, (v < 64)%N -> sextet_ok v = true.
Proof. apply (forall_below 64). vm_compute. reflexivity. Qed.

Lemma a2b_loop_sextet (v : N) (rest : string) (q : nat) (l : N) (p : nat) (out : list Byte.byte) :
  (v < 64)%N ->
  a2b_loop (String (b2a v) rest) q l p out =
  match q with
  | 0 => a2b_loop rest 1 v 0 out
  | 1 => a2b_loop rest 2 (N.land v 15) 0
           (out ++ [byte_of_N (N.lor (N.shiftl l 2) (N.shiftr v 4))])
  | 2 => a2b_loop rest 3 (N.land v 3) 0
           (out ++ [byte_of_N (N.lor (N.shiftl l 4) (N.shiftr v 2))])
  | _ => a2b_loop rest 0 0 0 (out ++ [byte_of_N (N.lor (N.shiftl l 6) v)])
  end.
Proof.
  intros Hv. pose proof (sextet_ok_below v Hv) as Hok. unfold sextet_ok in Hok.
  apply andb_true_iff in Hok as [Hok _]. apply andb_true_iff in Hok as [Hdec Hpad].
  apply negb_true_iff in Hpad.
  destruct (a2b (b2a v)) as [u|] eqn:Hu; [|discriminate].
  apply N.eqb_eq in Hdec. subst u.
  cbn [a2b_loop]. rewrite Hpad, Hu. reflexivity.
Qed.

Ltac by_bytes :=
  intros; apply N.ltb_lt || apply N.eqb_eq || apply Byte.byte_dec_bl;
  match goal with
  | b1 : Byte.byte, b2 : Byte.byte |- _ => revert b1 b2; apply forall_byte2
  | b1 : Byte.byte |- _ => revert b1; apply forall_byte
  end; vm_compute; reflexivity.

Lemma sextet1_bound (b1 : Byte.byte) : (N.shiftr (Byte.to_N b1) 2 < 64)%N.
Proof. by_bytes. Qed.

Lemma sextet2_bound (b1 b2 : Byte.byte) :
  (N.lor (N.shiftl (N.land (Byte.to_N b1) 3) 4) (N.shiftr (Byte.to_N b2) 4) < 64)%N.
Proof. by_bytes. Qed.

Lemma sextet2_last_bound (b1 : Byte.byte) :
  (N.shiftl (N.land (Byte.to_N b1) 3) 4 < 64)%N.
Proof. by_bytes. Qed.

Lemma sextet3_bound (b2 b3 : Byte.byte) :
  (N.lor (N.shiftl (N.land (Byte.to_N b2) 15) 2) (N.shiftr (Byte.to_N b3) 6) < 64)%N.
Proof. by_bytes. Qed.

Lemma sextet3_last_bound (b2 : Byte.byte) :
  (N.shiftl (N.land (Byte.to_N b2) 15) 2 < 64)%N.
Proof. by_bytes. Qed.

Lemma sextet4_bound (b3 : Byte.byte) : (N.land (Byte.to_N b3) 63 < 64)%N.
Proof. by_bytes. Qed.

(** First byte: the six bits of the first sextet and the top two of the second. *)
Lemma byte1_back (b1 b2 : Byte.byte) :
  byte_of_N
    (N.lor (N.shiftl (N.shiftr (Byte.to_N b1) 2) 2)
       (N.shiftr (N.lor (N.shiftl (N.land (Byte.to_N b1) 3) 4) (N.shiftr (Byte.to_N b2) 4)) 4))
  = b1.
Proof. by_bytes. Qed.

Lemma byte1_last_back (b1 : Byte.byte) :
  byte_of_N
    (N.lor (N.shiftl (N.shiftr (Byte.to_N b1) 2) 2)
       (N.shiftr (N.shiftl (N.land (Byte.to_N b1) 3) 4) 4))
  = b1.
Proof. by_bytes. Qed.

Lemma sextet2_low (b1 b2 : Byte.byte) :
  N.land (N.lor (N.shiftl (N.land (Byte.to_N b1) 3) 4) (N.shiftr (Byte.to_N b2) 4)) 15
  = N.shiftr (Byte.to_N b2) 4.
Proof. by_bytes. Qed.

Lemma sextet3_high (b2 b3 : Byte.byte) :
  N.shiftr (N.lor (N.shiftl (N.land (Byte.to_N b2) 15) 2) (N.shiftr (Byte.to_N b3) 6)) 2
  = N.land (Byte.to_N b2) 15.
Proof. by_bytes. Qed.

Lemma sextet3_last_high (b2 : Byte.byte) :
  N.shiftr (N.shiftl (N.land (Byte.to_N b2) 15) 2) 2 = N.land (Byte.to_N b2) 15.
Proof. by_bytes. Qed.

Lemma byte2_back (b2 : Byte.byte) :
  byte_of_N (N.lor (N.shiftl (N.shiftr (Byte.to_N b2) 4) 4) (N.land (Byte.to_N b2) 15)) = b2.
Proof. by_bytes. Qed.

Lemma byte3_back (b2 b3 : Byte.byte) :
  byte_of_N
    (N.lor
       (N.shiftl (N.land (N.lor (N.shiftl (N.land (Byte.to_N b2) 15) 2) (N.shiftr (Byte.to_N b3) 6)) 3) 6)
       (N.land (Byte.to_N b3) 63))
  = b3.
Proof. by_bytes. Qed.

Lemma list_ind3 {A : Type} (P : list A -> Prop) :
  P [] -> (forall a, P [a]) -> (forall a b, P [a; b]) ->
  (forall a b c l, P l -> P (a :: b :: c :: l)) ->
  forall l, P l.
Proof.
  intros H0 H1 H2 H3 l.
  enough (P l /\ (forall a, P (a :: l)) /\ (forall a b, P (a :: b :: l))) by tauto.
  induction l as [|x l (IH0 & IH1 & IH2)]; [now auto|].
  repeat split; auto.
Qed.

Lemma a2b_loop_b64encode (bs : list Byte.byte) :
  forall (l : N) (p : nat) (out : list Byte.byte),
    a2b_loop (b64encode bs) 0 l p out = Ok (out ++ bs).
Proof.
  induction bs as [|b1|b1 b2|b1 b2 b3 rest IH] using list_ind3; intros l p out.
  - cbn. now rewrite app_nil_r.
  - cbn [b64encode].
    rewrite a2b_loop_sextet by apply sextet1_bound.
    rewrite a2b_loop_sextet by apply sextet2_last_bound.
    rewrite byte1_last_back. reflexivity.
  - cbn [b64encode].
    rewrite a2b_loop_sextet by apply sextet1_bound.
    rewrite a2b_loop_sextet by apply sextet2_bound.
    rewrite a2b_loop_sextet by apply sextet3_last_bound.
    rewrite byte1_back, sextet2_low, sextet3_last_high, byte2_back.
    cbn. now rewrite <- app_assoc.
  - cbn [b64encode].
    rewrite a2b_loop_sextet by apply sextet1_bound.
    rewrite a2b_loop_sextet by apply sextet2_bound.
    rewrite a2b_loop_sextet by apply sextet3_bound.
    rewrite a2b_loop_sextet by apply sextet4_bound.
    rewrite byte1_back, sextet2_low, sextet3_high, byte2_back, byte3_back.
    rewrite IH. now rewrite <- !app_assoc.
Qed.

Lemma b2a_ascii (v : N) : (v < 64)%N -> is_ascii_char (b2a v) = true.
Proof.
  intros Hv. pose proof (sextet_ok_below v Hv) as Hok. unfold sextet_ok in Hok.
  now apply andb_true_iff in Hok as [_ Hok].
Qed.

Lemma b64encode_is_ascii (bs : list Byte.byte) : is_ascii (b64encode bs) = true.
Proof.
  induction bs as [|b1|b1 b2|b1 b2 b3 rest IH] using list_ind3;
    cbn [b64encode is_ascii];
    rewrite ?b2a_ascii, ?IH
      by first [apply sextet1_bound | apply sextet2_bound | apply sextet2_last_bound
               | apply sextet3_bound | apply sextet3_last_bound | apply sextet4_bound];
    reflexivity.
Qed.

Lemma b64decode_b64encode (bs : list Byte.byte) :
  b64decode (PyStr (b64encode bs)) = Ok bs.
Proof.
  unfold b64decode, a2b_base64. rewrite b64encode_is_ascii. apply a2b_loop_b64encode.
Qed.

End Base64Facts.

(** ** Traces *)

Lemma events_of_app {A : Type} (m : M A) (w : world) (evs : list event) :
  w_trace (snd (m w)) = w_trace w ++ evs -> events_of m w = evs.
Proof.
  intros H. unfold events_of. rewrite H.
  rewrite skipn_app, skipn_all, Nat.sub_diag. reflexivity.
Qed.

Lemma save_calls_app (a b : list event) : save_calls (a ++ b) = save_calls a ++ save_calls b.
Proof. induction a as [|[] a IH]; cbn; rewrite ?IH; reflexivity. Qed.

Lemma posted_app (a b : list event) : posted (a ++ b) = posted a ++ posted b.
Proof. induction a as [|[] a IH]; cbn; rewrite ?IH; reflexivity. Qed.

Lemma opened_app (a b : list event) : opened (a ++ b) = opened a ++ opened b.
Proof. induction a as [|[] a IH]; cbn; rewrite ?IH; reflexivity. Qed.

Lemma prints_no_calls (evs : list event) : Forall is_print evs -> save_calls evs = [].
Proof. induction 1 as [|[] evs H _ IH]; cbn in *; tauto. Qed.

Lemma In_written (name : string) (data : list Byte.byte) (evs : list event) :
  In (name, data) (written evs) <-> In (EvWrite name data) evs.
Proof.
  induction evs as [|e evs IH]; cbn; [tauto|].
  destruct e; cbn; rewrite IH; intuition (discriminate || congruence).
Qed.

(** ** The frame rules of [grows] *)

Lemma grows_refl (P : event -> Prop) (w : world) : grows P w w.
Proof. exists []. rewrite app_nil_r. auto. Qed.

Lemma grows_trans (P : event -> Prop) (w1 w2 w3 : world) :
  grows P w1 w2 -> grows P w2 w3 -> grows P w1 w3.
Proof.
  intros (e1 & T1 & F1 & O1 & N1) (e2 & T2 & F2 & O2 & N2).
  exists (e1 ++ e2). rewrite T2, T1, <- app_assoc. repeat split; try congruence.
  apply Forall_app; auto.
Qed.

Lemma grows_weaken (P Q : event -> Prop) (w w' : world) :
  (forall e, P e -> Q e) -> grows P w w' -> grows Q w w'.
Proof.
  intros HPQ (evs & T & F & O & N). exists evs. repeat split; auto.
  eapply Forall_impl; eauto.
Qed.

Lemma grows_emit (P : event -> Prop) (e : event) (w : world) :
  P e -> grows P w (emit_event e w).
Proof. intros He. exists [e]. cbn. auto. Qed.

Section Quiet.

Context {A B : Type} (P : event -> Prop).

Lemma quiet_ret (a : A) : quiet P (ret a).
Proof. intros w. apply grows_refl. Qed.

Lemma quiet_raise (e : exn) : quiet P (@raise A e).
Proof. intros w. apply grows_refl. Qed.

Lemma quiet_lift (r : result A) : quiet P (lift r).
Proof. intros w. apply grows_refl. Qed.

Lemma quiet_bind (m : M A) (k : A -> M B) :
  quiet P m -> (forall a, quiet P (k a)) -> quiet P (bind m k).
Proof.
  intros Hm Hk w. unfold bind. specialize (Hm w).
  destruct (m w) as [[a|e] w']; cbn in *; [|exact Hm].
  eapply grows_trans; [exact Hm | apply Hk].
Qed.

Lemma quiet_try_except (m : M A) (h : exn -> M A) :
  quiet P m -> (forall e, quiet P (h e)) -> quiet P (try_except m h).
Proof.
  intros Hm Hh w. unfold try_except. specialize (Hm w).
  destruct (m w) as [[a|e] w']; cbn in *; [exact Hm|].
  eapply grows_trans; [exact Hm | apply Hh].
Qed.

Lemma quiet_if (b : bool) (m1 m2 : M A) :
  quiet P m1 -> quiet P m2 -> quiet P (if b then m1 else m2).
Proof. destruct b; auto. Qed.

End Quiet.

Lemma quiet_print (H : host) (P : event -> Prop) (l : line) :
  P (EvPrint l) -> quiet P (print H l).
Proof.
  intros Hl w. unfold print.
  destruct (stdout_err H l); [apply grows_refl | now apply grows_emit].
Qed.

Lemma quiet_weaken {A : Type} (P Q : event -> Prop) (m : M A) :
  (forall e, P e -> Q e) -> quiet P m -> quiet Q m.
Proof. intros HPQ Hm w. eapply grows_weaken; eauto. Qed.

(** One step through a monadic body: the rule of its head operation. *)
Ltac quiet_step :=
  first [ apply quiet_bind; [|intros ?]
        | apply quiet_try_except; [|intros ?]
        | apply quiet_if
        | apply quiet_ret | apply quiet_raise | apply quiet_lift
        | apply quiet_print; exact I ].

(** ** Events, file names and payloads *)

(** The handler opens no handle and sends no request. *)
Lemma handler_posts_nothing (prefix fmt : string) (evs : list event) :
  Forall (handler_event prefix fmt) evs -> posted evs = [] /\ opened evs = [].
Proof. induction 1 as [|[] evs H _ IH]; cbn in *; tauto. Qed.

Lemma string_app_assoc (a b c : string) : (a +:+ b) +:+ c = a +:+ b +:+ c.
Proof.
  induction a as [|x a IH]; [reflexivity|].
  change (String x ((a +:+ b) +:+ c) = String x (a +:+ b +:+ c)). now rewrite IH.
Qed.

Lemma mk_filename_extension (prefix timestamp : string) (index : nat) (fmt : string) :
  has_extension fmt (mk_filename prefix timestamp index fmt).
Proof.
  exists (prefix +:+ "_" +:+ timestamp +:+ "_" +:+ string_of_nat (index + 1)).
  unfold mk_filename. now rewrite !string_app_assoc.
Qed.

Lemma prints_no_opens (evs : list event) :
  Forall is_print evs -> opened evs = [] /\ posted evs = [].
Proof. induction 1 as [|[] evs H _ IH]; cbn in *; tauto. Qed.

Lemma opens_no_posts (evs : list event) :
  Forall is_open_event evs -> posted evs = [].
Proof. induction 1 as [|[] evs H _ IH]; cbn in *; tauto. Qed.

Lemma closes_no_opens (fds : list nat) :
  opened (map EvClose fds) = [] /\ posted (map EvClose fds) = [].
Proof. induction fds; cbn; auto. Qed.

Lemma digit_is_digit (k : nat) : is_digit (digit k) = true.
Proof.
  unfold digit. pose proof (Nat.mod_upper_bound k 10 ltac:(lia)) as Hk.
  revert Hk. generalize (k mod 10). intros m Hm.
  do 10 (destruct m as [|m]; [reflexivity|]). lia.
Qed.

(** Every digit is taken modulo ten, so the shape holds for every reading
    of the clock. *)
Lemma strftime_form (d : datetime) : timestamp_form (strftime d) = true.
Proof.
  cbv [timestamp_form strftime four_digits two_digits String.append
       list_ascii_of_string forallb].
  rewrite !digit_is_digit. reflexivity.
Qed.

Lemma handler_event_of_print (prefix fmt : string) (e : event) :
  is_print e -> handler_event prefix fmt e.
Proof. destruct e; cbn; tauto. Qed.

Lemma carries_payload_item (item : pyval) :
  carries_payload item = true -> item_payload item = Ok (Some (payload_of item)).
Proof.
  destruct item; try discriminate. unfold item_payload. cbn.
  destruct (dict_get "b64_json" kvs); [reflexivity | discriminate].
Qed.

Lemma carries_payload_readable (item : pyval) :
  carries_payload item = true -> readable item = true.
Proof. intros H. unfold readable. now rewrite carries_payload_item. Qed.

Lemma enumerate_from_indices (items : list pyval) :
  forall i, map fst (enumerate_from i items) = seq i (length items).
Proof. induction items as [|item rest IH]; intros i; cbn; [|rewrite IH]; reflexivity. Qed.

(** Lines 97-98, read back from the payload. *)
Lemma create_payload_compression (args : create_args) :
  create_payload args !! "output_compression" =
  match output_compression args with
  | Some c =>
      if String.eqb (output_format args) "jpeg" || String.eqb (output_format args) "webp"
      then Some (PyInt c) else None
  | None => None
  end.
Proof.
  unfold create_payload.
  destruct (str_truthy (moderation args)); rewrite ?lookup_insert_ne by discriminate;
    (destruct (output_compression args) as [c|];
     [destruct (String.eqb (output_format args) "jpeg" || String.eqb (output_format args) "webp");
      [now rewrite lookup_insert_eq|] |]);
    (destruct (user args) as [u|]; [destruct (str_truthy u)|]);
    rewrite ?lookup_insert_ne by discriminate; apply lookup_empty.
Qed.

(** ** What the program does *)

(** What holds on every host, whatever its standard output does. *)
Section HostFacts.

Variable H : host.

(** The chain on ["usage"] only prints. *)
Lemma report_usage_quiet (data : pyval) : quiet is_print (report_usage H data).
Proof.
  unfold report_usage, print_usage. repeat quiet_step.
Qed.

Lemma response_json_quiet (P : event -> Prop) (r : response) : quiet P (response_json r).
Proof. unfold response_json. apply quiet_lift. Qed.

Lemma enter_save_quiet (b64 : pyval) (prefix : string) (i : nat) (fmt : string) :
  quiet (handler_event prefix fmt) (enter_save b64 prefix i fmt).
Proof. intros w. apply grows_emit. cbn. auto. Qed.

Lemma datetime_now_quiet (P : event -> Prop) : quiet P (datetime_now H).
Proof. intros w. exists []. cbn. rewrite app_nil_r. auto. Qed.

Lemma write_file_quiet (prefix timestamp : string) (i : nat) (fmt : string)
    (data : list Byte.byte) :
  quiet (handler_event prefix fmt) (write_file H (mk_filename prefix timestamp i fmt) data).
Proof.
  intros w. unfold write_file.
  destruct (open_wb (host_env H) _); [apply grows_refl|].
  destruct (write_err (host_env H) _ _); cbn [snd].
  - exists []. cbn. rewrite app_nil_r. auto.
  - eexists [_]. cbn. repeat split; auto. repeat constructor. cbn. eauto.
Qed.

Lemma save_image_from_b64_quiet (b64 : pyval) (prefix : string) (i : nat) (fmt : string) :
  quiet (handler_event prefix fmt) (save_image_from_b64 H b64 prefix i fmt).
Proof.
  unfold save_image_from_b64.
  repeat first [ apply enter_save_quiet | apply datetime_now_quiet | apply write_file_quiet
               | quiet_step ].
Qed.

Lemma handle_item_quiet (prefix fmt : string) (i : nat) (item : pyval) :
  quiet (handler_event prefix fmt) (handle_item H prefix fmt i item).
Proof.
  unfold handle_item. repeat first [apply save_image_from_b64_quiet | quiet_step].
Qed.

Lemma handle_items_quiet (prefix fmt : string) (items : list pyval) :
  forall i, quiet (handler_event prefix fmt) (handle_items H prefix fmt i items).
Proof.
  induction items as [|item rest IH]; intros i; cbn [handle_items].
  - apply quiet_ret.
  - apply quiet_bind; [apply handle_item_quiet | intros _; apply IH].
Qed.

(** Whatever the response, the handler only prints, calls the persister and
    writes files named after its prefix and format. *)
Lemma handle_api_response_quiet (r : response) (prefix fmt : string) :
  quiet (handler_event prefix fmt) (handle_api_response H r prefix fmt).
Proof.
  unfold handle_api_response, process_body, save_items.
  destruct (status_code r =? 200)%Z.
  - repeat first [ apply response_json_quiet | apply handle_items_quiet
                 | apply (quiet_weaken is_print); [apply handler_event_of_print | apply report_usage_quiet]
                 | quiet_step ].
  - repeat first [ apply response_json_quiet | quiet_step ].
Qed.

End HostFacts.

Section ProgramFacts.

Variable E : env.

(** A call of the persister always returns, and its trace is [save_events]. *)
Lemma save_image_from_b64_run (b64 : pyval) (prefix : string) (i : nat) (fmt : string) (w : world) :
  exists o w',
    save_image_from_b64 E b64 prefix i fmt w = (Ok o, w')
    /\ w_trace w' = w_trace w ++ save_events E b64 prefix i fmt (w_ticks w)
    /\ w_ticks w' = save_ticks b64 (w_ticks w)
    /\ w_open w' = w_open w /\ w_next_fd w' = w_next_fd w.
Proof.
  unfold save_image_from_b64, enter_save, save_events, save_ticks, bind, try_except,
    lift, datetime_now, write_file, print, ret.
  cbn. destruct (Base64.b64decode b64) as [data|e]; cbn.
  - destruct (open_wb E _) as [e|]; cbn.
    + eexists _, _. split; [reflexivity|]. cbn. rewrite <- app_assoc. auto.
    + destruct (write_err E _ data) as [e|]; cbn.
      * eexists _, _. split; [reflexivity|]. cbn. rewrite <- app_assoc. auto.
      * eexists _, _. split; [reflexivity|]. cbn. rewrite <- !app_assoc. auto.
  - eexists _, _. split; [reflexivity|]. cbn. rewrite <- app_assoc. auto.
Qed.

Lemma save_events_handler (b64 : pyval) (prefix : string) (i : nat) (fmt : string) (ticks : nat) :
  Forall (handler_event prefix fmt) (save_events E b64 prefix i fmt ticks).
Proof.
  unfold save_events.
  destruct (Base64.b64decode b64) as [data|e]; [|repeat constructor].
  cbn. destruct (open_wb E _); [repeat constructor|].
  destruct (write_err E _ data); repeat constructor. cbn. eauto.
Qed.

(** The only exception that leaves the handler is the one of
    [response.json()], when it is not a [JSONDecodeError]: what the body
    raises besides is caught, and the second [response.json()] of the
    catch-all clause does what the first one did. *)
Lemma handle_api_response_returns (r : response) (prefix fmt : string) (w : world) :
  fst (handle_api_response E r prefix fmt w) = handler_result r.
Proof.
  unfold handle_api_response, process_body, response_json, handler_result.
  destruct (status_code r =? 200)%Z.
  - unfold try_except. destruct (json r) as [data|e].
    + unfold bind at 1, lift at 1.
      destruct ((save_items E data prefix fmt;; report_usage E data) w) as [[[]|e] w'];
        [reflexivity|].
      destruct (exn_isinstance e JSONDecodeError); reflexivity.
    + unfold bind at 1, lift at 1. destruct (exn_isinstance e JSONDecodeError); reflexivity.
  - destruct (json r) as [data|e]; [reflexivity|].
    unfold bind, try_except, lift, print. cbn.
    destruct (exn_isinstance e JSONDecodeError); reflexivity.
Qed.

Lemma item_payload_some (item b64 : pyval) :
  item_payload item = Ok (Some b64) ->
  py_contains "b64_json" item = Ok true /\ py_getitem item "b64_json" = Ok b64.
Proof.
  unfold item_payload, bind_result.
  destruct (py_contains "b64_json" item) as [[|]|]; try discriminate.
  destruct (py_getitem item "b64_json"); try discriminate.
  intros [= ->]. auto.
Qed.

Lemma item_payload_none (item : pyval) :
  item_payload item = Ok None -> py_contains "b64_json" item = Ok false.
Proof.
  unfold item_payload, bind_result.
  destruct (py_contains "b64_json" item) as [[|]|]; try discriminate; auto.
  destruct (py_getitem item "b64_json"); discriminate.
Qed.

Lemma object_readable (item : pyval) : is_object item = true -> readable item = true.
Proof.
  destruct item; try discriminate. intros _.
  unfold readable, item_payload. cbn.
  destruct (dict_get "b64_json" kvs); reflexivity.
Qed.

Lemma readable_prefix_all (items : list pyval) :
  Forall (fun item => readable item = true) items -> readable_prefix items = items.
Proof. induction 1 as [|item rest Hitem _ IH]; cbn; [|rewrite Hitem, IH]; reflexivity. Qed.

(** The items before position [j] are in the prefix when they can all be
    read, and so is a readable item at [j]. *)
Lemma readable_prefix_nth (items : list pyval) :
  forall j item,
    nth_error items j = Some item ->
    readable item = true ->
    Forall (fun it => readable it = true) (firstn j items) ->
    nth_error (readable_prefix items) j = Some item.
Proof.
  induction items as [|x rest IH]; intros [|j] item Hn Hr Hbefore; cbn in *; try discriminate.
  - injection Hn as ->. now rewrite Hr.
  - inversion Hbefore as [|? ? Hx Hrest]; subst. rewrite Hx. cbn. now apply IH.
Qed.

Lemma readable_prefix_is_prefix (items : list pyval) :
  forall j item,
    nth_error (readable_prefix items) j = Some item -> nth_error items j = Some item.
Proof.
  induction items as [|x rest IH]; intros j item; cbn; [now destruct j|].
  destruct (readable x); [|now destruct j].
  destruct j as [|j]; cbn; auto.
Qed.

(** The loop leaves the trace of the items it gets through; it returns
    normally when it gets through all of them. *)
Lemma handle_items_run (prefix fmt : string) (items : list pyval) :
  forall (i : nat) (w : world),
  exists res w',
    handle_items E prefix fmt i items w = (res, w')
    /\ w_trace w' = w_trace w
                    ++ items_events E prefix fmt i (readable_prefix items) (w_ticks w)
    /\ (Forall (fun item => readable item = true) items -> res = Ok tt).
Proof.
  induction items as [|item rest IH]; intros i w;
    cbn [handle_items readable_prefix items_events].
  - exists (Ok tt), w. now rewrite app_nil_r.
  - unfold readable. unfold bind at 1, handle_item, bind at 1, lift.
    destruct (item_payload item) as [[b64|]|e] eqn:Hp.
    + cbn [items_events]. rewrite Hp.
      apply item_payload_some in Hp as [-> Hget].
      unfold bind at 1. rewrite Hget. unfold bind at 1.
      destruct (save_image_from_b64_run b64 prefix i fmt w) as (o & w1 & -> & Htr & Htk & _).
      cbn [ret]. destruct (IH (S i) w1) as (res & w' & -> & Htr' & Hres).
      exists res, w'. split; [reflexivity|]. split.
      * rewrite Htr', Htr, Htk, <- app_assoc. reflexivity.
      * intros Hall. apply Hres. now inversion Hall.
    + cbn [items_events]. rewrite Hp.
      apply item_payload_none in Hp as ->.
      unfold print. cbn [stdout_err accepting].
      destruct (IH (S i) (emit_event (EvPrint (item_warning_line i item)) w))
        as (res & w' & -> & Htr' & Hres).
      exists res, w'. split; [reflexivity|]. split.
      * rewrite Htr'. cbn. rewrite <- app_assoc. reflexivity.
      * intros Hall. apply Hres. now inversion Hall.
    + cbn [items_events]. rewrite app_nil_r.
      assert (Hstop : forall (k : M unit),
                 bind (c <- (fun w0 : world => (py_contains "b64_json" item, w0));;
                       (if c
                        then b64 <- (fun w0 : world => (py_getitem item "b64_json", w0));;
                             save_image_from_b64 E b64 prefix i fmt;; ret tt
                        else print E (item_warning_line i item)))
                      (fun _ => k) w = (Raise e, w)).
      { intros k. unfold item_payload, bind_result in Hp. unfold bind.
        destruct (py_contains "b64_json" item) as [[|]|e1]; [| |congruence].
        - destruct (py_getitem item "b64_json"); [discriminate | congruence].
        - discriminate. }
      exists (Raise e), w. split; [|split; [reflexivity|]].
      * specialize (Hstop (handle_items E prefix fmt (S i) rest)).
        unfold bind in *. exact Hstop.
      * intros Hall. inversion Hall as [|? ? Hitem _]; subst.
        unfold readable in Hitem. now rewrite Hp in Hitem.
Qed.

End ProgramFacts.

(** ** Runs of the handler, of a creation and of an edit *)

Section RunFacts.

Variable E : env.

(** What a call that returns a name has done. *)
Lemma save_image_from_b64_success (b64 : pyval) (prefix : string) (i : nat)
    (fmt : string) (w : world) (filename : string) :
  fst (save_image_from_b64 E b64 prefix i fmt w) = Ok (Some filename) ->
  exists data,
    Base64.b64decode b64 = Ok data
    /\ filename = mk_filename prefix (strftime (now E (w_ticks w))) i fmt
    /\ w_files (snd (save_image_from_b64 E b64 prefix i fmt w)) !! filename = Some data
    /\ events_of (save_image_from_b64 E b64 prefix i fmt) w =
         [EvSave b64 prefix i fmt; EvWrite filename data; EvPrint (saved_line filename)].
Proof.
  unfold save_image_from_b64, enter_save, bind, try_except, lift, datetime_now,
    write_file, print, ret.
  cbn. destruct (Base64.b64decode b64) as [data|e]; cbn; [|discriminate].
  destruct (open_wb E _) as [e|] eqn:Hopen; cbn; [discriminate|].
  destruct (write_err E _ data) as [e|] eqn:Hwrite; cbn; [discriminate|].
  intros [= <-]. exists data. repeat split.
  - apply lookup_insert_eq.
  - unfold events_of. cbn. rewrite Hopen, Hwrite. cbn.
    rewrite <- !app_assoc, skipn_app, skipn_all, Nat.sub_diag. reflexivity.
Qed.

Lemma save_calls_save_events (b64 : pyval) (prefix : string) (i : nat) (fmt : string) (ticks : nat) :
  save_calls (save_events E b64 prefix i fmt ticks) = [(b64, prefix, i, fmt)].
Proof.
  unfold save_events. cbn. destruct (Base64.b64decode b64); [|reflexivity].
  cbn. destruct (open_wb E _); [reflexivity|]. destruct (write_err E _ _); reflexivity.
Qed.

Lemma save_calls_items_events (prefix fmt : string) (items : list pyval) :
  Forall (fun item => carries_payload item = true) items ->
  forall i ticks,
    save_calls (items_events E prefix fmt i items ticks) =
    map (fun p => (payload_of (snd p), prefix, fst p, fmt)) (enumerate_from i items).
Proof.
  induction 1 as [|item rest Hitem _ IH]; intros i ticks; cbn [items_events enumerate_from map]; [reflexivity|].
  rewrite (carries_payload_item item Hitem), save_calls_app, save_calls_save_events, IH.
  reflexivity.
Qed.

(** The run of the handler on a ["data"] list: the trace of the items the
    loop gets through, then lines of the usage report or of the catch-all
    clause. *)
Lemma handle_api_response_list_run (r : response) (prefix fmt : string) (w : world)
    (kvs : list (string * pyval)) (items : list pyval) :
  status_code r = 200%Z ->
  json r = Ok (PyDict kvs) ->
  dict_get "data" kvs = Some (PyList items) ->
  exists tail,
    events_of (handle_api_response E r prefix fmt) w =
      items_events E prefix fmt 0 (readable_prefix items) (w_ticks w) ++ tail
    /\ Forall is_print tail.
Proof.
  intros Hst Hjson Hdata.
  destruct (handle_items_run E prefix fmt items 0 w) as (res & w1 & Hloop & Htr1 & _).
  enough (exists tail, w_trace (snd (handle_api_response E r prefix fmt w))
                       = w_trace w1 ++ tail /\ Forall is_print tail) as (tail & Htr & Htail).
  { exists tail. split; [|exact Htail]. apply events_of_app.
    rewrite Htr, Htr1, <- app_assoc. reflexivity. }
  assert (Hcatch : forall (e : exn) (w2 : world) (evs : list event),
             w_trace w2 = w_trace w1 ++ evs -> Forall is_print evs ->
             exists tail,
               w_trace (snd ((if exn_isinstance e JSONDecodeError
                              then print E [Lit "Error: Could not decode JSON response."];;
                                   print E [Lit "Raw response: "; Lit (text r)]
                              else print E [Lit "An error occurred while processing the response: ";
                                          Lit (exn_msg e)];;
                                   again <- lift (Ok (PyDict kvs));;
                                   print E [Lit "Raw response JSON: "; Val again]) w2))
               = w_trace w1 ++ tail /\ Forall is_print tail).
  { intros e w2 evs Htr Hev.
    destruct (exn_isinstance e JSONDecodeError); unfold bind, print, lift; cbn;
      eexists (evs ++ [_; _]); rewrite Htr, <- !app_assoc; (split; [reflexivity|]);
      apply Forall_app; (split; [exact Hev | repeat constructor]). }
  unfold handle_api_response, process_body, response_json, save_items.
  rewrite Hst, Hjson. cbn [Z.eqb Pos.eqb].
  unfold try_except, bind at 1, lift at 1.
  unfold bind at 1, bind at 1, lift at 1, data_is_list, bind_result, py_contains, py_getitem.
  rewrite Hdata. cbn [isinstance_list]. unfold bind at 1, lift at 1. cbn [list_items].
  rewrite Hloop. destruct res as [[]|e].
  - pose proof (report_usage_quiet E (PyDict kvs) w1) as (evs & Htr & Hev & _).
    destruct (report_usage E (PyDict kvs) w1) as [[[]|e] w2]; cbn [fst snd] in *.
    + exists evs. auto.
    + apply (Hcatch e w2 evs Htr Hev).
  - apply (Hcatch e w1 []); [now rewrite app_nil_r | constructor].
Qed.

Lemma save_events_write (b64 : pyval) (prefix : string) (i : nat) (fmt : string)
    (ticks : nat) (name : string) (data : list Byte.byte) :
  In (EvWrite name data) (save_events E b64 prefix i fmt ticks) ->
  Base64.b64decode b64 = Ok data
  /\ name = mk_filename prefix (strftime (now E ticks)) i fmt.
Proof.
  unfold save_events. intros [H|H]; [discriminate|]. revert H.
  destruct (Base64.b64decode b64) as [d|e]; cbn.
  - destruct (open_wb E _); cbn; [intros [[=]|[]]|].
    destruct (write_err E _ d); cbn; [intros [[=]|[]]|].
    intros [[= <- <-]|[[=]|[]]]. auto.
  - intros [[=]|[]].
Qed.

(** Every file the loop writes belongs to an item that carries a payload:
    it holds the decoded payload and is named after the item's position. *)
Lemma items_events_write (prefix fmt : string) (items : list pyval)
    (name : string) (data : list Byte.byte) :
  forall i ticks,
    In (EvWrite name data) (items_events E prefix fmt i items ticks) ->
    exists j item b64 t,
      nth_error items j = Some item
      /\ item_payload item = Ok (Some b64)
      /\ Base64.b64decode b64 = Ok data
      /\ name = mk_filename prefix (strftime (now E t)) (i + j) fmt.
Proof.
  induction items as [|item rest IH]; intros i ticks; cbn [items_events]; [intros []|].
  assert (Hrest : forall t0, In (EvWrite name data) (items_events E prefix fmt (S i) rest t0) ->
            exists j it b64 t, nth_error (item :: rest) j = Some it
              /\ item_payload it = Ok (Some b64) /\ Base64.b64decode b64 = Ok data
              /\ name = mk_filename prefix (strftime (now E t)) (i + j) fmt).
  { intros t0 Hin. destruct (IH _ _ Hin) as (j & it & b64 & t & Hn & Hp & Hd & Hname).
    exists (S j), it, b64, t. replace (i + S j) with (S i + j) by lia. auto. }
  destruct (item_payload item) as [[b64|]|] eqn:Hp.
  - intros Hin. apply in_app_or in Hin as [Hin|Hin]; [|eauto].
    apply save_events_write in Hin as [Hd Hname].
    exists 0, item, b64, ticks. rewrite Nat.add_0_r. auto.
  - intros [[=]|Hin]. eauto.
  - intros [[=]|Hin]. eauto.
Qed.

(** An item without the field gets its warning, whatever the other items do. *)
Lemma items_events_warning (prefix fmt : string) (items : list pyval) :
  forall i ticks j item,
    nth_error items j = Some item ->
    item_payload item = Ok None ->
    In (EvPrint (item_warning_line (i + j) item)) (items_events E prefix fmt i items ticks).
Proof.
  induction items as [|x rest IH]; intros i ticks [|j] item Hn Hp; cbn in Hn; try discriminate.
  - injection Hn as ->. cbn [items_events]. rewrite Hp, Nat.add_0_r. now left.
  - cbn [items_events]. replace (i + S j) with (S i + j) by lia.
    destruct (item_payload x) as [[b64|]|]; [apply in_or_app| |]; right; now apply IH.
Qed.

(** An item with the field gets its call of the persister, whatever the
    other items do. *)
Lemma items_events_save (prefix fmt : string) (items : list pyval) :
  forall i ticks j item b64,
    nth_error items j = Some item ->
    item_payload item = Ok (Some b64) ->
    exists t, incl (save_events E b64 prefix (i + j) fmt t)
                   (items_events E prefix fmt i items ticks).
Proof.
  induction items as [|x rest IH]; intros i ticks [|j] item b64 Hn Hp; cbn in Hn; try discriminate.
  - injection Hn as ->. cbn [items_events]. rewrite Hp, Nat.add_0_r.
    exists ticks. apply incl_appl, incl_refl.
  - cbn [items_events]. replace (i + S j) with (S i + j) by lia.
    destruct (item_payload x) as [[b|]|].
    + destruct (IH (S i) (save_ticks b ticks) j item b64 Hn Hp) as (t & Ht).
      exists t. now apply incl_appr.
    + destruct (IH (S i) ticks j item b64 Hn Hp) as (t & Ht). exists t. now apply incl_tl.
    + destruct (IH (S i) ticks j item b64 Hn Hp) as (t & Ht). exists t. now apply incl_tl.
Qed.

Lemma close_all_run (fds : list nat) :
  forall w : world,
  exists w',
    close_all fds w = (Ok tt, w')
    /\ w_trace w' = w_trace w ++ map EvClose fds
    /\ (forall fd, In fd (w_open w') <-> In fd (w_open w) /\ ~ In fd fds).
Proof.
  induction fds as [|fd rest IH]; intros w; cbn [close_all map].
  - exists w. rewrite app_nil_r. repeat split; tauto.
  - unfold bind at 1, close at 1.
    destruct (IH (emit_event (EvClose fd) (drop_handle fd w))) as (w' & -> & Htr & Hopen).
    exists w'. split; [reflexivity|]. split.
    + rewrite Htr. cbn. rewrite <- app_assoc. reflexivity.
    + intros h. rewrite Hopen. cbn. rewrite filter_In, negb_true_iff, Nat.eqb_neq.
      intuition congruence.
Qed.

Ltac not_a_notice :=
  unfold not_a_notice, no_images_line, unexpected_structure_line, no_usage_warning_line;
  repeat split; intros [=].

Lemma print_usage_no_notice (data d : pyval) : quiet (not_a_notice d) (print_usage E data).
Proof.
  unfold print_usage.
  repeat first [ apply quiet_bind; [|intros ?] | apply quiet_if | apply quiet_ret
               | apply quiet_lift | apply quiet_print; not_a_notice ].
Qed.

Lemma process_body_empty_data (r : response) (prefix fmt : string) (w : world) (kvs : list (string * pyval)) :
  status_code r = 200%Z ->
  json r = Ok (PyDict kvs) ->
  dict_get "data" kvs = Some (PyList []) ->
  dict_get "usage" kvs = None \/ dict_get "usage" kvs = Some PyNone ->
  handle_api_response E r prefix fmt w = (Ok tt, emit_event (EvPrint no_images_line) w).
Proof.
  intros Hst Hjson Hdata Husage.
  unfold handle_api_response, process_body, response_json, save_items, report_usage.
  rewrite Hst, Hjson. cbn [Z.eqb Pos.eqb].
  unfold try_except, bind, lift, ret, print, data_is_list, usage_present, data_is_empty,
    bind_result, py_contains, py_getitem.
  rewrite Hdata. cbn.
  destruct Husage as [-> | ->]; reflexivity.
Qed.

Lemma usage_report_replaces_notice (r : response) (prefix fmt : string) (w : world)
    (kvs : list (string * pyval)) (u : pyval) :
  status_code r = 200%Z ->
  json r = Ok (PyDict kvs) ->
  dict_get "data" kvs = Some (PyList []) ->
  dict_get "usage" kvs = Some u ->
  is_none u = false ->
  Forall (not_a_notice (PyDict kvs)) (events_of (handle_api_response E r prefix fmt) w).
Proof.
  intros Hst Hjson Hdata Husage Hu.
  enough (exists evs, w_trace (snd (handle_api_response E r prefix fmt w)) = w_trace w ++ evs
                      /\ Forall (not_a_notice (PyDict kvs)) evs) as (evs & Htr & Hev)
    by (now rewrite (events_of_app _ _ _ Htr)).
  unfold handle_api_response, process_body, response_json, save_items, report_usage,
    try_except, bind, lift, ret, data_is_list, usage_present, bind_result,
    py_contains, py_getitem.
  rewrite Hst, Hjson. cbn -[print_usage]. rewrite Hdata. cbn -[print_usage].
  rewrite Husage, Hu. cbn -[print_usage].
  pose proof (print_usage_no_notice (PyDict kvs) (PyDict kvs) w) as (evs & Htr & Hev & _).
  destruct (print_usage E (PyDict kvs) w) as [[[]|e] w1]; cbn [fst snd] in *.
  - exists evs. split; assumption.
  - destruct (exn_isinstance e JSONDecodeError); unfold print; cbn;
      eexists (evs ++ [_; _]); rewrite Htr, <- !app_assoc;
      (split; [reflexivity|]); apply Forall_app; (split; [exact Hev|]);
      repeat constructor; intros [=].
Qed.

Lemma In_save_calls (b64 : pyval) (prefix : string) (i : nat) (fmt : string)
    (evs : list event) :
  In (b64, prefix, i, fmt) (save_calls evs) <-> In (EvSave b64 prefix i fmt) evs.
Proof.
  induction evs as [|ev evs IH]; cbn; [tauto|].
  destruct ev; cbn; rewrite IH; intuition (discriminate || congruence).
Qed.

Lemma items_events_app (prefix fmt : string) (a b : list pyval) :
  forall i ticks,
    items_events E prefix fmt i (a ++ b) ticks
    = items_events E prefix fmt i a ticks
      ++ items_events E prefix fmt (i + length a) b (loop_ticks a ticks).
Proof.
  induction a as [|x a IH]; intros i ticks; cbn [app items_events loop_ticks length].
  - now rewrite Nat.add_0_r.
  - replace (i + S (length a)) with (S i + length a) by lia.
    destruct (item_payload x) as [[b64|]|e]; rewrite IH; [now rewrite <- app_assoc | | ];
      reflexivity.
Qed.

Lemma readable_prefix_app (a b : list pyval) :
  Forall (fun item => readable item = true) a ->
  readable_prefix (a ++ b) = a ++ readable_prefix b.
Proof. induction 1 as [|x a Hx _ IH]; cbn; [|rewrite Hx, IH]; reflexivity. Qed.

Lemma save_events_failure (b64 : pyval) (prefix : string) (i : nat) (fmt : string)
    (ticks : nat) (e : exn) :
  save_failure E b64 prefix i fmt ticks = Some e ->
  save_events E b64 prefix i fmt ticks
  = [EvSave b64 prefix i fmt; EvPrint [Lit "Error saving image: "; Lit (exn_msg e)]].
Proof.
  unfold save_failure, save_events.
  destruct (Base64.b64decode b64) as [data|e']; [|now intros [= ->]].
  cbn. destruct (open_wb E _) as [e'|]; [now intros [= ->]|].
  destruct (write_err E _ data) as [e'|]; [now intros [= ->] | discriminate].
Qed.

(** The usage report starts with its header. *)
Lemma print_usage_header (data : pyval) (w : world) :
  exists rest,
    w_trace (snd (print_usage E data w))
    = w_trace w ++ EvPrint [Lit (newline +:+ "Usage Information:")] :: rest.
Proof.
  unfold print_usage. unfold bind at 1, print at 1. cbn [stdout_err accepting].
  cbv beta iota.
  match goal with
  | |- context [snd (?m (emit_event ?ev w))] =>
      assert (Hq : quiet is_print m) by repeat quiet_step;
      destruct (Hq (emit_event ev w)) as (evs & Htr & _)
  end.
  exists evs. rewrite Htr. cbn. now rewrite <- app_assoc.
Qed.

Lemma usage_report_comes_first (r : response) (prefix fmt : string) (w : world)
    (kvs : list (string * pyval)) (u : pyval) :
  status_code r = 200%Z ->
  json r = Ok (PyDict kvs) ->
  dict_get "data" kvs = Some (PyList []) ->
  dict_get "usage" kvs = Some u ->
  is_none u = false ->
  exists rest,
    events_of (handle_api_response E r prefix fmt) w
    = EvPrint [Lit (newline +:+ "Usage Information:")] :: rest.
Proof.
  intros Hst Hjson Hdata Husage Hu.
  enough (exists rest, w_trace (snd (handle_api_response E r prefix fmt w))
                       = w_trace w ++ EvPrint [Lit (newline +:+ "Usage Information:")] :: rest)
    as (rest & Htr) by (exists rest; now apply events_of_app).
  unfold handle_api_response, process_body, response_json, save_items, report_usage,
    try_except, bind, lift, ret, data_is_list, usage_present, bind_result,
    py_contains, py_getitem.
  rewrite Hst, Hjson. cbn -[print_usage]. rewrite Hdata. cbn -[print_usage].
  rewrite Husage, Hu. cbn -[print_usage].
  destruct (print_usage_header (PyDict kvs) w) as (rest & Htr).
  destruct (print_usage E (PyDict kvs) w) as [[[]|e] w1]; cbn [fst snd] in *.
  - eauto.
  - destruct (exn_isinstance e JSONDecodeError); unfold print; cbn;
      eexists (rest ++ [_; _]); rewrite Htr, <- !app_assoc; reflexivity.
Qed.

End RunFacts.

(** * Further facts *)

(** ** File names *)

Lemma string_length_app (a b : string) :
  String.length (a +:+ b) = String.length a + String.length b.
Proof.
  induction a as [|x a IH]; [reflexivity|].
  change (S (String.length (a +:+ b)) = S (String.length a + String.length b)).
  now rewrite IH.
Qed.

Lemma string_app_split (a b x y : string) :
  String.length a = String.length b -> a +:+ x = b +:+ y -> a = b /\ x = y.
Proof.
  revert b. induction a as [|c a IH]; intros [|d b] Hlen Heq; try discriminate.
  - auto.
  - change (String c (a +:+ x) = String d (b +:+ y)) in Heq.
    injection Heq as -> Heq. injection Hlen as Hlen.
    destruct (IH b Hlen Heq) as [-> ->]. auto.
Qed.

Lemma string_app_inj_l (a x y : string) : a +:+ x = a +:+ y -> x = y.
Proof. intros H. now apply (string_app_split a a x y). Qed.

Lemma string_app_inj_r (a b c : string) : a +:+ c = b +:+ c -> a = b.
Proof.
  intros H. apply (string_app_split a b c c); [|exact H].
  apply (f_equal String.length) in H. rewrite !string_length_app in H. lia.
Qed.

Lemma string_of_nat_inj (i j : nat) : string_of_nat i = string_of_nat j -> i = j.
Proof.
  unfold string_of_nat. intros H. apply Unsigned.to_uint_inj.
  apply (f_equal NilEmpty.uint_of_string) in H. rewrite !NilEmpty.usu in H. congruence.
Qed.

Lemma strftime_length (d : datetime) : String.length (strftime d) = 15.
Proof. reflexivity. Qed.

(** Two names built from the same prefix and format at two readings of the
    clock are equal only when the indices are. *)
Lemma mk_filename_index_inj (prefix fmt : string) (d1 d2 : datetime) (i j : nat) :
  mk_filename prefix (strftime d1) i fmt = mk_filename prefix (strftime d2) j fmt -> i = j.
Proof.
  unfold mk_filename. intros H.
  apply string_app_inj_l, string_app_inj_l in H.
  apply string_app_split in H as [_ H]; [|now rewrite !strftime_length].
  apply string_app_inj_l in H. apply string_app_inj_r in H.
  apply string_of_nat_inj in H. lia.
Qed.

(** ** Runs that only print *)

Lemma only_printed_refl (w : world) : only_printed w w.
Proof. exists []. rewrite app_nil_r. auto. Qed.

Lemma only_printed_trans (w1 w2 w3 : world) :
  only_printed w1 w2 -> only_printed w2 w3 -> only_printed w1 w3.
Proof.
  intros (e1 & T1 & F1 & A1 & B1 & C1) (e2 & T2 & F2 & A2 & B2 & C2).
  exists (e1 ++ e2). rewrite T2, T1, <- app_assoc. repeat split; try congruence.
  apply Forall_app; auto.
Qed.

Lemma only_printed_emit (l : line) (w : world) : only_printed w (emit_event (EvPrint l) w).
Proof. exists [EvPrint l]. cbn. repeat split; auto. repeat constructor. Qed.

Section Talkative.
Context {A B : Type}.

Lemma talkative_ret (a : A) : talkative (ret a).
Proof. intros w. apply only_printed_refl. Qed.

Lemma talkative_raise (e : exn) : talkative (@raise A e).
Proof. intros w. apply only_printed_refl. Qed.

Lemma talkative_lift (r : result A) : talkative (lift r).
Proof. intros w. apply only_printed_refl. Qed.

Lemma talkative_bind (m : M A) (k : A -> M B) :
  talkative m -> (forall a, talkative (k a)) -> talkative (bind m k).
Proof.
  intros Hm Hk w. unfold bind. specialize (Hm w).
  destruct (m w) as [[a|e] w']; cbn in *; [|exact Hm].
  eapply only_printed_trans; [exact Hm | apply Hk].
Qed.

Lemma talkative_try_except (m : M A) (h : exn -> M A) :
  talkative m -> (forall e, talkative (h e)) -> talkative (try_except m h).
Proof.
  intros Hm Hh w. unfold try_except. specialize (Hm w).
  destruct (m w) as [[a|e] w']; cbn in *; [exact Hm|].
  eapply only_printed_trans; [exact Hm | apply Hh].
Qed.

Lemma talkative_if (b : bool) (m1 m2 : M A) :
  talkative m1 -> talkative m2 -> talkative (if b then m1 else m2).
Proof. destruct b; auto. Qed.

End Talkative.

Lemma talkative_print (H : host) (l : line) : talkative (print H l).
Proof.
  intros w. unfold print.
  destruct (stdout_err H l); [apply only_printed_refl | apply only_printed_emit].
Qed.

Ltac talk_step :=
  first [ apply talkative_bind; [|intros ?]
        | apply talkative_try_except; [|intros ?]
        | apply talkative_if
        | apply talkative_ret | apply talkative_raise | apply talkative_lift
        | apply talkative_print ].

Lemma report_usage_talkative (H : host) (data : pyval) : talkative (report_usage H data).
Proof. unfold report_usage. repeat talk_step. Qed.

Lemma response_json_talkative (r : response) : talkative (response_json r).
Proof. unfold response_json. apply talkative_lift. Qed.

Lemma data_is_list_true (data : pyval) :
  data_is_list data = Ok true ->
  exists kvs items, data = PyDict kvs /\ dict_get "data" kvs = Some (PyList items).
Proof.
  unfold data_is_list, bind_result.
  destruct data as [| b | z | f | s | l | kvs]; cbn; try discriminate.
  - destruct (is_substring _ s); discriminate.
  - destruct (existsb _ l); discriminate.
  - destruct (dict_get "data" kvs) as [[]|] eqn:H; cbn; try discriminate. eauto.
Qed.

(** ** Files on disk *)

Section DiskFacts.
Variable E : env.

(** One turn of the loop, by what lines 41-42 read from the item. *)
Lemma handle_items_cons (prefix fmt : string) (i : nat) (item : pyval)
    (rest : list pyval) (w : world) :
  handle_items E prefix fmt i (item :: rest) w =
  match item_payload item with
  | Ok (Some b64) =>
      handle_items E prefix fmt (S i) rest (snd (save_image_from_b64 E b64 prefix i fmt w))
  | Ok None =>
      handle_items E prefix fmt (S i) rest (emit_event (EvPrint (item_warning_line i item)) w)
  | Raise e => (Raise e, w)
  end.
Proof.
  cbn [handle_items]. unfold bind at 1, handle_item, bind at 1, lift.
  unfold item_payload, bind_result.
  destruct (py_contains "b64_json" item) as [[|]|e]; [| reflexivity | reflexivity].
  unfold bind at 1. destruct (py_getitem item "b64_json") as [b64|e]; [|reflexivity].
  unfold bind at 1.
  destruct (save_image_from_b64_run E b64 prefix i fmt w) as (o & w1 & -> & _).
  reflexivity.
Qed.

(** A call of the persister touches one name only, and what it reports as
    written is there. *)
Lemma save_image_from_b64_files (b64 : pyval) (prefix : string) (i : nat)
    (fmt : string) (w : world) :
  (forall name,
      name <> mk_filename prefix (strftime (now E (w_ticks w))) i fmt ->
      w_files (snd (save_image_from_b64 E b64 prefix i fmt w)) !! name = w_files w !! name)
  /\ files_hold (save_events E b64 prefix i fmt (w_ticks w))
                (snd (save_image_from_b64 E b64 prefix i fmt w)).
Proof.
  unfold files_hold, save_image_from_b64, enter_save, save_events, bind, try_except, lift,
    datetime_now, write_file, print, ret.
  cbn. destruct (Base64.b64decode b64) as [data|e]; cbn.
  - destruct (open_wb E _) as [e|]; cbn.
    + split; [reflexivity|]. intros name d [[=]|[[=]|[]]].
    + destruct (write_err E _ data) as [e|]; cbn.
      * split; [intros name Hne; now apply lookup_insert_ne|].
        intros name d [[=]|[[=]|[]]].
      * split; [intros name Hne; now apply lookup_insert_ne|].
        intros name d [[=]|[[= <- <-]|[[=]|[]]]]. apply lookup_insert_eq.
  - split; [reflexivity|]. intros name d [[=]|[[=]|[]]].
Qed.

Lemma handle_items_files (prefix fmt : string) (items : list pyval) :
  forall (i : nat) (w : world),
    (forall name,
        (forall d j, i <= j -> name <> mk_filename prefix (strftime d) j fmt) ->
        w_files (snd (handle_items E prefix fmt i items w)) !! name = w_files w !! name)
    /\ files_hold (items_events E prefix fmt i (readable_prefix items) (w_ticks w))
                  (snd (handle_items E prefix fmt i items w)).
Proof.
  induction items as [|item rest IH]; intros i w.
  - split; [reflexivity | intros name data []].
  - rewrite handle_items_cons. cbn [readable_prefix]. unfold readable.
    destruct (item_payload item) as [[b64|]|e] eqn:Hp.
    + cbn [items_events]. rewrite Hp.
      destruct (save_image_from_b64_files b64 prefix i fmt w) as [Hframe Hhold].
      destruct (save_image_from_b64_run E b64 prefix i fmt w) as (o & w1 & Hrun & _ & Htk & _).
      rewrite Hrun in *. cbn [snd] in *.
      destruct (IH (S i) w1) as [IHframe IHhold]. rewrite Htk in IHhold. split.
      * intros name Hname. rewrite IHframe by (intros d j Hj; apply Hname; lia).
        apply Hframe. apply Hname. lia.
      * intros name data Hin. apply in_app_or in Hin as [Hin|Hin]; [|now apply IHhold].
        rewrite IHframe; [now apply Hhold|].
        intros d j Hj ->. apply save_events_write in Hin as [_ Hin].
        apply mk_filename_index_inj in Hin. lia.
    + cbn [items_events]. rewrite Hp.
      destruct (IH (S i) (emit_event (EvPrint (item_warning_line i item)) w)) as [IHframe IHhold].
      split.
      * intros name Hname. rewrite IHframe by (intros d j Hj; apply Hname; lia). reflexivity.
      * intros name data [[=]|Hin]. now apply IHhold.
    + split; [reflexivity | intros name data []].
Qed.

Lemma written_save_events (b64 : pyval) (prefix : string) (i : nat) (fmt : string) (t : nat) :
  written (save_events E b64 prefix i fmt t) = []
  \/ exists data,
       written (save_events E b64 prefix i fmt t)
       = [(mk_filename prefix (strftime (now E t)) i fmt, data)].
Proof.
  unfold save_events. cbn. destruct (Base64.b64decode b64) as [data|e]; cbn; [|auto].
  destruct (open_wb E _); cbn; [auto|]. destruct (write_err E _ data); cbn; eauto.
Qed.

Lemma written_app (a b : list event) : written (a ++ b) = written a ++ written b.
Proof. induction a as [|[] a IH]; cbn; rewrite ?IH; reflexivity. Qed.

Lemma prints_no_writes (evs : list event) : Forall is_print evs -> written evs = [].
Proof. induction 1 as [|[] evs H _ IH]; cbn in *; tauto. Qed.

(** The names the loop writes are pairwise different. *)
Lemma items_events_nodup (prefix fmt : string) (items : list pyval) :
  forall i t, List.NoDup (map fst (written (items_events E prefix fmt i items t))).
Proof.
  induction items as [|item rest IH]; intros i t; cbn [items_events]; [constructor|].
  destruct (item_payload item) as [[b64|]|e]; [|apply IH..].
  rewrite written_app, map_app.
  destruct (written_save_events b64 prefix i fmt t) as [->|(data & ->)]; [apply IH|].
  cbn. constructor; [|apply IH].
  intros Hin. apply in_map_iff in Hin as ([name d] & Hname & Hin). cbn in Hname. subst name.
  apply In_written, items_events_write in Hin as (j & it & b & t' & _ & _ & _ & Heq).
  apply mk_filename_index_inj in Heq. lia.
Qed.

End DiskFacts.

Lemma stored_then_printed (w w1 w2 : world) :
  stored w w1 -> only_printed w1 w2 -> stored w w2.
Proof.
  intros (evs1 & T1 & H1 & N1) (evs2 & T2 & F2 & Hfiles & _).
  exists (evs1 ++ evs2). rewrite T2, T1, <- app_assoc. split; [reflexivity|]. split.
  - intros name data Hin. rewrite Hfiles. apply in_app_or in Hin as [Hin|Hin]; [now apply H1|].
    rewrite List.Forall_forall in F2. apply F2 in Hin. destruct Hin.
  - now rewrite written_app, (prints_no_writes evs2 F2), app_nil_r.
Qed.

Lemma printed_is_stored (w w' : world) : only_printed w w' -> stored w w'.
Proof.
  intros H. apply (stored_then_printed w w w'); [|exact H].
  exists []. rewrite app_nil_r. repeat split; [intros name data [] | constructor].
Qed.

Section DiskRuns.
Variable E : env.

Lemma save_items_stored (data : pyval) (prefix fmt : string) (w : world) :
  stored w (snd (save_items E data prefix fmt w)).
Proof.
  unfold save_items, bind at 1, lift.
  destruct (data_is_list data) as [[|]|e] eqn:Hlist.
  - apply data_is_list_true in Hlist as (kvs & items & -> & Hdata).
    unfold bind at 1. cbn [py_getitem]. rewrite Hdata. cbn [list_items].
    destruct (handle_items_run E prefix fmt items 0 w) as (res & w1 & Hrun & Htr & _).
    destruct (handle_items_files E prefix fmt items 0 w) as [_ Hhold].
    rewrite Hrun in *. cbn [snd] in *.
    exists (items_events E prefix fmt 0 (readable_prefix items) (w_ticks w)).
    auto using items_events_nodup.
  - apply printed_is_stored, only_printed_emit.
  - apply printed_is_stored, only_printed_refl.
Qed.

Lemma stored_bind_talkative {A B : Type} (m : M A) (k : A -> M B) (w : world) :
  stored w (snd (m w)) -> (forall a, talkative (k a)) -> stored w (snd (bind m k w)).
Proof.
  intros Hm Hk. unfold bind. destruct (m w) as [[a|e] w1]; cbn [snd] in *; [|exact Hm].
  apply (stored_then_printed w w1); [exact Hm | apply Hk].
Qed.

Lemma stored_try_except {A : Type} (m : M A) (h : exn -> M A) (w : world) :
  stored w (snd (m w)) -> (forall e, talkative (h e)) -> stored w (snd (try_except m h w)).
Proof.
  intros Hm Hh. unfold try_except. destruct (m w) as [[a|e] w1]; cbn [snd] in *; [exact Hm|].
  apply (stored_then_printed w w1); [exact Hm | apply Hh].
Qed.

Lemma handle_api_response_stored (r : response) (prefix fmt : string) (w : world) :
  stored w (snd (handle_api_response E r prefix fmt w)).
Proof.
  unfold handle_api_response. destruct (status_code r =? 200)%Z.
  - apply stored_try_except.
    + unfold process_body, response_json, bind at 1, lift.
      destruct (json r) as [data|e]; [|apply printed_is_stored, only_printed_refl].
      apply stored_bind_talkative; [apply save_items_stored|].
      intros _. apply report_usage_talkative.
    + intros e. repeat first [apply response_json_talkative | talk_step].
  - apply printed_is_stored. revert w.
    match goal with |- forall w, only_printed w (snd (?m w)) => change (talkative m) end.
    repeat first [apply response_json_talkative | talk_step].
Qed.

End DiskRuns.

(** ** The usage report *)

Section UsageRuns.
Variable E : env.

(** The chain on ["usage"] for a usage object: the header and the counts,
    then the breakdown when its field is an object, nothing when the field
    is missing, and the exception of [.get] when it is anything else. *)
Lemma report_usage_object (kvs u : list (string * pyval)) (w : world) :
  dict_get "usage" kvs = Some (PyDict u) ->
  let w1 := fold_left (fun w l => emit_event (EvPrint l) w) (count_lines u) w in
  report_usage E (PyDict kvs) w =
  match dict_get "input_tokens_details" u with
  | None => (Ok tt, w1)
  | Some details =>
      match py_get details "text_tokens" with
      | Ok _ =>
          (Ok tt,
           fold_left (fun w l => emit_event (EvPrint l) w)
             (match details with PyDict d => detail_lines d | _ => [] end) w1)
      | Raise e => (Raise e, w1)
      end
  end.
Proof.
  intros Husage. unfold report_usage, print_usage, usage_present, usage_get, usage_details_get,
    bind, lift, ret, bind_result, py_contains, py_getitem, py_get, print, get_or_none.
  rewrite Husage. cbn.
  destruct (dict_get "input_tokens_details" u) as [details|]; [|reflexivity].
  destruct details; reflexivity.
Qed.

Lemma trace_of_lines (lines : list line) :
  forall w, w_trace (fold_left (fun w l => emit_event (EvPrint l) w) lines w)
            = w_trace w ++ map EvPrint lines.
Proof.
  induction lines as [|l lines IH]; intros w; cbn; [now rewrite app_nil_r|].
  rewrite IH. cbn. now rewrite <- app_assoc.
Qed.

(** An empty ["data"] list and a usage object: the report is all there is. *)
Lemma empty_data_usage_object (r : response) (prefix fmt : string) (w : world)
    (kvs u : list (string * pyval)) :
  status_code r = 200%Z ->
  json r = Ok (PyDict kvs) ->
  dict_get "data" kvs = Some (PyList []) ->
  dict_get "usage" kvs = Some (PyDict u) ->
  events_of (handle_api_response E r prefix fmt) w
  = map EvPrint
      (count_lines u
       ++ match dict_get "input_tokens_details" u with
          | None => []
          | Some details =>
              match py_get details "text_tokens" with
              | Ok _ => match details with PyDict d => detail_lines d | _ => [] end
              | Raise e => processing_error_lines e (PyDict kvs)
              end
          end).
Proof.
  intros Hst Hjson Hdata Husage. apply events_of_app.
  unfold handle_api_response, process_body, response_json, save_items.
  rewrite Hst, Hjson. cbn [Z.eqb Pos.eqb].
  unfold try_except, bind at 1, lift at 1.
  unfold bind at 1, bind at 1, lift at 1, data_is_list, bind_result, py_contains, py_getitem.
  rewrite Hdata. cbn [isinstance_list]. unfold bind at 1, lift at 1.
  cbn [list_items handle_items ret].
  rewrite (report_usage_object kvs u w Husage).
  destruct (dict_get "input_tokens_details" u) as [details|].
  - destruct (py_get details "text_tokens") as [t|e] eqn:Hget.
    + cbn [fst snd]. rewrite !trace_of_lines, map_app, <- !app_assoc. reflexivity.
    + assert (Hnot : exn_isinstance e JSONDecodeError = false)
        by (destruct details; cbn in Hget; try discriminate; injection Hget as <-;
            reflexivity).
      rewrite Hnot. unfold bind, print, lift. cbn -[fold_left count_lines].
      rewrite trace_of_lines, map_app, <- !app_assoc. cbn. reflexivity.
  - cbn [fst snd]. rewrite trace_of_lines, app_nil_r. reflexivity.
Qed.

End UsageRuns.

(** ** The run of a creation *)

(** A key of the map is one of [keys]. *)
Ltac key_among :=
  match goal with
  | H : (<[?k' := _]> _) !! ?k = Some _ |- _ =>
      destruct (decide (k' = k)) as [<-|?];
      [ cbn; tauto | rewrite lookup_insert_ne in H by assumption; key_among ]
  | H : ∅ !! _ = Some _ |- _ => rewrite lookup_empty in H; discriminate H
  end.

Lemma emit_events_world (evs : list event) :
  forall w, w_trace (emit_events evs w) = w_trace w ++ evs
            /\ w_files (emit_events evs w) = w_files w
            /\ w_open (emit_events evs w) = w_open w
            /\ w_next_fd (emit_events evs w) = w_next_fd w.
Proof.
  unfold emit_events. induction evs as [|ev evs IH]; intros w; cbn [fold_left].
  - rewrite app_nil_r. auto.
  - destruct (IH (emit_event ev w)) as (-> & -> & -> & ->). cbn.
    now rewrite <- app_assoc.
Qed.

Lemma caller_report_prints (outcome : result unit) : Forall is_print (caller_report outcome).
Proof.
  destruct outcome as [[]|e]; cbn; [constructor|].
  destruct (exn_isinstance e RequestException); repeat constructor.
Qed.

Section CreateRuns.
Variable E : env.

Lemma events_of_from (A : Type) (m : M A) (w w0 : world) (pre : list event) :
  w_trace w0 = w_trace w ++ pre ->
  (exists evs, w_trace (snd (m w0)) = w_trace w0 ++ evs) ->
  skipn (length (w_trace w)) (w_trace (snd (m w0))) = pre ++ events_of m w0.
Proof.
  intros Hpre (evs & Htr). rewrite (events_of_app _ _ _ Htr), Htr, Hpre, <- app_assoc.
  now rewrite skipn_app, skipn_all, Nat.sub_diag.
Qed.

(** The [try] around a request: its trace, its events and its files. *)
Lemma after_request_world (req : request) (prefix fmt : string) (w : world) :
  w_trace (after_request E req prefix fmt w)
  = w_trace w ++ answer_events E req prefix fmt w
  /\ Forall (handler_event prefix fmt) (answer_events E req prefix fmt w)
  /\ stored w (after_request E req prefix fmt w)
  /\ w_open (after_request E req prefix fmt w) = w_open w
  /\ (forall e, post E req = Raise e ->
                w_files (after_request E req prefix fmt w) = w_files w).
Proof.
  unfold after_request, answer_events.
  set (report := caller_report (request_outcome E req)).
  pose proof (caller_report_prints (request_outcome E req)) as Hreport. fold report in Hreport.
  assert (Hprinted : forall w0, only_printed w0 (emit_events report w0)).
  { intros w0. destruct (emit_events_world report w0) as (Htr & Hfiles & Hopen & _).
    exists report. repeat split; auto.
    clear -Hreport. revert w0. unfold emit_events.
    induction report as [|ev evs IH]; intros w0; [reflexivity|].
    inversion Hreport as [|? ? Hev Hevs]; subst. cbn [fold_left]. rewrite (IH Hevs).
    reflexivity. }
  destruct (post E req) as [resp|e].
  - destruct (handle_api_response_quiet E resp prefix fmt w) as (evs & Htr & Hev & Hopen & _).
    rewrite (events_of_app _ _ _ Htr).
    destruct (emit_events_world report (snd (handle_api_response E resp prefix fmt w)))
      as (Htr' & _ & Hopen' & _).
    repeat split.
    + rewrite Htr', Htr, <- app_assoc. reflexivity.
    + apply Forall_app. split; [exact Hev|].
      eapply List.Forall_impl; [|exact Hreport]. intros ev. apply handler_event_of_print.
    + eapply stored_then_printed; [apply handle_api_response_stored | apply Hprinted].
    + now rewrite Hopen'.
    + discriminate.
  - destruct (emit_events_world report w) as (Htr' & Hfiles & Hopen' & _).
    repeat split; auto.
    + eapply List.Forall_impl; [|exact Hreport]. intros ev. apply handler_event_of_print.
    + apply printed_is_stored, Hprinted.
Qed.

Lemma create_image_unfold (args : create_args) (w : world) :
  create_image E args w =
  (caller_result (request_outcome E (create_request E args)),
   after_request E (create_request E args) (output_prefix args) (output_format args)
     (after_create_post E args w)).
Proof.
  unfold create_image, after_request, after_create_post, request_outcome, create_request,
    create_announcement.
  cbn [host_env accepting]. set (req := {| req_url := _ |}).
  unfold bind at 1, print at 1, try_except, bind, requests_post.
  cbn [stdout_err host_env accepting].
  destruct (post E req) as [resp|e].
  - set (w1 := emit_event (EvPost req) _).
    pose proof (handle_api_response_returns E resp (output_prefix args) (output_format args) w1)
      as Hret.
    destruct (handle_api_response E resp (output_prefix args) (output_format args) w1)
      as [res w2].
    cbn [fst snd] in *. subst res.
    destruct (handler_result resp) as [[]|e]; [reflexivity|].
    cbn [caller_result caller_report]. unfold request_failed_line.
    destruct (exn_isinstance e RequestException); reflexivity.
  - cbn [caller_result caller_report]. unfold request_failed_line.
    destruct (exn_isinstance e RequestException); reflexivity.
Qed.

(** What a creation adds to the trace. *)
Lemma create_image_events (args : create_args) (w : world) :
  events_of (create_image E args) w
  = EvPrint (create_announcement args) :: EvPost (create_request E args)
    :: answer_events E (create_request E args) (output_prefix args) (output_format args)
         (after_create_post E args w).
Proof.
  apply events_of_app. rewrite create_image_unfold. cbn [snd].
  destruct (after_request_world (create_request E args) (output_prefix args)
              (output_format args) (after_create_post E args w)) as (-> & _).
  unfold after_create_post at 1. cbn [w_trace emit_event]. now rewrite <- !app_assoc.
Qed.

Lemma create_image_posts (args : create_args) (w : world) :
  posted (events_of (create_image E args) w) = [create_request E args].
Proof.
  rewrite create_image_events. cbn [posted].
  destruct (after_request_world (create_request E args) (output_prefix args)
              (output_format args) (after_create_post E args w)) as (_ & Hev & _).
  now destruct (handler_posts_nothing _ _ _ Hev) as [-> _].
Qed.

End CreateRuns.

(** ** Opening the uploads *)

Lemma open_events_app (a b : list string) (fd : nat) :
  open_events fd (a ++ b) = open_events fd a ++ open_events (fd + length a) b.
Proof.
  revert fd. induction a as [|x a IH]; intros fd; cbn; [now rewrite Nat.add_0_r|].
  rewrite IH. do 3 f_equal. lia.
Qed.

Lemma opened_open_events (paths : list string) :
  forall fd, opened (open_events fd paths) = seq fd (length paths).
Proof. induction paths as [|p rest IH]; intros fd; cbn; [|rewrite IH]; reflexivity. Qed.

Lemma image_parts_handles (paths : list string) :
  forall fd, map part_handle (image_parts fd paths) = seq fd (length paths).
Proof. induction paths as [|p rest IH]; intros fd; cbn; [|rewrite IH]; reflexivity. Qed.

Lemma image_parts_labels (paths : list string) :
  forall fd, map part_label (image_parts fd paths)
             = map (fun path => ("image[]", basename path)) paths.
Proof. induction paths as [|p rest IH]; intros fd; cbn; [|rewrite IH]; reflexivity. Qed.

Lemma open_all_app (a b : list string) (w : world) :
  open_all (a ++ b) w = open_all b (open_all a w).
Proof. unfold open_all. apply fold_left_app. Qed.

Lemma open_all_world (paths : list string) :
  forall w, w_trace (open_all paths w) = w_trace w ++ open_events (w_next_fd w) paths
            /\ w_next_fd (open_all paths w) = w_next_fd w + length paths
            /\ w_files (open_all paths w) = w_files w.
Proof.
  unfold open_all. induction paths as [|p rest IH]; intros w; cbn [fold_left open_events length].
  - rewrite app_nil_r, Nat.add_0_r. auto.
  - destruct (IH (emit_event (EvOpen (w_next_fd w) p) (add_handle w))) as (-> & -> & ->).
    cbn. rewrite <- app_assoc. repeat split; try reflexivity; lia.
Qed.

Section UsableFacts.
Variable E : env.

Lemma usable_open_error (not_found path : string) :
  usable E path = match open_error E not_found path with None => true | Some _ => false end.
Proof.
  unfold usable, open_error. destruct (path_exists E path); cbn; [|reflexivity].
  now destruct (open_rb E path).
Qed.

Lemma usable_prefix_all (paths : list string) :
  forallb (usable E) paths = true -> usable_prefix E paths = paths.
Proof.
  induction paths as [|p rest IH]; cbn; [reflexivity|].
  intros [-> Hrest]%andb_true_iff. now rewrite IH.
Qed.

Lemma usable_prefix_app (a b : list string) :
  usable_prefix E (a ++ b)
  = if forallb (usable E) a then a ++ usable_prefix E b else usable_prefix E a.
Proof.
  induction a as [|p a IH]; cbn; [reflexivity|].
  destruct (usable E p); cbn; [|reflexivity]. rewrite IH. now destruct (forallb (usable E) a).
Qed.

Lemma images_error_none (paths : list string) :
  images_error E paths = None <-> forallb (usable E) paths = true.
Proof.
  induction paths as [|p rest IH]; cbn; [tauto|].
  rewrite (usable_open_error "Image file not found: " p).
  destruct (open_error E "Image file not found: " p); cbn; [|exact IH].
  split; discriminate.
Qed.

Lemma referenced_paths_usable (args : edit_args) :
  forallb (usable E) (referenced_paths args)
  = forallb (usable E) (image_paths args)
    && match mask_path args with
       | Some mask => if str_truthy mask then usable E mask else true
       | None => true
       end.
Proof.
  unfold referenced_paths. rewrite forallb_app.
  destruct (mask_path args) as [mask|]; [destruct (str_truthy mask)|]; cbn;
    now rewrite ?andb_true_r.
Qed.

Lemma upload_error_none (args : edit_args) :
  upload_error E args = None <-> forallb (usable E) (referenced_paths args) = true.
Proof.
  rewrite referenced_paths_usable, andb_true_iff, <- images_error_none. unfold upload_error.
  destruct (images_error E (image_paths args)) as [e|].
  - split; [discriminate | intros [[=] _]].
  - destruct (mask_path args) as [mask|]; [destruct (str_truthy mask)|]; try tauto.
    rewrite (usable_open_error "Mask file not found: " mask).
    destruct (open_error E "Mask file not found: " mask); intuition discriminate.
Qed.

End UsableFacts.

Section Uploads.
Variable H : host.

Lemma open_for_upload_exact (field not_found path : string) (st : upload) (w : world) :
  open_for_upload H field not_found path st w
  = match open_error (host_env H) not_found path with
    | Some e => ((Some e, st), w)
    | None =>
        ((None,
          {| files_to_send := files_to_send st ++ [(field, (basename path, w_next_fd w))];
             opened_files := opened_files st ++ [w_next_fd w] |}),
         emit_event (EvOpen (w_next_fd w) path) (add_handle w))
    end.
Proof.
  unfold open_for_upload, open_error.
  destruct (path_exists (host_env H) path); cbn; [|reflexivity]. now destruct (open_rb (host_env H) path).
Qed.

Lemma open_images_exact (paths : list string) :
  forall (st : upload) (w : world),
    open_images H paths st w
    = ((images_error (host_env H) paths,
        {| files_to_send :=
             files_to_send st ++ image_parts (w_next_fd w) (usable_prefix (host_env H) paths);
           opened_files :=
             opened_files st ++ seq (w_next_fd w) (length (usable_prefix (host_env H) paths)) |}),
       open_all (usable_prefix (host_env H) paths) w).
Proof.
  induction paths as [|path rest IH]; intros st w; cbn [open_images images_error usable_prefix].
  - cbn. rewrite !app_nil_r. now destruct st.
  - rewrite open_for_upload_exact, (usable_open_error (host_env H) "Image file not found: " path).
    destruct (open_error (host_env H) "Image file not found: " path) as [e|].
    + cbn. rewrite !app_nil_r. now destruct st.
    + rewrite IH. cbn. rewrite <- !app_assoc. reflexivity.
Qed.

(** Lines 129-141, exactly: the files before the first one that cannot be
    opened are opened in order, with consecutive handles. *)
Lemma open_uploads_exact (args : edit_args) (w : world) :
  let good := usable_prefix (host_env H) (referenced_paths args) in
  exists parts,
    open_uploads H args w
    = ((upload_error (host_env H) args,
        {| files_to_send := parts; opened_files := seq (w_next_fd w) (length good) |}),
       open_all good w)
    /\ (upload_error (host_env H) args = None -> parts = edit_parts args (w_next_fd w)).
Proof.
  intros good. subst good. unfold open_uploads, upload_error, edit_parts, referenced_paths.
  rewrite open_images_exact, usable_prefix_app. cbn [files_to_send opened_files app].
  destruct (open_all_world (usable_prefix (host_env H) (image_paths args)) w) as (_ & Hfd & _).
  destruct (images_error (host_env H) (image_paths args)) as [e|] eqn:Himg.
  - assert (Hbad : forallb (usable (host_env H)) (image_paths args) = false).
    { destruct (forallb (usable (host_env H)) (image_paths args)) eqn:Hall; [|reflexivity].
      apply images_error_none in Hall. congruence. }
    rewrite Hbad. eexists. split; [reflexivity | discriminate].
  - pose proof (proj1 (images_error_none (host_env H) _) Himg) as Hall. rewrite Hall.
    rewrite (usable_prefix_all (host_env H) _ Hall) in *.
    destruct (mask_path args) as [mask|]; [destruct (str_truthy mask)|].
    + rewrite open_for_upload_exact. cbn [usable_prefix].
      rewrite (usable_open_error (host_env H) "Mask file not found: " mask).
      destruct (open_error (host_env H) "Mask file not found: " mask) as [e|].
      * rewrite app_nil_r. eexists. split; [reflexivity | discriminate].
      * cbn [files_to_send opened_files]. eexists. split.
        -- rewrite open_all_app, length_app, seq_app. cbn [length seq open_all fold_left].
           rewrite <- Hfd. reflexivity.
        -- intros _. rewrite Hfd. reflexivity.
    + cbn [usable_prefix]. rewrite !app_nil_r. eexists. split; [reflexivity | reflexivity].
    + cbn [usable_prefix]. rewrite !app_nil_r. eexists. split; [reflexivity | reflexivity].
Qed.

End Uploads.

(** ** The announcement and the closing *)

Section EditSteps.
Variable E : env.

Lemma edit_announce_prints (args : edit_args) (w : world) :
  exists lines,
    edit_announce E args w
    = (Ok tt, fold_left (fun w l => emit_event (EvPrint l) w) lines w).
Proof.
  unfold edit_announce, bind, print, ret.
  destruct (16 <? length (image_paths args))%nat;
    destruct (opt_str_truthy (mask_path args) && (1 <? length (image_paths args))%nat);
    cbn; [eexists [_; _; _] | eexists [_; _] | eexists [_; _] | eexists [_]]; reflexivity.
Qed.

Lemma lines_keep_world (lines : list line) :
  forall w, let w' := fold_left (fun w l => emit_event (EvPrint l) w) lines w in
            w_next_fd w' = w_next_fd w /\ w_files w' = w_files w /\ w_open w' = w_open w.
Proof.
  induction lines as [|l lines IH]; intros w; cbn; [auto|].
  destruct (IH (emit_event (EvPrint l) w)) as (-> & -> & ->). auto.
Qed.

Lemma edit_announce_world (args : edit_args) (w : world) :
  fst (edit_announce E args w) = Ok tt
  /\ w_trace (snd (edit_announce E args w)) = w_trace w ++ events_of (edit_announce E args) w
  /\ Forall is_print (events_of (edit_announce E args) w)
  /\ w_next_fd (snd (edit_announce E args w)) = w_next_fd w
  /\ w_files (snd (edit_announce E args w)) = w_files w.
Proof.
  destruct (edit_announce_prints args w) as (lines & Hrun).
  assert (Htr : w_trace (snd (edit_announce E args w)) = w_trace w ++ map EvPrint lines)
    by (rewrite Hrun; apply trace_of_lines).
  rewrite (events_of_app _ _ _ Htr). rewrite Hrun. cbn [fst snd].
  destruct (lines_keep_world lines w) as (Hfd & Hfiles & _).
  repeat split; auto using trace_of_lines.
  clear. induction lines; constructor; [exact I | assumption].
Qed.

Lemma close_all_returns (fds : list nat) (w : world) :
  fst (close_all fds w) = Ok tt
  /\ w_trace (snd (close_all fds w)) = w_trace w ++ map EvClose fds
  /\ w_files (snd (close_all fds w)) = w_files w.
Proof.
  revert w. induction fds as [|fd rest IH]; intros w; cbn [close_all map].
  - cbn. now rewrite app_nil_r.
  - change ((close fd ;; close_all rest) w)
      with (close_all rest (emit_event (EvClose fd) (drop_handle fd w))).
    destruct (IH (emit_event (EvClose fd) (drop_handle fd w))) as (Hres & Htr & Hfiles).
    repeat split; [exact Hres | | exact Hfiles].
    rewrite Htr. cbn. now rewrite <- app_assoc.
Qed.

Lemma close_all_ok (fds : list nat) (w : world) :
  close_all fds w = (Ok tt, snd (close_all fds w)).
Proof.
  destruct (close_all_returns fds w) as (Hres & _).
  destruct (close_all fds w) as [res w']. cbn in *. now subst.
Qed.

(** ** The two ways an edit runs *)

(** Lines 119-174 when every file opens. *)
Lemma edit_send_usable (args : edit_args) (w : world) :
  upload_error E args = None ->
  let fds := seq (w_next_fd w) (length (referenced_paths args)) in
  let req := edit_request E args (edit_parts args (w_next_fd w)) in
  let w2 := emit_event (EvPost req) (open_all (referenced_paths args) w) in
  edit_send E args w =
  (caller_result (request_outcome E req),
   snd (close_all fds (after_request E req (edit_output_prefix args) "png" w2))).
Proof.
  intros Hnone fds req w2. unfold edit_send.
  destruct (open_uploads_exact E args w) as (parts & Hrun & Hparts).
  cbn [host_env accepting] in Hrun, Hparts. rewrite Hrun, Hnone, (Hparts Hnone).
  rewrite (usable_prefix_all E _ (proj1 (upload_error_none E args) Hnone)).
  cbn [files_to_send opened_files host_env accepting]. fold fds. change
    {| req_url := BASE_URL +:+ "/edits";
       req_headers := [("Authorization", "Bearer " +:+ API_KEY E)];
       req_body := MultipartBody (edit_parts args (w_next_fd w)) (edit_payload args);
       req_timeout := 120 |} with req.
  unfold try_finally, try_except, bind, requests_post, after_request, request_outcome.
  cbn [host_env accepting]. fold w2.
  destruct (post E req) as [resp|e].
  - pose proof (handle_api_response_returns E resp (edit_output_prefix args) "png" w2) as Hret.
    destruct (handle_api_response E resp (edit_output_prefix args) "png" w2) as [res w3].
    cbn [fst snd] in *. subst res.
    destruct (handler_result resp) as [[]|e]; [now rewrite close_all_ok|].
    cbn [caller_result caller_report]. unfold request_failed_line, print, raise.
    cbn [stdout_err accepting].
    destruct (exn_isinstance e RequestException); now rewrite close_all_ok.
  - cbn [caller_result caller_report]. unfold request_failed_line, print, raise.
    cbn [stdout_err accepting].
    destruct (exn_isinstance e RequestException); now rewrite close_all_ok.
Qed.

(** Lines 119-174 when a file cannot be opened. *)
Lemma edit_send_unusable (args : edit_args) (w : world) (e : exn) :
  upload_error E args = Some e ->
  let good := usable_prefix E (referenced_paths args) in
  edit_send E args w
  = (Ok tt,
     snd (close_all (seq (w_next_fd w) (length good))
            (emit_event (EvPrint (open_error_line e)) (open_all good w)))).
Proof.
  intros Hsome good. unfold edit_send.
  destruct (open_uploads_exact E args w) as (parts & Hrun & _).
  cbn [host_env accepting] in Hrun. rewrite Hrun, Hsome.
  cbn [opened_files]. fold good. unfold open_error_line.
  destruct (exn_isinstance e FileNotFoundError); unfold bind, print;
    cbn [stdout_err accepting]; now rewrite close_all_ok.
Qed.

Lemma edit_image_unfold (args : edit_args) (w : world) :
  edit_image E args w = edit_send E args (snd (edit_announce E args w)).
Proof.
  unfold edit_image, bind. destruct (edit_announce_world args w) as (Hres & _).
  destruct (edit_announce E args w) as [res w0]. cbn in *. now subst.
Qed.

End EditSteps.

(** ** Reading the trace of an edit *)

Lemma closed_app (a b : list event) : closed (a ++ b) = closed a ++ closed b.
Proof. induction a as [|[] a IH]; cbn; [|rewrite ?IH ..]; reflexivity. Qed.

Lemma closed_closes (fds : list nat) : closed (map EvClose fds) = fds.
Proof. induction fds as [|fd rest IH]; cbn; [|rewrite IH]; reflexivity. Qed.

Lemma closes_no_writes (fds : list nat) : written (map EvClose fds) = [].
Proof. induction fds as [|fd rest IH]; cbn; [|rewrite IH]; reflexivity. Qed.

Lemma prints_no_closes (evs : list event) : Forall is_print evs -> closed evs = [].
Proof.
  induction 1 as [|ev evs Hev _ IH]; [reflexivity|].
  destruct ev; try destruct Hev. exact IH.
Qed.

Lemma handler_closes_nothing (prefix fmt : string) (evs : list event) :
  Forall (handler_event prefix fmt) evs -> closed evs = [].
Proof.
  induction 1 as [|ev evs Hev _ IH]; [reflexivity|].
  destruct ev; try destruct Hev; exact IH.
Qed.

Lemma open_events_only_open (paths : list string) :
  forall fd, posted (open_events fd paths) = []
             /\ closed (open_events fd paths) = []
             /\ written (open_events fd paths) = [].
Proof. induction paths as [|p rest IH]; intros fd; cbn; [auto | apply IH]. Qed.

Lemma no_slash_app (a b : string) : no_slash (a +:+ b) = no_slash a && no_slash b.
Proof.
  induction a as [|x a IH]; [reflexivity|].
  change (String x a +:+ b) with (String x (a +:+ b)).
  unfold no_slash in *. cbn [list_ascii_of_string forallb]. now rewrite IH, andb_assoc.
Qed.

Lemma basename_from_no_slash (p : string) :
  forall cur, no_slash cur = true -> no_slash (basename_from cur p) = true.
Proof.
  induction p as [|c p IH]; intros cur Hcur; cbn [basename_from]; [exact Hcur|].
  destruct (Ascii.eqb c "/"%char) eqn:Hc; [now apply IH|].
  apply IH. rewrite no_slash_app, Hcur. unfold no_slash. cbn. now rewrite Hc.
Qed.

Lemma basename_no_slash (p : string) : no_slash (basename p) = true.
Proof. now apply basename_from_no_slash. Qed.

Lemma edit_parts_names (args : edit_args) (fd : nat) :
  Forall (fun part => no_slash (part_name part) = true) (edit_parts args fd).
Proof.
  unfold edit_parts. apply Forall_app. split.
  - generalize (image_paths args). intros paths. revert fd.
    induction paths as [|p rest IH]; intros fd; cbn; constructor;
      [apply basename_no_slash | apply IH].
  - destruct (mask_path args) as [mask|]; [destruct (str_truthy mask)|];
      repeat constructor. apply basename_no_slash.
Qed.

Lemma edit_parts_handles (args : edit_args) (fd : nat) :
  map part_handle (edit_parts args fd) = seq fd (length (referenced_paths args)).
Proof.
  unfold edit_parts, referenced_paths. rewrite map_app, length_app, seq_app, image_parts_handles.
  destruct (mask_path args) as [mask|]; [destruct (str_truthy mask)|]; reflexivity.
Qed.

Lemma edit_parts_labels (args : edit_args) (fd : nat) :
  map part_label (edit_parts args fd)
  = map (fun path => ("image[]", basename path)) (image_paths args)
    ++ match mask_path args with
       | Some mask => if str_truthy mask then [("mask", basename mask)] else []
       | None => []
       end.
Proof.
  unfold edit_parts. rewrite map_app, image_parts_labels.
  destruct (mask_path args) as [mask|]; [destruct (str_truthy mask)|]; reflexivity.
Qed.


Section EditRuns.
Variable E : env.

Lemma after_edit_post_world (args : edit_args) (w : world) :
  w_trace (after_edit_post E args w)
  = w_trace w ++ events_of (edit_announce E args) w
    ++ open_events (w_next_fd w) (referenced_paths args)
    ++ [EvPost (edit_request E args (edit_parts args (w_next_fd w)))]
  /\ w_files (after_edit_post E args w) = w_files w.
Proof.
  unfold after_edit_post. cbn [w_trace w_files emit_event].
  destruct (edit_announce_world E args w) as (_ & Htr & _ & Hfd & Hfiles).
  destruct (open_all_world (referenced_paths args) (snd (edit_announce E args w)))
    as (-> & _ & ->).
  rewrite Htr, Hfd, Hfiles, <- !app_assoc. auto.
Qed.

(** An edit whose files all open. *)
Lemma edit_image_usable (args : edit_args) (w : world) :
  upload_error E args = None ->
  let fds := seq (w_next_fd w) (length (referenced_paths args)) in
  let req := edit_request E args (edit_parts args (w_next_fd w)) in
  edit_image E args w =
  (caller_result (request_outcome E req),
   snd (close_all fds
          (after_request E req (edit_output_prefix args) "png" (after_edit_post E args w)))).
Proof.
  intros Hnone fds req. rewrite edit_image_unfold, (edit_send_usable E args _ Hnone).
  destruct (edit_announce_world E args w) as (_ & _ & _ & Hfd & _).
  rewrite Hfd. reflexivity.
Qed.

(** An edit one of whose files does not open. *)
Lemma edit_image_unusable (args : edit_args) (w : world) (e : exn) :
  upload_error E args = Some e ->
  let good := usable_prefix E (referenced_paths args) in
  edit_image E args w
  = (Ok tt,
     snd (close_all (seq (w_next_fd w) (length good))
            (emit_event (EvPrint (open_error_line e))
               (open_all good (snd (edit_announce E args w)))))).
Proof.
  intros Hsome good. rewrite edit_image_unfold, (edit_send_unusable E args _ e Hsome).
  destruct (edit_announce_world E args w) as (_ & _ & _ & Hfd & _).
  rewrite Hfd. reflexivity.
Qed.

(** The trace and the files of an edit whose files all open. *)
Lemma edit_image_usable_run (args : edit_args) (w : world) :
  upload_error E args = None ->
  let fd := w_next_fd w in
  let req := edit_request E args (edit_parts args fd) in
  let answer :=
    answer_events E req (edit_output_prefix args) "png" (after_edit_post E args w) in
  w_trace (snd (edit_image E args w))
  = w_trace w ++ events_of (edit_announce E args) w
    ++ open_events fd (referenced_paths args)
    ++ EvPost req :: answer
    ++ map EvClose (seq fd (length (referenced_paths args)))
  /\ Forall (handler_event (edit_output_prefix args) "png") answer
  /\ files_hold answer (snd (edit_image E args w))
  /\ List.NoDup (map fst (written answer)).
Proof.
  intros Hnone fd req answer. subst answer.
  rewrite (edit_image_usable args w Hnone). fold fd req. cbn [snd].
  destruct (after_edit_post_world args w) as (Hpre & Hfiles). fold fd req in Hpre.
  destruct (after_request_world E req (edit_output_prefix args) "png"
              (after_edit_post E args w)) as (Htr & Hev & Hstored & _).
  destruct Hstored as (evs & Htr' & Hhold & Hnodup).
  assert (evs = answer_events E req (edit_output_prefix args) "png"
                  (after_edit_post E args w)) as ->
    by (rewrite Htr in Htr'; apply app_inv_head in Htr'; now symmetry).
  destruct (close_all_returns (seq fd (length (referenced_paths args)))
              (after_request E req (edit_output_prefix args) "png"
                 (after_edit_post E args w))) as (_ & Hclose & Hkeep).
  rewrite Hclose, Htr, Hpre. repeat split; auto.
  - rewrite <- !app_assoc. reflexivity.
  - intros name data Hin. rewrite Hkeep. now apply Hhold.
Qed.

(** The trace and the files of an edit one of whose files does not open. *)
Lemma edit_image_unusable_run (args : edit_args) (w : world) (e : exn) :
  upload_error E args = Some e ->
  let good := usable_prefix E (referenced_paths args) in
  w_trace (snd (edit_image E args w))
  = w_trace w ++ events_of (edit_announce E args) w
    ++ open_events (w_next_fd w) good
    ++ EvPrint (open_error_line e) :: map EvClose (seq (w_next_fd w) (length good))
  /\ w_files (snd (edit_image E args w)) = w_files w.
Proof.
  intros Hsome good. rewrite (edit_image_unusable args w e Hsome). fold good. cbn [snd].
  destruct (edit_announce_world E args w) as (_ & Htr & _ & Hfd & Hfiles).
  destruct (open_all_world good (snd (edit_announce E args w))) as (Hopen & _ & Hkeep).
  destruct (close_all_returns (seq (w_next_fd w) (length good))
              (emit_event (EvPrint (open_error_line e))
                 (open_all good (snd (edit_announce E args w))))) as (_ & -> & ->).
  cbn [w_trace w_files emit_event]. rewrite Hopen, Hkeep, Htr, Hfd, Hfiles.
  split; [|reflexivity]. rewrite <- !app_assoc. reflexivity.
Qed.

End EditRuns.

Section EditFacts.
Variable E : env.

(** What an edit posts, opens, closes and writes. *)
Lemma edit_image_projections (args : edit_args) (w : world) :
  let evs := events_of (edit_image E args) w in
  let fd := w_next_fd w in
  posted evs
  = (if forallb (usable E) (referenced_paths args)
     then [edit_request E args (edit_parts args fd)] else [])
  /\ opened evs = seq fd (length (usable_prefix E (referenced_paths args)))
  /\ closed evs = opened evs
  /\ files_hold evs (snd (edit_image E args w))
  /\ List.NoDup (map fst (written evs))
  /\ (posted evs = [] -> w_files (snd (edit_image E args w)) = w_files w).
Proof.
  intros evs fd. subst evs.
  destruct (edit_announce_world E args w) as (_ & _ & Hann & _).
  destruct (prints_no_opens _ Hann) as [Hann_o Hann_p].
  pose proof (prints_no_closes _ Hann) as Hann_c.
  pose proof (prints_no_writes _ Hann) as Hann_w.
  destruct (upload_error E args) as [e|] eqn:Herr.
  - assert (Hall : forallb (usable E) (referenced_paths args) = false).
    { destruct (forallb (usable E) (referenced_paths args)) eqn:Hall; [|reflexivity].
      apply upload_error_none in Hall. congruence. }
    destruct (edit_image_unusable_run E args w e Herr) as (Htr & Hfiles).
    rewrite (events_of_app _ _ _ Htr), Hall. fold fd.
    set (good := usable_prefix E (referenced_paths args)).
    destruct (open_events_only_open good fd) as (Hop_p & Hop_c & Hop_w).
    destruct (closes_no_opens (seq fd (length good))) as [Hcl_o Hcl_p].
    assert (Hw : written (events_of (edit_announce E args) w ++ open_events fd good
                          ++ EvPrint (open_error_line e)
                             :: map EvClose (seq fd (length good))) = []).
    { rewrite !written_app, Hann_w, Hop_w. cbn. apply closes_no_writes. }
    rewrite !posted_app, !opened_app, !closed_app, Hann_o, Hann_p, Hann_c, Hop_p, Hop_c,
      opened_open_events.
    cbn [posted opened closed app]. rewrite Hcl_o, Hcl_p, closed_closes, app_nil_r.
    repeat split; auto.
    + intros name data Hin. apply In_written in Hin. rewrite Hw in Hin. destruct Hin.
    + rewrite Hw. constructor.
  - pose proof (proj1 (upload_error_none E args) Herr) as Hall.
    destruct (edit_image_usable_run E args w Herr) as (Htr & Hans & Hhold & Hnodup).
    rewrite (events_of_app _ _ _ Htr), Hall, (usable_prefix_all E _ Hall). fold fd.
    set (req := edit_request E args (edit_parts args fd)) in *.
    set (answer := answer_events E req _ _ _) in *.
    set (paths := referenced_paths args) in *.
    destruct (open_events_only_open paths fd) as (Hop_p & Hop_c & Hop_w).
    destruct (closes_no_opens (seq fd (length paths))) as [Hcl_o Hcl_p].
    destruct (handler_posts_nothing _ _ answer Hans) as [Hans_p Hans_o].
    pose proof (handler_closes_nothing _ _ answer Hans) as Hans_c.
    assert (Hw : written (events_of (edit_announce E args) w ++ open_events fd paths
                          ++ EvPost req :: answer ++ map EvClose (seq fd (length paths)))
                 = written answer).
    { rewrite !written_app, Hann_w, Hop_w. cbn [written app].
      now rewrite written_app, closes_no_writes, app_nil_r. }
    rewrite !posted_app, !opened_app, !closed_app, Hann_o, Hann_p, Hann_c, Hop_p, Hop_c,
      opened_open_events.
    cbn [posted opened closed app].
    rewrite posted_app, opened_app, closed_app, Hans_p, Hans_o, Hans_c, Hcl_o, Hcl_p,
      closed_closes, app_nil_r.
    cbn [app]. rewrite ?app_nil_r. repeat split; auto.
    + intros name data Hin. apply In_written in Hin. rewrite Hw in Hin.
      apply In_written in Hin. now apply Hhold.
    + now rewrite Hw.
    + discriminate.
Qed.

(** The files of an edit are files of the handler, called with "png". *)
Lemma edit_image_writes (args : edit_args) (w : world) (name : string)
    (data : list Byte.byte) :
  In (EvWrite name data) (events_of (edit_image E args) w) ->
  exists timestamp index,
    name = mk_filename (edit_output_prefix args) timestamp index "png".
Proof.
  destruct (edit_announce_world E args w) as (_ & _ & Hann & _).
  rewrite List.Forall_forall in Hann.
  assert (Hopens : forall fd paths, ~ In (EvWrite name data) (open_events fd paths)).
  { intros fd paths. revert fd. induction paths as [|p rest IH]; intros fd; cbn; [tauto|].
    intros [[=]|Hin]. exact (IH _ Hin). }
  assert (Hcloses : forall fds, ~ In (EvWrite name data) (map EvClose fds)).
  { intros fds Hin. apply in_map_iff in Hin as (fd & [=] & _). }
  destruct (upload_error E args) as [e|] eqn:Herr.
  - destruct (edit_image_unusable_run E args w e Herr) as (Htr & _).
    rewrite (events_of_app _ _ _ Htr). intros Hin.
    apply in_app_or in Hin as [Hin|Hin]; [apply Hann in Hin; destruct Hin|].
    apply in_app_or in Hin as [Hin|Hin]; [now apply Hopens in Hin|].
    destruct Hin as [[=]|Hin]. now apply Hcloses in Hin.
  - destruct (edit_image_usable_run E args w Herr) as (Htr & Hans & _).
    rewrite (events_of_app _ _ _ Htr). intros Hin.
    apply in_app_or in Hin as [Hin|Hin]; [apply Hann in Hin; destruct Hin|].
    apply in_app_or in Hin as [Hin|Hin]; [now apply Hopens in Hin|].
    destruct Hin as [[=]|Hin].
    apply in_app_or in Hin as [Hin|Hin]; [|now apply Hcloses in Hin].
    rewrite List.Forall_forall in Hans. exact (Hans _ Hin).
Qed.

End EditFacts.

(** ** Edits on a standard output that may refuse a line *)

Lemma open_all_open (paths : list string) :
  forall w, w_open (open_all paths w)
            = rev (seq (w_next_fd w) (length paths)) ++ w_open w.
Proof.
  unfold open_all. induction paths as [|p rest IH]; intros w; cbn [fold_left length seq rev].
  - reflexivity.
  - rewrite IH. cbn [w_next_fd w_open emit_event add_handle].
    now rewrite <- app_assoc.
Qed.

Lemma close_all_open (fds : list nat) :
  forall w h, In h (w_open (snd (close_all fds w))) <-> In h (w_open w) /\ ~ In h fds.
Proof.
  induction fds as [|fd rest IH]; intros w h; cbn [close_all].
  - cbn. tauto.
  - change ((close fd ;; close_all rest) w)
      with (close_all rest (emit_event (EvClose fd) (drop_handle fd w))).
    rewrite IH. cbn [w_open emit_event drop_handle In].
    rewrite filter_In, Bool.negb_true_iff, Nat.eqb_neq. intuition congruence.
Qed.

Section HostEdits.
Variable H : host.

Lemma edit_announce_quiet (args : edit_args) : quiet is_print (edit_announce H args).
Proof. unfold edit_announce. repeat quiet_step. Qed.

Lemma edit_announce_talkative (args : edit_args) : talkative (edit_announce H args).
Proof. unfold edit_announce. repeat talk_step. Qed.

(** Lines 112-117 print, and change nothing else. *)
Lemma edit_announce_host (args : edit_args) (w : world) :
  let w1 := snd (edit_announce H args w) in
  w_trace w1 = w_trace w ++ events_of (edit_announce H args) w
  /\ Forall is_print (events_of (edit_announce H args) w)
  /\ w_next_fd w1 = w_next_fd w
  /\ w_open w1 = w_open w
  /\ w_files w1 = w_files w.
Proof.
  intros w1. subst w1.
  destruct (edit_announce_quiet args w) as (evs & Htr & Hev & Hopen & Hfd).
  destruct (edit_announce_talkative args w) as (evs' & _ & _ & Hfiles & _).
  rewrite (events_of_app _ _ _ Htr). auto.
Qed.

(** An edit is its announcement and then the rest, when the announcement
    could be printed. *)
Lemma edit_image_announced (args : edit_args) (w : world) :
  fst (edit_announce H args w) = Ok tt ->
  edit_image H args w = edit_send H args (snd (edit_announce H args w)).
Proof.
  unfold edit_image, bind.
  destruct (edit_announce H args w) as [[[]|e] w1]; cbn; [reflexivity | discriminate].
Qed.

Lemma edit_image_unannounced (args : edit_args) (w : world) (e : exn) :
  fst (edit_announce H args w) = Raise e ->
  edit_image H args w = (Raise e, snd (edit_announce H args w)).
Proof.
  unfold edit_image, bind.
  destruct (edit_announce H args w) as [[[]|e'] w1]; cbn; [discriminate|].
  now intros [= ->].
Qed.

(** Lines 143-152: the report comes before the closing loop, which an
    exception of [print] skips. *)
Lemma edit_send_unusable_host (args : edit_args) (w : world) (e : exn) :
  upload_error (host_env H) args = Some e ->
  let good := usable_prefix (host_env H) (referenced_paths args) in
  edit_send H args w
  = match stdout_err H (open_error_line e) with
    | Some e' => (Raise e', open_all good w)
    | None =>
        (Ok tt,
         snd (close_all (seq (w_next_fd w) (length good))
                (emit_event (EvPrint (open_error_line e)) (open_all good w))))
    end.
Proof.
  intros Hsome good. unfold edit_send.
  destruct (open_uploads_exact H args w) as (parts & Hrun & _).
  rewrite Hrun, Hsome. cbn [opened_files]. fold good. unfold open_error_line.
  destruct (exn_isinstance e FileNotFoundError); unfold bind, print;
    (destruct (stdout_err H _); [reflexivity | now rewrite close_all_ok]).
Qed.

(** Lines 167-171: from the request on, only the handler and the report of
    a failure add to the trace. *)
Lemma request_try_quiet (req : request) (prefix fmt : string) (w : world) :
  grows (handler_event prefix fmt) (emit_event (EvPost req) w)
    (snd (try_except
            (response <- requests_post H req ;;
             handle_api_response H response prefix fmt)
            (fun e =>
               if exn_isinstance e RequestException
               then print H [Lit "Request failed: "; Lit (exn_msg e)]
               else raise e) w)).
Proof.
  assert (Hcatch : forall e w0,
             grows (handler_event prefix fmt) w0
               (snd ((if exn_isinstance e RequestException
                      then print H [Lit "Request failed: "; Lit (exn_msg e)]
                      else raise e) w0))).
  { intros e w0. destruct (exn_isinstance e RequestException);
      [apply quiet_print; exact I | apply grows_refl]. }
  unfold try_except, bind, requests_post.
  destruct (post (host_env H) req) as [resp|e]; [|apply Hcatch].
  pose proof (handle_api_response_quiet H resp prefix fmt (emit_event (EvPost req) w)) as Hq.
  destruct (handle_api_response H resp prefix fmt (emit_event (EvPost req) w))
    as [[[]|e] w3]; cbn [fst snd] in *; [exact Hq|].
  eapply grows_trans; [exact Hq | apply Hcatch].
Qed.

(** Lines 154-174 when every file opens: whatever the [try] does, the
    [finally] closes the handles. *)
Lemma edit_send_usable_host (args : edit_args) (w : world) :
  upload_error (host_env H) args = None ->
  let fd := w_next_fd w in
  let paths := referenced_paths args in
  let req := edit_request (host_env H) args (edit_parts args fd) in
  exists answer,
    w_trace (snd (edit_send H args w))
    = w_trace w ++ open_events fd paths
      ++ EvPost req :: answer ++ map EvClose (seq fd (length paths))
    /\ Forall (handler_event (edit_output_prefix args) "png") answer
    /\ (forall h, In h (seq fd (length paths)) -> ~ In h (w_open (snd (edit_send H args w)))).
Proof.
  intros Hnone fd paths req. unfold edit_send.
  destruct (open_uploads_exact H args w) as (parts & Hrun & Hparts).
  rewrite Hrun, Hnone, (Hparts Hnone).
  rewrite (usable_prefix_all (host_env H) _ (proj1 (upload_error_none (host_env H) args) Hnone)).
  cbn [files_to_send opened_files]. fold fd paths.
  unfold try_finally.
  pose proof (request_try_quiet req (edit_output_prefix args) "png" (open_all paths w))
    as (answer & Htr & Hev & _).
  change (requests_post H req) with
    (requests_post H
       {| req_url := BASE_URL +:+ "/edits";
          req_headers := [("Authorization", "Bearer " +:+ API_KEY (host_env H))];
          req_body := MultipartBody (edit_parts args fd) (edit_payload args);
          req_timeout := 120 |}) in Htr.
  destruct (try_except _ _ (open_all paths w)) as [res w3]. cbn [snd] in Htr.
  rewrite (close_all_ok (seq fd (length paths)) w3).
  destruct (close_all_returns (seq fd (length paths)) w3) as (_ & Hclose & _).
  exists answer. cbn [snd]. split; [|split; [exact Hev|]].
  - rewrite Hclose, Htr. cbn [w_trace emit_event].
    destruct (open_all_world paths w) as (-> & _).
    rewrite <- !app_assoc. reflexivity.
  - intros h Hin Hopen. apply close_all_open in Hopen. tauto.
Qed.

(** An announced edit one of whose files does not open. *)
Lemma edit_image_unusable_host (args : edit_args) (w : world) (e : exn) :
  fst (edit_announce H args w) = Ok tt ->
  upload_error (host_env H) args = Some e ->
  let good := usable_prefix (host_env H) (referenced_paths args) in
  let fds := seq (w_next_fd w) (length good) in
  let run := edit_image H args w in
  w_files (snd run) = w_files w
  /\ match stdout_err H (open_error_line e) with
     | None =>
         w_trace (snd run)
         = w_trace w ++ events_of (edit_announce H args) w
           ++ open_events (w_next_fd w) good
           ++ EvPrint (open_error_line e) :: map EvClose fds
         /\ fst run = Ok tt
         /\ (forall h, In h fds -> ~ In h (w_open (snd run)))
     | Some e' =>
         w_trace (snd run)
         = w_trace w ++ events_of (edit_announce H args) w
           ++ open_events (w_next_fd w) good
         /\ fst run = Raise e'
         /\ w_open (snd run) = rev fds ++ w_open w
     end.
Proof.
  intros Hann Herr good fds run. subst run.
  rewrite (edit_image_announced args w Hann).
  rewrite (edit_send_unusable_host args _ e Herr). fold good.
  destruct (edit_announce_host args w) as (Htr & _ & Hfd & Hopen & Hfiles).
  set (w1 := snd (edit_announce H args w)) in *.
  destruct (open_all_world good w1) as (Htr1 & _ & Hfiles1).
  pose proof (open_all_open good w1) as Hopen1.
  rewrite Hfd in *. fold fds in Hopen1 |- *.
  destruct (stdout_err H (open_error_line e)) as [e'|]; cbn [fst snd].
  - rewrite Hfiles1, Hfiles, Htr1, Htr, Hopen1, Hopen, <- app_assoc. auto.
  - destruct (close_all_returns fds
                (emit_event (EvPrint (open_error_line e)) (open_all good w1)))
      as (_ & Hclose & Hkeep).
    rewrite Hkeep, Hclose. cbn [w_files w_trace emit_event].
    rewrite Hfiles1, Hfiles, Htr1, Htr, <- !app_assoc. cbn [app].
    repeat split; auto.
    intros h Hin Hh. apply close_all_open in Hh. tauto.
Qed.

(** What an announced edit posts, opens and closes when a file fails. *)
Lemma bad_file_projections (args : edit_args) (w : world) (e : exn) :
  fst (edit_announce H args w) = Ok tt ->
  upload_error (host_env H) args = Some e ->
  let evs := events_of (edit_image H args) w in
  let fds := seq (w_next_fd w)
               (length (usable_prefix (host_env H) (referenced_paths args))) in
  posted evs = []
  /\ opened evs = fds
  /\ closed evs
     = match stdout_err H
               [Lit (if exn_isinstance e FileNotFoundError
                     then "Error: " else "Error opening file(s): ");
                Lit (exn_msg e)] with
       | None => fds
       | Some _ => []
       end.
Proof.
  intros Hann Herr evs fds.
  assert (Hreport : [Lit (if exn_isinstance e FileNotFoundError
                          then "Error: " else "Error opening file(s): ");
                     Lit (exn_msg e)] = open_error_line e)
    by (unfold open_error_line; now destruct (exn_isinstance e FileNotFoundError)).
  rewrite Hreport.
  destruct (edit_image_unusable_host args w e Hann Herr) as (_ & Hrun).
  set (good := usable_prefix (host_env H) (referenced_paths args)) in *.
  fold fds in Hrun.
  destruct (edit_announce_host args w) as (_ & Hprints & _).
  destruct (prints_no_opens _ Hprints) as [Hann_o Hann_p].
  pose proof (prints_no_closes _ Hprints) as Hann_c.
  destruct (open_events_only_open good (w_next_fd w)) as (Hop_p & Hop_c & _).
  pose proof (opened_open_events good (w_next_fd w)) as Hop_o. fold fds in Hop_o.
  destruct (closes_no_opens fds) as [Hcl_o Hcl_p].
  destruct (stdout_err H (open_error_line e)) as [e'|]; destruct Hrun as (Htr & _).
  - assert (Hevs : evs = events_of (edit_announce H args) w
                         ++ open_events (w_next_fd w) good)
      by (subst evs; now apply events_of_app).
    rewrite Hevs, posted_app, opened_app, closed_app, Hann_o, Hann_p, Hann_c,
      Hop_p, Hop_o, Hop_c.
    rewrite ?app_nil_r. auto.
  - assert (Hevs : evs = events_of (edit_announce H args) w
                         ++ open_events (w_next_fd w) good
                         ++ EvPrint (open_error_line e) :: map EvClose fds)
      by (subst evs; now apply events_of_app).
    rewrite Hevs, !posted_app, !opened_app, !closed_app, Hann_o, Hann_p, Hann_c,
      Hop_p, Hop_o, Hop_c.
    cbn [posted opened closed]. rewrite Hcl_o, Hcl_p, closed_closes, app_nil_r.
    cbn [app]. rewrite ?app_nil_r. repeat split; auto.
Qed.

(** An announced edit whose files all open. *)
Lemma edit_image_usable_host (args : edit_args) (w : world) :
  fst (edit_announce H args w) = Ok tt ->
  upload_error (host_env H) args = None ->
  let fd := w_next_fd w in
  let paths := referenced_paths args in
  let req := edit_request (host_env H) args (edit_parts args fd) in
  let run := edit_image H args w in
  exists answer,
    w_trace (snd run)
    = w_trace w ++ events_of (edit_announce H args) w
      ++ open_events fd paths
      ++ EvPost req :: answer ++ map EvClose (seq fd (length paths))
    /\ Forall (handler_event (edit_output_prefix args) "png") answer
    /\ (forall h, In h (seq fd (length paths)) -> ~ In h (w_open (snd run))).
Proof.
  intros Hann Hnone fd paths req run. subst run.
  rewrite (edit_image_announced args w Hann).
  destruct (edit_announce_host args w) as (Htr & _ & Hfd & _).
  destruct (edit_send_usable_host args (snd (edit_announce H args w)) Hnone)
    as (answer & Hrun & Hev & Hclosed).
  rewrite Hfd in *. fold fd paths req in Hrun, Hclosed.
  exists answer. split; [|split; [exact Hev | exact Hclosed]].
  rewrite Hrun, Htr, <- !app_assoc. reflexivity.
Qed.

End HostEdits.

(** ** The loop over the items *)

(** What lines 41-42 raise on an item is never a JSON decoding error. *)
Lemma item_payload_error (item : pyval) (e : exn) :
  item_payload item = Raise e -> exn_isinstance e JSONDecodeError = false.
Proof.
  unfold item_payload, bind_result. intros H.
  destruct (py_contains "b64_json" item) as [[|]|e1] eqn:Hc.
  - destruct (py_getitem item "b64_json") as [v|e2] eqn:Hg; [discriminate|].
    injection H as <-.
    destruct item as [| b | z | f | s | l | kvs]; cbn in Hc, Hg; try discriminate;
      try (injection Hg as <-; reflexivity).
    destruct (dict_get "b64_json" kvs); [discriminate | injection Hg as <-; reflexivity].
  - discriminate.
  - injection H as <-.
    destruct item as [| b | z | f | s | l | kvs]; cbn in Hc; try discriminate;
      injection Hc as <-; reflexivity.
Qed.

Section LoopStops.
Variable E : env.

Lemma save_calls_at_most (prefix fmt : string) (items : list pyval) :
  forall i ticks,
    length (save_calls (items_events E prefix fmt i items ticks)) <= length items.
Proof.
  induction items as [|item rest IH]; intros i ticks; cbn [items_events length]; [cbn; lia|].
  destruct (item_payload item) as [[b64|]|e].
  - rewrite save_calls_app, save_calls_save_events, length_app. cbn [length].
    specialize (IH (S i) (save_ticks b64 ticks)). lia.
  - cbn [save_calls]. specialize (IH (S i) ticks). lia.
  - cbn [save_calls]. specialize (IH (S i) ticks). lia.
Qed.

(** The loop ends at the first item that cannot be read. *)
Lemma handle_items_stops (prefix fmt : string) (before after : list pyval)
    (bad : pyval) (e : exn) :
  Forall (fun item => readable item = true) before ->
  item_payload bad = Raise e ->
  forall (i : nat) (w : world),
  exists w',
    handle_items E prefix fmt i (before ++ bad :: after) w = (Raise e, w')
    /\ w_trace w' = w_trace w ++ items_events E prefix fmt i before (w_ticks w).
Proof.
  intros Hbefore Hbad. induction Hbefore as [|item rest Hitem _ IH]; intros i w.
  - cbn [app items_events]. rewrite handle_items_cons, Hbad.
    exists w. now rewrite app_nil_r.
  - cbn [app items_events]. rewrite handle_items_cons.
    unfold readable in Hitem. destruct (item_payload item) as [[b64|]|e'] eqn:Hp;
      [| |discriminate].
    + destruct (save_image_from_b64_run E b64 prefix i fmt w) as (o & w1 & Hrun & Htr & Htk & _).
      rewrite Hrun. cbn [snd].
      destruct (IH (S i) w1) as (w' & -> & Htr'). exists w'. split; [reflexivity|].
      rewrite Htr', Htr, Htk, <- app_assoc. reflexivity.
    + destruct (IH (S i) (emit_event (EvPrint (item_warning_line i item)) w))
        as (w' & -> & Htr').
      exists w'. split; [reflexivity|]. rewrite Htr'. cbn. now rewrite <- app_assoc.
Qed.

End LoopStops.

(** * Properties of the specification *)

(** ** The response handler *)

(** C1, as the code has it.  For a 200 response whose body has an empty
    ["data"] list, the handler prints the notice that no images were
    generated exactly when the body has no ["usage"] field or a null one, and
    then it prints nothing else.  With any other ["usage"] the first line is
    the header of the usage report, and for a usage object the report with
    its token counts is all that is printed.  The notice is a line of its
    own kind, not one of the two warnings about the shape of the body, and
    neither warning is printed for such a response. *)
Theorem empty_data_notice_unless_usage (E : env) (r : response) (prefix fmt : string)
    (w : world) (kvs : list (string * pyval)) :
  status_code r = 200%Z ->
  json r = Ok (PyDict kvs) ->
  dict_get "data" kvs = Some (PyList []) ->
  let evs := events_of (handle_api_response E r prefix fmt) w in
  let notice :=
    [Lit "No images were generated. This might be due to a safety filter or other issue."] in
  let shape_warning :=
    [Lit ("Unexpected response structure: " +:+ dquote +:+ "data" +:+ dquote
          +:+ " field missing or not a list. Full response: "); Val (PyDict kvs)] in
  let usage_warning :=
    [Lit "Warning: No usage information provided in the response, and data structure is unexpected."] in
  (In (EvPrint notice) evs
   <-> dict_get "usage" kvs = None \/ dict_get "usage" kvs = Some PyNone)
  /\ (dict_get "usage" kvs = None \/ dict_get "usage" kvs = Some PyNone ->
      evs = [EvPrint notice])
  /\ (forall u, dict_get "usage" kvs = Some u -> u <> PyNone ->
        exists rest, evs = EvPrint [Lit (newline +:+ "Usage Information:")] :: rest)
  /\ (forall u, dict_get "usage" kvs = Some (PyDict u) ->
        evs = map EvPrint
                (count_lines u
                 ++ match dict_get "input_tokens_details" u with
                    | None => []
                    | Some details =>
                        match py_get details "text_tokens" with
                        | Ok _ => match details with PyDict d => detail_lines d | _ => [] end
                        | Raise e => processing_error_lines e (PyDict kvs)
                        end
                    end))
  /\ notice <> shape_warning
  /\ notice <> usage_warning
  /\ ~ In (EvPrint shape_warning) evs
  /\ ~ In (EvPrint usage_warning) evs.
Proof.
  intros Hst Hjson Hdata evs notice shape_warning usage_warning.
  change notice with no_images_line.
  change shape_warning with (unexpected_structure_line (PyDict kvs)).
  change usage_warning with no_usage_warning_line.
  clear notice shape_warning usage_warning.
  assert (Hquiet : dict_get "usage" kvs = None \/ dict_get "usage" kvs = Some PyNone ->
                   evs = [EvPrint no_images_line]).
  { intros Hu. subst evs. apply events_of_app.
    now rewrite (process_body_empty_data E r prefix fmt w kvs Hst Hjson Hdata Hu). }
  assert (Hcases : (dict_get "usage" kvs = None \/ dict_get "usage" kvs = Some PyNone)
                   \/ Forall (not_a_notice (PyDict kvs)) evs).
  { destruct (dict_get "usage" kvs) as [u|] eqn:Hu; [|auto].
    destruct (is_none u) eqn:Hn; [destruct u; try discriminate; auto|].
    right. eapply usage_report_replaces_notice; eauto. }
  repeat split; try discriminate; auto.
  - intros Hin. destruct Hcases as [Hu|Hno]; [exact Hu|].
    rewrite List.Forall_forall in Hno. apply Hno in Hin. destruct Hin as [Hin _]. congruence.
  - intros Hu. rewrite (Hquiet Hu). now left.
  - intros u Hu Hnone. subst evs.
    apply (usage_report_comes_first E r prefix fmt w kvs u Hst Hjson Hdata Hu).
    destruct u; try reflexivity. now destruct Hnone.
  - intros u Hu. subst evs.
    apply (empty_data_usage_object E r prefix fmt w kvs u Hst Hjson Hdata Hu).
  - intros Hin. destruct Hcases as [Hu|Hno].
    + rewrite (Hquiet Hu) in Hin. destruct Hin as [[=]|[]].
    + rewrite List.Forall_forall in Hno. apply Hno in Hin.
      destruct Hin as (_ & Hin & _). congruence.
  - intros Hin. destruct Hcases as [Hu|Hno].
    + rewrite (Hquiet Hu) in Hin. destruct Hin as [[=]|[]].
    + rewrite List.Forall_forall in Hno. apply Hno in Hin.
      destruct Hin as (_ & _ & Hin). congruence.
Qed.

Lemma empty_data_notice_unless_usage_witness :
  status_code empty_without_usage = 200%Z
  /\ events_of (handle_api_response sample_env empty_without_usage "gen" "png") fresh_world
     = [EvPrint [Lit "No images were generated. This might be due to a safety filter or other issue."]].
Proof.
  split; [reflexivity|].
  destruct (empty_data_notice_unless_usage sample_env empty_without_usage "gen" "png"
              fresh_world [("data", PyList [])] eq_refl eq_refl eq_refl) as (_ & Hquiet & _).
  apply Hquiet. left. reflexivity.
Defined.

(** C1, as the spec has it, fails: a 200 response with ["data": []] and a
    ["usage"] object gets the usage report and no notice. *)
Lemma empty_data_with_usage_gets_no_notice :
  status_code empty_with_usage = 200%Z
  /\ json empty_with_usage = Ok (PyDict empty_with_usage_body)
  /\ dict_get "data" empty_with_usage_body = Some (PyList [])
  /\ printed (events_of (handle_api_response sample_env empty_with_usage "gen" "png") fresh_world)
     = [[Lit (newline +:+ "Usage Information:")];
        [Lit "  Total Tokens: "; Val (PyInt 0)];
        [Lit "  Input Tokens: "; Val PyNone];
        [Lit "  Output Tokens: "; Val PyNone]]
  /\ ~ In (EvPrint [Lit "No images were generated. This might be due to a safety filter or other issue."])
          (events_of (handle_api_response sample_env empty_with_usage "gen" "png") fresh_world).
Proof.
  repeat split; try reflexivity.
  vm_compute. intros H. repeat (destruct H as [H|H]; [discriminate H|]). exact H.
Qed.

(** C4.  For a 200 response whose ["data"] list has [K] items, each a JSON
    object with the payload field, the persister is called exactly [K]
    times: the [i]-th call gets the payload of item [i] and the index [i],
    so the indices are 0, 1, ..., [K-1] in this order. *)
Theorem persister_called_once_per_item (E : env) (r : response) (prefix fmt : string)
    (w : world) (kvs : list (string * pyval)) (items : list pyval) :
  status_code r = 200%Z ->
  json r = Ok (PyDict kvs) ->
  dict_get "data" kvs = Some (PyList items) ->
  Forall (fun item => carries_payload item = true) items ->
  let calls := save_calls (events_of (handle_api_response E r prefix fmt) w) in
  calls = map (fun p => (payload_of (snd p), prefix, fst p, fmt)) (enumerate_from 0 items)
  /\ length calls = length items
  /\ map call_index calls = seq 0 (length items).
Proof.
  intros Hst Hjson Hdata Hitems calls.
  assert (Hrd : Forall (fun item => readable item = true) items)
    by (eapply List.Forall_impl; [|exact Hitems]; apply carries_payload_readable).
  destruct (handle_api_response_list_run E r prefix fmt w kvs items Hst Hjson Hdata)
    as (tail & Hev & Htail).
  rewrite (readable_prefix_all items Hrd) in Hev.
  assert (Hcalls : calls = map (fun p => (payload_of (snd p), prefix, fst p, fmt))
                               (enumerate_from 0 items)).
  { subst calls. rewrite Hev, save_calls_app, (prints_no_calls tail Htail), app_nil_r.
    now apply save_calls_items_events. }
  split; [exact Hcalls|]. rewrite Hcalls. split.
  - rewrite length_map, <- (length_map fst), enumerate_from_indices. apply length_seq.
  - rewrite map_map. cbn. apply enumerate_from_indices.
Qed.

Lemma persister_called_once_per_item_witness :
  save_calls (events_of (handle_api_response sample_env sample_response "gen" "png") fresh_world)
  = [(PyStr "aGk=", "gen", 0, "png"); (PyStr "eW8=", "gen", 1, "png")].
Proof.
  destruct (persister_called_once_per_item sample_env sample_response "gen" "png" fresh_world
              [("data", PyList [PyDict [("b64_json", PyStr "aGk=")];
                                PyDict [("b64_json", PyStr "eW8=")]])]
              [PyDict [("b64_json", PyStr "aGk=")]; PyDict [("b64_json", PyStr "eW8=")]]
              eq_refl eq_refl eq_refl) as (Hcalls & _).
  - repeat constructor.
  - exact Hcalls.
Defined.

(** C5.  In a 200 response with a ["data"] list, let the save of the item
    at position [i] fail: its payload does not decode, or its file cannot
    be created or written.  Then the trace of the handler is, in order: what
    the items before it did; the call of the persister for item [i] and the
    one line that reports its error; and what the items after it do, each
    of them handled as if nothing had failed, up to the first one that
    cannot be read (every JSON object can).  So every later item with a
    payload gets its own call with its own position, and its file or its own
    report.  No exception leaves the handler. *)
Theorem failed_save_does_not_stop_the_rest (E : env) (r : response) (prefix fmt : string)
    (w : world) (kvs : list (string * pyval)) (before after : list pyval)
    (item b64 : pyval) (e : exn) :
  status_code r = 200%Z ->
  json r = Ok (PyDict kvs) ->
  dict_get "data" kvs = Some (PyList (before ++ item :: after)) ->
  Forall (fun it => readable it = true) before ->
  item_payload item = Ok (Some b64) ->
  save_failure E b64 prefix (length before) fmt (loop_ticks before (w_ticks w)) = Some e ->
  let i := length before in
  let ticks := loop_ticks before (w_ticks w) in
  let evs := events_of (handle_api_response E r prefix fmt) w in
  fst (handle_api_response E r prefix fmt w) = Ok tt
  /\ (exists tail,
        evs = items_events E prefix fmt 0 before (w_ticks w)
              ++ [EvSave b64 prefix i fmt;
                  EvPrint [Lit "Error saving image: "; Lit (exn_msg e)]]
              ++ items_events E prefix fmt (S i) (readable_prefix after)
                   (save_ticks b64 ticks)
              ++ tail
        /\ Forall is_print tail)
  /\ (forall j it p,
        nth_error after j = Some it ->
        item_payload it = Ok (Some p) ->
        Forall (fun x => readable x = true) (firstn j after) ->
        In (p, prefix, S i + j, fmt) (save_calls evs)
        /\ exists t, incl (save_events E p prefix (S i + j) fmt t) evs).
Proof.
  intros Hst Hjson Hdata Hbefore Hitem Hfail i ticks evs.
  assert (Hret : fst (handle_api_response E r prefix fmt w) = Ok tt).
  { rewrite handle_api_response_returns. unfold handler_result. now rewrite Hjson. }
  destruct (handle_api_response_list_run E r prefix fmt w kvs (before ++ item :: after)
              Hst Hjson Hdata) as (tail & Hev & Htail).
  fold evs in Hev.
  assert (Hitem_r : readable item = true) by (unfold readable; now rewrite Hitem).
  rewrite (readable_prefix_app before (item :: after) Hbefore) in Hev.
  cbn [readable_prefix] in Hev. rewrite Hitem_r in Hev.
  rewrite items_events_app in Hev. cbn [items_events Nat.add] in Hev.
  rewrite Hitem, (save_events_failure E b64 prefix _ fmt _ e Hfail) in Hev.
  fold i ticks in Hev. rewrite <- !app_assoc in Hev.
  split; [exact Hret|]. split; [exists tail; split; [exact Hev | exact Htail]|].
  intros j it p Hn Hp Hfirst.
  assert (Hr : readable it = true) by (unfold readable; now rewrite Hp).
  pose proof (readable_prefix_nth after j it Hn Hr Hfirst) as Hn'.
  destruct (items_events_save E prefix fmt (readable_prefix after) (S i)
              (save_ticks b64 ticks) j it p Hn' Hp) as (t & Ht).
  assert (Hincl : incl (save_events E p prefix (S i + j) fmt t) evs).
  { rewrite Hev. apply incl_appr, incl_appr, incl_appl. exact Ht. }
  split; [|exists t; exact Hincl].
  apply In_save_calls, Hincl. unfold save_events. now left.
Qed.

Lemma failed_save_does_not_stop_the_rest_witness :
  fst (handle_api_response sample_env broken_then_sound "gen" "png" fresh_world) = Ok tt
  /\ events_of (handle_api_response sample_env broken_then_sound "gen" "png") fresh_world
     = [EvSave (PyStr "a") "gen" 0 "png";
        EvPrint [Lit "Error saving image: "; Lit (exn_msg Base64.one_extra_character)];
        EvSave (PyStr "aGk=") "gen" 1 "png";
        EvWrite "gen_20250409_070500_2.png" [Byte.x68; Byte.x69];
        EvPrint [Lit "Saved image: "; Lit "gen_20250409_070500_2.png"]].
Proof.
  destruct (failed_save_does_not_stop_the_rest sample_env broken_then_sound "gen" "png"
              fresh_world
              [("data", PyList [PyDict [("b64_json", PyStr "a")];
                                PyDict [("b64_json", PyStr "aGk=")]])]
              [] [PyDict [("b64_json", PyStr "aGk=")]]
              (PyDict [("b64_json", PyStr "a")]) (PyStr "a") Base64.one_extra_character
              eq_refl eq_refl eq_refl ltac:(constructor) eq_refl eq_refl)
    as (Hret & _).
  split; [exact Hret | reflexivity].
Defined.

(** C6, as the code has it.  For a response whose status is not 200 the
    handler writes no file and never calls the persister.  It prints the
    status, and then the parsed error detail when the body parses, or the
    raw text when [response.json()] raises a [JSONDecodeError]; in both
    cases it returns normally, provided the standard output takes the
    lines.  Any other exception of [response.json()] leaves the handler
    after the status line, and so does the exception of a line the standard
    output does not take. *)
Theorem failed_status_is_reported (H : host) (r : response) (prefix fmt : string)
    (w : world) :
  status_code r <> 200%Z ->
  let run := handle_api_response H r prefix fmt w in
  let evs := events_of (handle_api_response H r prefix fmt) w in
  let status :=
    [Lit ("Error: API request failed with status code " +:+ string_of_Z (status_code r))] in
  let raw := [Lit "Could not parse error response: "; Lit (text r)] in
  (written evs = [] /\ save_calls evs = [] /\ w_files (snd run) = w_files w)
  /\ (stdout_err H status = None ->
      forall d, json r = Ok d ->
        stdout_err H [Lit "Error details: "; Json d] = None ->
        evs = [EvPrint status; EvPrint [Lit "Error details: "; Json d]]
        /\ fst run = Ok tt)
  /\ (stdout_err H status = None ->
      forall e, json r = Raise e ->
        exn_isinstance e JSONDecodeError = true ->
        stdout_err H raw = None ->
        evs = [EvPrint status; EvPrint raw] /\ fst run = Ok tt)
  /\ (stdout_err H status = None ->
      forall e, json r = Raise e ->
        exn_isinstance e JSONDecodeError = false ->
        evs = [EvPrint status] /\ fst run = Raise e)
  /\ (forall e, stdout_err H status = Some e -> evs = [] /\ fst run = Raise e)
  /\ (stdout_err H status = None ->
      forall d e, json r = Ok d ->
        stdout_err H [Lit "Error details: "; Json d] = Some e ->
        exn_isinstance e JSONDecodeError = false ->
        evs = [EvPrint status] /\ fst run = Raise e)
  /\ (stdout_err H status = None ->
      forall e e', json r = Raise e ->
        exn_isinstance e JSONDecodeError = true ->
        stdout_err H raw = Some e' ->
        evs = [EvPrint status] /\ fst run = Raise e').
Proof.
  intros Hst run evs status raw. apply Z.eqb_neq in Hst.
  assert (Hprints : talkative (handle_api_response H r prefix fmt)).
  { unfold handle_api_response. rewrite Hst.
    repeat first [apply response_json_talkative | talk_step]. }
  assert (Hrun : run =
    match stdout_err H status with
    | Some e => (Raise e, w)
    | None =>
        let w1 := emit_event (EvPrint status) w in
        match json r with
        | Ok d =>
            match stdout_err H [Lit "Error details: "; Json d] with
            | None => (Ok tt, emit_event (EvPrint [Lit "Error details: "; Json d]) w1)
            | Some e =>
                if exn_isinstance e JSONDecodeError then print H raw w1 else (Raise e, w1)
            end
        | Raise e => if exn_isinstance e JSONDecodeError then print H raw w1 else (Raise e, w1)
        end
    end).
  { subst run status raw. unfold handle_api_response. rewrite Hst.
    unfold bind at 1, print at 1, status_error_line.
    destruct (stdout_err H _); [reflexivity|].
    unfold try_except, bind, response_json, lift, error_details_line, unparsed_error_line.
    destruct (json r) as [d|e];
      [|destruct (exn_isinstance e JSONDecodeError); reflexivity].
    unfold print at 1. destruct (stdout_err H [Lit "Error details: "; Json d]) as [e|];
      [|reflexivity].
    destruct (exn_isinstance e JSONDecodeError); reflexivity. }
  assert (Hevs : forall res w', run = (res, w') -> forall l, w_trace w' = w_trace w ++ l ->
                                evs = l /\ fst run = res).
  { intros res w' Heq l Htr. subst evs. fold run. unfold events_of. fold run.
    rewrite Heq. cbn [fst snd]. split; [|reflexivity].
    now rewrite Htr, skipn_app, skipn_all, Nat.sub_diag. }
  split.
  { destruct (Hprints w) as (pr & Htr & Hpr & Hfiles & _). fold run in Htr, Hfiles.
    subst evs. rewrite (events_of_app _ _ _ Htr).
    now rewrite (prints_no_writes pr Hpr), (prints_no_calls pr Hpr). }
  split; [|split; [|split; [|split; [|split]]]].
  - intros Hs d Hd Hl. rewrite Hs, Hd, Hl in Hrun.
    apply (Hevs _ _ Hrun). cbn. now rewrite <- app_assoc.
  - intros Hs e He Hdec Hl. rewrite Hs, He, Hdec in Hrun. unfold print in Hrun.
    rewrite Hl in Hrun. apply (Hevs _ _ Hrun). cbn. now rewrite <- app_assoc.
  - intros Hs e He Hdec. rewrite Hs, He, Hdec in Hrun. now apply (Hevs _ _ Hrun).
  - intros e Hs. rewrite Hs in Hrun. apply (Hevs _ _ Hrun). now rewrite app_nil_r.
  - intros Hs d e Hd Hl Hdec. rewrite Hs, Hd, Hl, Hdec in Hrun. now apply (Hevs _ _ Hrun).
  - intros Hs e e' He Hdec Hl. rewrite Hs, He, Hdec in Hrun. unfold print in Hrun.
    rewrite Hl in Hrun. now apply (Hevs _ _ Hrun).
Qed.

Lemma failed_status_is_reported_witness :
  status_code bad_request <> 200%Z
  /\ events_of (handle_api_response sample_env bad_request "gen" "png") fresh_world =
       [EvPrint [Lit "Error: API request failed with status code 400"];
        EvPrint [Lit "Error details: ";
                 Json (PyDict [("error", PyDict [("message", PyStr "Invalid size")])])]]
  /\ fst (handle_api_response sample_env bad_request "gen" "png" fresh_world) = Ok tt.
Proof.
  split; [discriminate|].
  destruct (failed_status_is_reported sample_env bad_request "gen" "png" fresh_world)
    as (_ & Hparsed & _); [discriminate|].
  exact (Hparsed eq_refl _ eq_refl eq_refl).
Defined.

(** C6, as the spec has it, fails: the handler catches a [JSONDecodeError]
    only.  On a 400 response whose body makes [response.json()] raise a
    [ValueError], the exception leaves the handler, and neither a parsed
    detail nor the raw text is printed.  On a response whose error detail
    the standard output cannot encode, the exception of [print] leaves it. *)
Lemma failed_status_can_raise :
  status_code huge_number_response <> 200%Z
  /\ handle_api_response sample_env huge_number_response "gen" "png" fresh_world
     = (Raise (Exn ValueError
                 "Exceeds the limit (4300 digits) for integer string conversion"),
        emit_event
          (EvPrint [Lit "Error: API request failed with status code 400"]) fresh_world)
  /\ fst (handle_api_response surrogate_host unprintable_detail "gen" "png" fresh_world)
     = Raise surrogates_not_allowed.
Proof. repeat split. discriminate. Qed.

(** C10.  In a 200 response with a ["data"] list, a file is only written for
    an item with a payload, holds that payload decoded, and carries that
    item's position plus one in its name; an item without the field that
    the loop reaches (the items before it can be read, as every JSON object
    can) gets a warning that names its position and shows the item.  So the
    numbers in the names can skip: a response whose first item has no
    payload yields a single file, numbered 2. *)
Theorem filename_index_is_position :
  (forall (E : env) (r : response) (prefix fmt : string) (w : world)
          (kvs : list (string * pyval)) (items : list pyval),
      status_code r = 200%Z ->
      json r = Ok (PyDict kvs) ->
      dict_get "data" kvs = Some (PyList items) ->
      let evs := events_of (handle_api_response E r prefix fmt) w in
      (forall name data,
          In (EvWrite name data) evs ->
          exists i item b64 timestamp,
            nth_error items i = Some item
            /\ item_payload item = Ok (Some b64)
            /\ Base64.b64decode b64 = Ok data
            /\ name = prefix +:+ "_" +:+ timestamp +:+ "_" +:+ string_of_nat (i + 1)
                      +:+ "." +:+ fmt)
      /\ (forall i item,
            nth_error items i = Some item ->
            item_payload item = Ok None ->
            Forall (fun it => readable it = true) (firstn i items) ->
            In (EvPrint [Lit ("Warning: Item " +:+ string_of_nat i +:+ " does not contain "
                              +:+ dquote +:+ "b64_json" +:+ dquote +:+ ". Item: ");
                         Val item]) evs))
  /\ map fst (written (events_of (handle_api_response sample_env gap_then_image "gen" "png")
                         fresh_world))
     = ["gen_20250409_070500_2.png"].
Proof.
  split; [|reflexivity].
  intros E r prefix fmt w kvs items Hst Hjson Hdata evs. subst evs.
  destruct (handle_api_response_list_run E r prefix fmt w kvs items Hst Hjson Hdata)
    as (tail & -> & Htail).
  split.
  - intros name data Hin. apply in_app_or in Hin as [Hin|Hin].
    + apply items_events_write in Hin as (j & item & b64 & t & Hn & Hp & Hd & Hname).
      apply readable_prefix_is_prefix in Hn.
      exists j, item, b64, (strftime (now E t)). auto.
    + rewrite List.Forall_forall in Htail. apply Htail in Hin. destruct Hin.
  - intros i item Hn Hp Hbefore. apply in_or_app. left.
    assert (Hr : readable item = true) by (unfold readable; now rewrite Hp).
    pose proof (readable_prefix_nth items i item Hn Hr Hbefore) as Hn'.
    apply (items_events_warning E prefix fmt (readable_prefix items) 0 (w_ticks w) i item
             Hn' Hp).
Qed.

Lemma filename_index_is_position_witness :
  In (EvPrint [Lit ("Warning: Item 0 does not contain " +:+ dquote +:+ "b64_json" +:+ dquote
                    +:+ ". Item: ");
               Val (PyDict [("revised_prompt", PyStr "a hat")])])
     (events_of (handle_api_response sample_env gap_then_image "gen" "png") fresh_world).
Proof.
  destruct (proj1 filename_index_is_position sample_env gap_then_image "gen" "png" fresh_world
              [("data", PyList [PyDict [("revised_prompt", PyStr "a hat")];
                                PyDict [("b64_json", PyStr "aGk=")]])]
              [PyDict [("revised_prompt", PyStr "a hat")]; PyDict [("b64_json", PyStr "aGk=")]]
              eq_refl eq_refl eq_refl) as (_ & Hwarn).
  apply (Hwarn 0); [reflexivity | reflexivity | constructor].
Defined.


(** ** The persister *)

(** C7.  Saving the base64 encoding of a byte sequence, when it succeeds,
    leaves a file that holds exactly those bytes. *)
Theorem save_round_trip (E : env) (bs : list Byte.byte) (prefix : string) (i : nat)
    (fmt : string) (w : world) (filename : string) :
  fst (save_image_from_b64 E (PyStr (Base64.b64encode bs)) prefix i fmt w)
  = Ok (Some filename) ->
  w_files (snd (save_image_from_b64 E (PyStr (Base64.b64encode bs)) prefix i fmt w))
    !! filename
  = Some bs.
Proof.
  intros Hok.
  destruct (save_image_from_b64_success E _ _ _ _ _ _ Hok) as (data & Hdec & _ & Hfile & _).
  rewrite Base64Facts.b64decode_b64encode in Hdec. congruence.
Qed.

Lemma save_round_trip_witness :
  Base64.b64encode [Byte.x68; Byte.x69] = "aGk="
  /\ w_files (snd (save_image_from_b64 sample_env (PyStr (Base64.b64encode [Byte.x68; Byte.x69]))
                     "gen" 0 "png" fresh_world))
       !! "gen_20250409_070500_1.png"
     = Some [Byte.x68; Byte.x69].
Proof.
  split; [reflexivity|].
  apply (save_round_trip sample_env [Byte.x68; Byte.x69] "gen" 0 "png" fresh_world).
  vm_compute. reflexivity.
Defined.

(** C8.  A save that succeeds has written one file, named by the prefix, an
    underscore, the time of the call as eight digits, an underscore and six
    digits, an underscore, the index plus one in decimal, a dot and the
    format. *)
Theorem saved_file_name (E : env) (b64 : pyval) (prefix : string) (i : nat)
    (fmt : string) (w : world) (filename : string) :
  fst (save_image_from_b64 E b64 prefix i fmt w) = Ok (Some filename) ->
  exists (timestamp : string) (data : list Byte.byte),
    filename = prefix +:+ "_" +:+ timestamp +:+ "_" +:+ string_of_nat (i + 1) +:+ "." +:+ fmt
    /\ timestamp = strftime (now E (w_ticks w))
    /\ timestamp_form timestamp = true
    /\ written (events_of (save_image_from_b64 E b64 prefix i fmt) w) = [(filename, data)].
Proof.
  intros Hok.
  destruct (save_image_from_b64_success E _ _ _ _ _ _ Hok) as (data & _ & Hname & _ & Hev).
  exists (strftime (now E (w_ticks w))), data. repeat split.
  - exact Hname.
  - apply strftime_form.
  - now rewrite Hev.
Qed.

Lemma saved_file_name_witness :
  exists (timestamp : string) (data : list Byte.byte),
    "edi_20250409_070500_3.webp"
    = "edi" +:+ "_" +:+ timestamp +:+ "_" +:+ string_of_nat (2 + 1) +:+ "." +:+ "webp"
    /\ timestamp = strftime (now sample_env (w_ticks fresh_world))
    /\ timestamp_form timestamp = true
    /\ written (events_of (save_image_from_b64 sample_env (PyStr "aGk=") "edi" 2 "webp")
                  fresh_world)
       = [("edi_20250409_070500_3.webp", data)].
Proof.
  apply (saved_file_name sample_env (PyStr "aGk=") "edi" 2 "webp" fresh_world).
  vm_compute. reflexivity.
Defined.

(** ** Requests *)

(** C3.  A creation sends one request, whose JSON body has the field
    [output_compression] exactly when a value was supplied and the output
    format is "jpeg" or "webp". *)
Theorem output_compression_only_for_jpeg_webp (E : env) (args : create_args) (w : world) :
  exists req : request,
    posted (events_of (create_image E args) w) = [req]
    /\ req_body req = JsonBody (create_payload args)
    /\ (is_Some (create_payload args !! "output_compression")
        <-> is_Some (output_compression args)
            /\ (output_format args = "jpeg" \/ output_format args = "webp")).
Proof.
  eexists. split; [apply create_image_posts|]. split; [reflexivity|].
  rewrite create_payload_compression.
  destruct (output_compression args) as [c|].
  - destruct (String.eqb_spec (output_format args) "jpeg") as [->|Hj]; cbn.
    + split; eauto.
    + destruct (String.eqb_spec (output_format args) "webp") as [->|Hw]; cbn.
      * split; eauto.
      * split; [intros [? [=]] | intros [_ [?|?]]; contradiction].
  - split; [intros [? [=]] | intros [[? [=]] _]].
Qed.

(** C2 fails on the code.  The edit opens [cat.png]; the mask does not
    exist, and its name has a character the standard output cannot encode.
    The handler of line 143 prints the error before it closes the files, so
    the exception of [print] leaves the edit with the handle of [cat.png]
    open: no close event follows, and the handle is still among the open
    ones.  No request is sent. *)
Theorem edit_error_report_can_leave_handles_open :
  let args := sample_edit ["cat.png"] (Some unprintable_mask) in
  let run := edit_image surrogate_host args fresh_world in
  let evs := events_of (edit_image surrogate_host args) fresh_world in
  path_exists sample_env "cat.png" = true
  /\ path_exists sample_env unprintable_mask = false
  /\ opened evs = [3]
  /\ closed evs = []
  /\ posted evs = []
  /\ w_open (snd run) = [3]
  /\ fst run = Raise surrogates_not_allowed.
Proof. vm_compute. repeat split. Qed.

(** C9.  Every file an edit writes has the extension "png": its name is
    built from the edit's prefix with the format "png", whatever the source
    images are called. *)
Theorem edit_saves_as_png (E : env) (args : edit_args) (w : world)
    (name : string) (data : list Byte.byte) :
  In (EvWrite name data) (events_of (edit_image E args) w) ->
  has_extension "png" name
  /\ exists timestamp index,
       name = mk_filename (edit_output_prefix args) timestamp index "png".
Proof.
  intros Hin.
  destruct (edit_image_writes E args w name data Hin) as (ts & idx & ->).
  split; [apply mk_filename_extension | eauto].
Qed.

Lemma edit_saves_as_png_witness :
  written (events_of (edit_image sample_env (sample_edit ["cat.png"] None)) fresh_world)
  = [("edi_20250409_070500_1.png", [Byte.x68; Byte.x69]);
     ("edi_20250409_070501_2.png", [Byte.x79; Byte.x6f])]
  /\ has_extension "png" "edi_20250409_070501_2.png".
Proof.
  split; [reflexivity|].
  apply (edit_saves_as_png sample_env (sample_edit ["cat.png"] None) fresh_world
           "edi_20250409_070501_2.png" [Byte.x79; Byte.x6f]).
  apply In_written. vm_compute. right. left. reflexivity.
Defined.

(** * Further properties of the program *)

(** ** More on the response handler *)

(** X1.  Whatever the response, every file the handler reports as written is
    on disk with the bytes written when the handler returns, and the names
    written are pairwise different: no image of a response overwrites
    another one of the same response. *)
Theorem saved_files_are_on_disk (E : env) (r : response) (prefix fmt : string) (w : world) :
  let w' := snd (handle_api_response E r prefix fmt w) in
  let evs := events_of (handle_api_response E r prefix fmt) w in
  (forall name data, In (EvWrite name data) evs -> w_files w' !! name = Some data)
  /\ List.NoDup (map fst (written evs)).
Proof.
  intros w' evs. subst w' evs.
  destruct (handle_api_response_stored E r prefix fmt w) as (evs & Htr & Hhold & Hnodup).
  rewrite (events_of_app _ _ _ Htr). auto.
Qed.

(** X2.  On a console that takes every line, the handler returns normally
    when the body parses and when parsing raises a [JSONDecodeError]; any
    other exception of [response.json()] leaves the handler (on a 200
    response through the second call of line 66, otherwise past the handler
    of line 73).  Whatever the response, the handler sends no request, opens
    and closes no handle, and only writes files named after the prefix and
    the format it was given. *)
Theorem handler_is_contained (E : env) (r : response) (prefix fmt : string) (w : world) :
  let run := handle_api_response E r prefix fmt w in
  let evs := events_of (handle_api_response E r prefix fmt) w in
  fst run = match json r with
            | Ok _ => Ok tt
            | Raise e => if exn_isinstance e JSONDecodeError then Ok tt else Raise e
            end
  /\ posted evs = []
  /\ opened evs = []
  /\ (forall fd, ~ In (EvClose fd) evs)
  /\ w_open (snd run) = w_open w
  /\ (forall name data,
        In (EvWrite name data) evs ->
        has_extension fmt name
        /\ exists timestamp index, name = mk_filename prefix timestamp index fmt).
Proof.
  intros run evs. subst run evs.
  destruct (handle_api_response_quiet E r prefix fmt w) as (evs & Htr & Hev & Hopen & _).
  rewrite (events_of_app _ _ _ Htr).
  destruct (handler_posts_nothing prefix fmt evs Hev) as [Hposted Hopened].
  rewrite List.Forall_forall in Hev.
  split; [exact (handle_api_response_returns E r prefix fmt w)|].
  split; [exact Hposted|]. split; [exact Hopened|].
  split; [intros fd Hin; apply Hev in Hin; exact Hin|].
  split; [exact Hopen|].
  intros name data Hin. apply Hev in Hin. destruct Hin as (ts & idx & ->).
  split; [apply mk_filename_extension | eauto].
Qed.

(** X3.  A 200 response whose body is not JSON ([response.json()] raises a
    [JSONDecodeError]): two lines, the failure and the raw text; the
    persister is not called. *)
Theorem undecodable_body_is_reported (E : env) (r : response) (prefix fmt : string) (w : world)
    (e : exn) :
  status_code r = 200%Z ->
  json r = Raise e ->
  exn_isinstance e JSONDecodeError = true ->
  events_of (handle_api_response E r prefix fmt) w = map EvPrint (decode_error_lines (text r))
  /\ w_files (snd (handle_api_response E r prefix fmt w)) = w_files w.
Proof.
  intros Hst Hjson He.
  unfold handle_api_response, process_body, response_json, try_except, bind, lift, print.
  cbn [stdout_err host_env accepting].
  rewrite Hst, Hjson. cbn. rewrite He. cbn. split; [|reflexivity].
  apply events_of_app. cbn. now rewrite <- app_assoc.
Qed.

Lemma undecodable_body_is_reported_witness :
  events_of (handle_api_response sample_env
               {| status_code := 200; text := "<html>"; json := Raise (Exn JSONDecodeError "Expecting value") |} "gen" "png")
    fresh_world
  = [EvPrint [Lit "Error: Could not decode JSON response."];
     EvPrint [Lit "Raw response: "; Lit "<html>"]].
Proof.
  destruct (undecodable_body_is_reported sample_env
              {| status_code := 200; text := "<html>"; json := Raise (Exn JSONDecodeError "Expecting value") |} "gen" "png"
              fresh_world _ eq_refl eq_refl eq_refl) as (Hev & _).
  exact Hev.
Defined.

(** X4.  A 200 response whose body is a JSON null, boolean or number: the
    membership test of line 39 raises, the catch-all clause prints the
    error and the body, and nothing is saved. *)
Theorem scalar_body_is_reported (E : env) (r : response) (prefix fmt : string) (w : world)
    (body : pyval) :
  status_code r = 200%Z ->
  json r = Ok body ->
  is_scalar body = true ->
  exists e,
    exn_cls e = TypeError
    /\ events_of (handle_api_response E r prefix fmt) w
       = map EvPrint (processing_error_lines e body)
    /\ w_files (snd (handle_api_response E r prefix fmt w)) = w_files w.
Proof.
  intros Hst Hjson Hbody. unfold handle_api_response, process_body, response_json.
  rewrite Hst, Hjson.
  exists (Exn TypeError "argument is not iterable"). split; [reflexivity|].
  destruct body; try discriminate;
    (split; [apply events_of_app; cbn; now rewrite <- app_assoc | reflexivity]).
Qed.

Lemma scalar_body_is_reported_witness :
  exists e,
    exn_cls e = TypeError
    /\ events_of (handle_api_response sample_env
                    {| status_code := 200; text := "7"; json := Ok (PyInt 7) |}
                    "gen" "png") fresh_world
       = map EvPrint (processing_error_lines e (PyInt 7)).
Proof.
  destruct (scalar_body_is_reported sample_env
              {| status_code := 200; text := "7"; json := Ok (PyInt 7) |} "gen" "png"
              fresh_world (PyInt 7) eq_refl eq_refl eq_refl) as (e & Hcls & Hev & _).
  exists e. split; [exact Hcls | exact Hev].
Defined.



(** X6.  An entry of the ["data"] list that is not an object and cannot be
    tested or indexed (a number, a boolean, null) ends the loop: the entries
    before it are handled as usual, the error and the body are printed, and
    neither the entries after it nor the usage report are looked at. *)
Theorem unreadable_item_stops_the_loop (E : env) (r : response) (prefix fmt : string)
    (w : world) (kvs : list (string * pyval)) (before after : list pyval)
    (bad : pyval) (e : exn) :
  status_code r = 200%Z ->
  json r = Ok (PyDict kvs) ->
  dict_get "data" kvs = Some (PyList (before ++ bad :: after)) ->
  Forall (fun item => readable item = true) before ->
  item_payload bad = Raise e ->
  events_of (handle_api_response E r prefix fmt) w
  = items_events E prefix fmt 0 before (w_ticks w)
    ++ map EvPrint (processing_error_lines e (PyDict kvs))
  /\ length (save_calls (events_of (handle_api_response E r prefix fmt) w))
     <= length before.
Proof.
  intros Hst Hjson Hdata Hbefore Hbad.
  destruct (handle_items_stops E prefix fmt before after bad e Hbefore Hbad 0 w)
    as (w1 & Hloop & Htr1).
  assert (Hev : events_of (handle_api_response E r prefix fmt) w
                = items_events E prefix fmt 0 before (w_ticks w)
                  ++ map EvPrint (processing_error_lines e (PyDict kvs))).
  { apply events_of_app.
    unfold handle_api_response, process_body, response_json, save_items.
    rewrite Hst, Hjson. cbn [Z.eqb Pos.eqb].
    unfold try_except, bind at 1. cbn [ret].
    unfold bind at 1, bind at 1, lift, data_is_list, bind_result, py_contains, py_getitem.
    rewrite Hdata. cbn [isinstance_list]. unfold bind at 1. cbn [list_items].
    rewrite Hloop, (item_payload_error bad e Hbad).
    unfold bind, print, ret. cbn. rewrite Htr1, <- !app_assoc. reflexivity. }
  split; [exact Hev|]. rewrite Hev, save_calls_app.
  rewrite (prints_no_calls (map EvPrint _)), app_nil_r by (repeat constructor).
  apply (save_calls_at_most E).
Qed.

Lemma unreadable_item_stops_the_loop_witness :
  save_calls
    (events_of
       (handle_api_response sample_env
          {| status_code := 200; text := "";
             json := Ok (PyDict [("data", PyList [PyDict [("b64_json", PyStr "aGk=")];
                                                    PyInt 7;
                                                    PyDict [("b64_json", PyStr "eW8=")]])]) |}
          "gen" "png") fresh_world)
  = [(PyStr "aGk=", "gen", 0, "png")].
Proof.
  destruct (unreadable_item_stops_the_loop sample_env
              {| status_code := 200; text := "";
                 json := Ok (PyDict [("data", PyList [PyDict [("b64_json", PyStr "aGk=")];
                                                        PyInt 7;
                                                        PyDict [("b64_json", PyStr "eW8=")]])]) |}
              "gen" "png" fresh_world
              [("data", PyList [PyDict [("b64_json", PyStr "aGk=")];
                                PyInt 7;
                                PyDict [("b64_json", PyStr "eW8=")]])]
              [PyDict [("b64_json", PyStr "aGk=")]]
              [PyDict [("b64_json", PyStr "eW8=")]]
              (PyInt 7)
              (Exn TypeError "argument is not iterable")
              eq_refl eq_refl eq_refl
              ltac:(repeat constructor)
              eq_refl) as (Hev & _).
  rewrite Hev. vm_compute. reflexivity.
Defined.

(** X7.  A 200 response with a ["data"] list of readable items and a usage
    object: after the items come the header and the three counts, a count
    that is missing shown as [None]; then the two counts of the breakdown
    when ["input_tokens_details"] is an object, nothing when it is missing,
    and the catch-all error report when it is anything else (null
    included), the images having been saved already. *)
Theorem usage_is_reported (E : env) (r : response) (prefix fmt : string) (w : world)
    (kvs : list (string * pyval)) (items : list pyval) (u : list (string * pyval)) :
  status_code r = 200%Z ->
  json r = Ok (PyDict kvs) ->
  dict_get "data" kvs = Some (PyList items) ->
  Forall (fun item => readable item = true) items ->
  dict_get "usage" kvs = Some (PyDict u) ->
  events_of (handle_api_response E r prefix fmt) w =
  items_events E prefix fmt 0 items (w_ticks w)
  ++ map EvPrint
       (count_lines u
        ++ match dict_get "input_tokens_details" u with
           | None => []
           | Some details =>
               match py_get details "text_tokens" with
               | Ok _ => match details with PyDict d => detail_lines d | _ => [] end
               | Raise e => processing_error_lines e (PyDict kvs)
               end
           end).
Proof.
  intros Hst Hjson Hdata Hitems Husage.
  destruct (handle_items_run E prefix fmt items 0 w) as (res & w1 & Hloop & Htr1 & Hres).
  rewrite (Hres Hitems) in Hloop. rewrite (readable_prefix_all items Hitems) in Htr1.
  apply events_of_app.
  unfold handle_api_response, process_body, response_json, save_items.
  rewrite Hst, Hjson. cbn [Z.eqb Pos.eqb].
  unfold try_except, bind at 1. cbn [ret].
  unfold bind at 1, bind at 1, lift, data_is_list, bind_result, py_contains, py_getitem.
  rewrite Hdata. cbn [isinstance_list]. unfold bind at 1. cbn [list_items].
  rewrite Hloop, (report_usage_object E kvs u w1 Husage).
  destruct (dict_get "input_tokens_details" u) as [details|].
  - destruct (py_get details "text_tokens") as [t|e] eqn:Hget.
    + cbn [fst snd]. rewrite !trace_of_lines, Htr1, map_app, <- !app_assoc. reflexivity.
    + assert (Hnot : exn_isinstance e JSONDecodeError = false)
        by (destruct details; cbn in Hget; try discriminate; injection Hget as <-;
            reflexivity).
      rewrite Hnot. unfold bind, print, ret. cbn -[fold_left count_lines].
      rewrite trace_of_lines, Htr1, map_app, <- !app_assoc. cbn. reflexivity.
  - cbn [fst snd]. rewrite trace_of_lines, Htr1, app_nil_r, <- app_assoc. reflexivity.
Qed.

Lemma usage_is_reported_witness :
  printed
    (events_of (handle_api_response sample_env
                  {| status_code := 200; text := "";
                     json := Ok (PyDict [("data", PyList []);
                                           ("usage", PyDict [("total_tokens", PyInt 5)])]) |}
                  "gen" "png") fresh_world)
  = [[Lit (newline +:+ "Usage Information:")];
     [Lit "  Total Tokens: "; Val (PyInt 5)];
     [Lit "  Input Tokens: "; Val PyNone];
     [Lit "  Output Tokens: "; Val PyNone]].
Proof.
  rewrite (usage_is_reported sample_env
             {| status_code := 200; text := "";
                json := Ok (PyDict [("data", PyList []);
                                      ("usage", PyDict [("total_tokens", PyInt 5)])]) |}
             "gen" "png" fresh_world
             [("data", PyList []); ("usage", PyDict [("total_tokens", PyInt 5)])]
             [] [("total_tokens", PyInt 5)] eq_refl eq_refl eq_refl ltac:(constructor) eq_refl).
  reflexivity.
Defined.

(** ** More on the persister *)



(** X9.  A file that cannot be created: the save returns [None], prints the
    error of [open] and leaves every file as it was. *)
Theorem unwritable_file_changes_nothing (E : env) (b64 : pyval) (prefix : string)
    (i : nat) (fmt : string) (w : world) (data : list Byte.byte) (e : exn) :
  Base64.b64decode b64 = Ok data ->
  open_wb E (mk_filename prefix (strftime (now E (w_ticks w))) i fmt) = Some e ->
  fst (save_image_from_b64 E b64 prefix i fmt w) = Ok None
  /\ events_of (save_image_from_b64 E b64 prefix i fmt) w
     = [EvSave b64 prefix i fmt; EvPrint (error_saving_line e)]
  /\ w_files (snd (save_image_from_b64 E b64 prefix i fmt w)) = w_files w.
Proof.
  intros Hdec Hopen.
  unfold events_of, save_image_from_b64, enter_save, bind, try_except, lift, datetime_now,
    write_file, print, ret.
  cbn. rewrite Hdec. cbn. rewrite Hopen. cbn. repeat split.
  rewrite <- !app_assoc, skipn_app, skipn_all, Nat.sub_diag. reflexivity.
Qed.

Lemma unwritable_file_changes_nothing_witness :
  events_of (save_image_from_b64 sample_env (PyStr "aGk=") "ro_gen" 0 "png") fresh_world
  = [EvSave (PyStr "aGk=") "ro_gen" 0 "png";
     EvPrint [Lit "Error saving image: "; Lit "Permission denied"]].
Proof.
  destruct (unwritable_file_changes_nothing sample_env (PyStr "aGk=") "ro_gen" 0 "png"
              fresh_world [Byte.x68; Byte.x69] (Exn OSError "Permission denied")
              eq_refl eq_refl) as (_ & Hev & _).
  exact Hev.
Defined.

(** X10.  A call of the persister never raises, writes at most one file, and
    leaves the handles and every file under another name as they were;
    whatever was under its own name before is replaced without a check. *)
Theorem save_touches_one_name (E : env) (b64 : pyval) (prefix : string) (i : nat)
    (fmt : string) (w : world) :
  let run := save_image_from_b64 E b64 prefix i fmt w in
  let filename := mk_filename prefix (strftime (now E (w_ticks w))) i fmt in
  (exists o, fst run = Ok o)
  /\ length (written (events_of (save_image_from_b64 E b64 prefix i fmt) w)) <= 1
  /\ w_open (snd run) = w_open w
  /\ (forall name, name <> filename -> w_files (snd run) !! name = w_files w !! name)
  /\ (forall data, In (EvWrite filename data)
                      (events_of (save_image_from_b64 E b64 prefix i fmt) w) ->
                   w_files (snd run) !! filename = Some data).
Proof.
  intros run filename. subst run filename.
  destruct (save_image_from_b64_run E b64 prefix i fmt w) as (o & w1 & Hrun & Htr & _ & Hopen & _).
  destruct (save_image_from_b64_files E b64 prefix i fmt w) as [Hframe Hhold].
  assert (Hev : events_of (save_image_from_b64 E b64 prefix i fmt) w
                = save_events E b64 prefix i fmt (w_ticks w))
    by (apply events_of_app; now rewrite Hrun).
  rewrite Hev. rewrite Hrun in *. cbn [fst snd] in *.
  split; [eauto|]. split; [|split; [exact Hopen|split; [exact Hframe|]]].
  - destruct (written_save_events E b64 prefix i fmt (w_ticks w)) as [->|(d & ->)]; cbn; lia.
  - intros data Hin. now apply Hhold.
Qed.

(** ** Creations *)

(** X11.  The body of a creation request always has the seven fields of
    lines 86-92 with the values of the arguments; it has [user] exactly
    when a non-empty one was given and [moderation] exactly when it is not
    empty; and it has no field beyond these and [output_compression]. *)
Theorem create_payload_fields (args : create_args) :
  let payload := create_payload args in
  payload !! "prompt" = Some (PyStr (prompt args))
  /\ payload !! "model" = Some (PyStr GPT_IMAGE_MODEL)
  /\ payload !! "n" = Some (PyInt (n args))
  /\ payload !! "quality" = Some (PyStr (quality args))
  /\ payload !! "size" = Some (PyStr (size args))
  /\ payload !! "background" = Some (PyStr (background args))
  /\ payload !! "output_format" = Some (PyStr (output_format args))
  /\ payload !! "user"
     = match user args with
       | Some u => if str_truthy u then Some (PyStr u) else None
       | None => None
       end
  /\ payload !! "moderation"
     = (if str_truthy (moderation args) then Some (PyStr (moderation args)) else None)
  /\ forall k, is_Some (payload !! k) ->
               In k ["prompt"; "model"; "n"; "quality"; "size"; "background";
                     "output_format"; "user"; "output_compression"; "moderation"].
Proof.
  intros payload. subst payload. unfold create_payload.
  destruct (user args) as [u|]; [destruct (str_truthy u)|];
    (destruct (output_compression args) as [c|];
     [destruct (String.eqb (output_format args) "jpeg"
                || String.eqb (output_format args) "webp")|]);
    destruct (str_truthy (moderation args));
    (repeat split;
     [ now simplify_map_eq .. | intros k [v Hv]; key_among ]).
Qed.

(** X12.  A creation is an announcement, one request, and then the handling
    of the answer with the prefix and the output format of the arguments.
    An exception of the [try] of lines 104-106, of the transport or of the
    handler, is caught when it is a [RequestException]: the failure is
    printed and the creation returns normally.  Any other exception leaves
    the function, and nothing is printed for it.  No file is written unless
    an answer came back. *)
Theorem create_is_post_then_handle (E : env) (args : create_args) (w : world) :
  let w1 := after_create_post E args w in
  let req := create_request E args in
  let outcome :=
    match post E req with
    | Ok response =>
        fst (handle_api_response E response (output_prefix args) (output_format args) w1)
    | Raise e => Raise e
    end in
  events_of (create_image E args) w
  = EvPrint (create_announcement args) :: EvPost req
    :: match post E req with
       | Ok response =>
           events_of (handle_api_response E response (output_prefix args)
                        (output_format args)) w1
       | Raise _ => []
       end
    ++ match outcome with
       | Ok _ => []
       | Raise e =>
           if exn_isinstance e RequestException
           then [EvPrint [Lit "Request failed: "; Lit (exn_msg e)]] else []
       end
  /\ fst (create_image E args w)
     = match outcome with
       | Ok _ => Ok tt
       | Raise e => if exn_isinstance e RequestException then Ok tt else Raise e
       end
  /\ (forall e, post E req = Raise e ->
                w_files (snd (create_image E args w)) = w_files w).
Proof.
  intros w1 req outcome.
  assert (Hout : outcome = request_outcome E req).
  { subst outcome. unfold request_outcome.
    destruct (post E req) as [resp|e]; [apply handle_api_response_returns | reflexivity]. }
  rewrite Hout, create_image_events, create_image_unfold. cbn [fst snd]. fold req w1.
  split; [reflexivity|]. split; [reflexivity|].
  intros e He.
  destruct (after_request_world E req (output_prefix args) (output_format args) w1)
    as (_ & _ & _ & _ & Hfiles).
  rewrite (Hfiles e He). reflexivity.
Qed.


(** ** Edits *)

(** X14.  An edit whose source images and mask all exist and open: after the
    announcement the files are opened in the order images then mask; one
    request carrying their handles is sent; the answer is handled with the
    edit's prefix and the format "png"; an exception of the [try] of lines
    167-169, of the transport or of the handler, is reported when it is a
    [RequestException]; and only then are the handles closed, in the order
    they were opened.  A [RequestException] ends the edit normally, any
    other exception leaves it, after the handles were closed. *)
Theorem edit_is_open_post_handle_close (E : env) (args : edit_args) (w : world) :
  forallb (usable E) (referenced_paths args) = true ->
  let fd := w_next_fd w in
  let req := edit_request E args (edit_parts args fd) in
  let outcome :=
    match post E req with
    | Ok response =>
        fst (handle_api_response E response (edit_output_prefix args) "png"
               (after_edit_post E args w))
    | Raise e => Raise e
    end in
  events_of (edit_image E args) w
  = events_of (edit_announce E args) w
    ++ open_events fd (referenced_paths args)
    ++ EvPost req
       :: match post E req with
          | Ok response =>
              events_of (handle_api_response E response (edit_output_prefix args) "png")
                (after_edit_post E args w)
          | Raise _ => []
          end
    ++ match outcome with
       | Ok _ => []
       | Raise e =>
           if exn_isinstance e RequestException
           then [EvPrint [Lit "Request failed: "; Lit (exn_msg e)]] else []
       end
    ++ map EvClose (seq fd (length (referenced_paths args)))
  /\ fst (edit_image E args w)
     = match outcome with
       | Ok _ => Ok tt
       | Raise e => if exn_isinstance e RequestException then Ok tt else Raise e
       end.
Proof.
  intros Hall fd req outcome. apply upload_error_none in Hall.
  assert (Hout : outcome = request_outcome E req).
  { subst outcome. unfold request_outcome.
    destruct (post E req) as [resp|e]; [apply handle_api_response_returns | reflexivity]. }
  rewrite Hout. split.
  - apply events_of_app. destruct (edit_image_usable_run E args w Hall) as (-> & _).
    fold fd req. unfold answer_events. now rewrite <- !app_assoc.
  - rewrite (edit_image_usable E args w Hall). reflexivity.
Qed.

Lemma edit_is_open_post_handle_close_witness :
  fst (edit_image sample_env (sample_edit ["cat.png"] (Some "cat.png")) fresh_world) = Ok tt
  /\ opened (events_of (edit_image sample_env (sample_edit ["cat.png"] (Some "cat.png")))
               fresh_world) = [3; 4]%nat.
Proof.
  destruct (edit_is_open_post_handle_close sample_env
              (sample_edit ["cat.png"] (Some "cat.png")) fresh_world eq_refl) as (Hev & Hres).
  split; [exact Hres|]. rewrite Hev. vm_compute. reflexivity.
Defined.

(** X15.  An edit one of whose files is missing or does not open, once its
    announcement is printed: the files before it are opened, nothing is
    sent and no file content changes.  When the standard output takes the
    report of the first file that fails ("Error: " and the message for a
    missing file, "Error opening file(s): " and the message for another
    failure), the report is printed, the handles opened so far are closed,
    and the edit returns normally.  When it does not, the exception of
    [print] leaves the edit before the closing loop of lines 145 and 150:
    nothing is closed, and the handles opened so far stay open. *)
Theorem edit_stops_at_first_bad_file (H : host) (args : edit_args) (w : world) (e : exn) :
  fst (edit_announce H args w) = Ok tt ->
  upload_error (host_env H) args = Some e ->
  let good := usable_prefix (host_env H) (referenced_paths args) in
  let fds := seq (w_next_fd w) (length good) in
  let report :=
    [Lit (if exn_isinstance e FileNotFoundError
          then "Error: " else "Error opening file(s): ");
     Lit (exn_msg e)] in
  let run := edit_image H args w in
  let evs := events_of (edit_image H args) w in
  posted evs = []
  /\ opened evs = fds
  /\ w_files (snd run) = w_files w
  /\ match stdout_err H report with
     | None =>
         evs = events_of (edit_announce H args) w
               ++ open_events (w_next_fd w) good
               ++ EvPrint report :: map EvClose fds
         /\ fst run = Ok tt
         /\ (forall fd, In fd fds -> ~ In fd (w_open (snd run)))
     | Some e' =>
         evs = events_of (edit_announce H args) w
               ++ open_events (w_next_fd w) good
         /\ fst run = Raise e'
         /\ (forall fd, In fd fds -> In fd (w_open (snd run)))
     end.
Proof.
  intros Hann Herr good fds report run evs.
  assert (Hreport : report = open_error_line e)
    by (subst report; unfold open_error_line;
        now destruct (exn_isinstance e FileNotFoundError)).
  destruct (bad_file_projections H args w e Hann Herr) as (Hp & Ho & _).
  destruct (edit_image_unusable_host H args w e Hann Herr) as (Hfiles & Hrun).
  fold good fds run in Hrun. rewrite <- Hreport in Hrun.
  split; [exact Hp|]. split; [exact Ho|]. split; [exact Hfiles|].
  destruct (stdout_err H report) as [e'|]; destruct Hrun as (Htr & Hres & Hopen);
    (split; [subst evs; now apply events_of_app|]); (split; [exact Hres|]).
  - intros fd Hin. rewrite Hopen. apply in_or_app. left. now apply in_rev in Hin.
  - exact Hopen.
Qed.

Lemma edit_stops_at_first_bad_file_witness :
  (events_of (edit_image sample_env (sample_edit ["cat.png"; "dog.png"; "cat.png"] None))
     fresh_world
   = events_of (edit_announce sample_env
                  (sample_edit ["cat.png"; "dog.png"; "cat.png"] None)) fresh_world
     ++ [EvOpen 3 "cat.png";
         EvPrint [Lit "Error: "; Lit "Image file not found: dog.png"];
         EvClose 3])
  /\ (events_of (edit_image surrogate_host
                   (sample_edit ["cat.png"; "cat.png"] (Some unprintable_mask)))
        fresh_world
      = events_of (edit_announce surrogate_host
                     (sample_edit ["cat.png"; "cat.png"] (Some unprintable_mask)))
          fresh_world
        ++ [EvOpen 3 "cat.png"; EvOpen 4 "cat.png"]).
Proof.
  split.
  - destruct (edit_stops_at_first_bad_file sample_env
                (sample_edit ["cat.png"; "dog.png"; "cat.png"] None) fresh_world
                (Exn FileNotFoundError "Image file not found: dog.png") eq_refl eq_refl)
      as (_ & _ & _ & Hev & _).
    exact Hev.
  - destruct (edit_stops_at_first_bad_file surrogate_host
                (sample_edit ["cat.png"; "cat.png"] (Some unprintable_mask)) fresh_world
                (Exn FileNotFoundError ("Mask file not found: " +:+ unprintable_mask))
                eq_refl eq_refl)
      as (_ & _ & _ & Hev & _).
    exact Hev.
Defined.

(** X16.  An edit whose announcement is printed sends its one request
    exactly when every source image and the mask exist and open, whatever
    their number, and it opens the files before the first one that fails.
    It closes exactly the handles it opened, once each, in the order it
    opened them, except when a file failed and the report of the failure
    could not be printed: then it closes none.  An edit whose announcement
    could not be printed opens, sends and closes nothing, and the exception
    of [print] leaves it. *)
Theorem edit_posts_iff_all_files_open (H : host) (args : edit_args) (w : world) :
  let evs := events_of (edit_image H args) w in
  let paths := referenced_paths args in
  match fst (edit_announce H args w) with
  | Raise e =>
      posted evs = [] /\ opened evs = [] /\ closed evs = []
      /\ fst (edit_image H args w) = Raise e
  | Ok _ =>
      posted evs
      = (if forallb (usable (host_env H)) paths
         then [edit_request (host_env H) args (edit_parts args (w_next_fd w))] else [])
      /\ opened evs = seq (w_next_fd w) (length (usable_prefix (host_env H) paths))
      /\ closed evs
         = match upload_error (host_env H) args with
           | None => opened evs
           | Some e =>
               match stdout_err H
                       [Lit (if exn_isinstance e FileNotFoundError
                             then "Error: " else "Error opening file(s): ");
                        Lit (exn_msg e)] with
               | None => opened evs
               | Some _ => []
               end
           end
  end.
Proof.
  intros evs paths.
  destruct (edit_announce_host H args w) as (Htr0 & Hprints & _).
  destruct (prints_no_opens _ Hprints) as [Hann_o Hann_p].
  pose proof (prints_no_closes _ Hprints) as Hann_c.
  destruct (fst (edit_announce H args w)) as [[]|e0] eqn:Hann.
  - destruct (upload_error (host_env H) args) as [e|] eqn:Herr.
    + assert (Hall : forallb (usable (host_env H)) paths = false).
      { destruct (forallb (usable (host_env H)) paths) eqn:Hall; [|reflexivity].
        apply upload_error_none in Hall. congruence. }
      rewrite Hall.
      destruct (bad_file_projections H args w e Hann Herr) as (Hp & Ho & Hc).
      fold evs paths in Hp, Ho, Hc. rewrite Hp, Ho. auto.
    + pose proof (proj1 (upload_error_none (host_env H) args) Herr) as Hall.
      fold paths in Hall. rewrite Hall, (usable_prefix_all (host_env H) _ Hall).
      destruct (edit_image_usable_host H args w Hann Herr) as (answer & Htr & Hans & _).
      fold paths in Htr.
      assert (Hevs : evs = events_of (edit_announce H args) w
                           ++ open_events (w_next_fd w) paths
                           ++ EvPost (edit_request (host_env H) args
                                        (edit_parts args (w_next_fd w)))
                              :: answer ++ map EvClose (seq (w_next_fd w) (length paths)))
        by (subst evs; now apply events_of_app).
      destruct (open_events_only_open paths (w_next_fd w)) as (Hop_p & Hop_c & _).
      destruct (closes_no_opens (seq (w_next_fd w) (length paths))) as [Hcl_o Hcl_p].
      destruct (handler_posts_nothing _ _ answer Hans) as [Hans_p Hans_o].
      pose proof (handler_closes_nothing _ _ answer Hans) as Hans_c.
      rewrite Hevs, !posted_app, !opened_app, !closed_app, Hann_o, Hann_p, Hann_c,
        Hop_p, Hop_c, opened_open_events.
      cbn [posted opened closed app].
      rewrite posted_app, opened_app, closed_app, Hans_p, Hans_o, Hans_c, Hcl_o, Hcl_p,
        closed_closes, !app_nil_r.
      auto.
  - assert (Hevs : evs = events_of (edit_announce H args) w).
    { subst evs. apply events_of_app.
      rewrite (edit_image_unannounced H args w e0 Hann). exact Htr0. }
    rewrite Hevs, Hann_o, Hann_p, Hann_c.
    rewrite (edit_image_unannounced H args w e0 Hann). auto.
Qed.

(** X17.  The request of an edit goes to the edits endpoint with the bearer
    key and a timeout of 120, and without a content type of its own.  Its
    parts are the source images in order, each under the field [image[]],
    then the mask under [mask]; every part is named by the last component of
    its path, and carries a handle the edit opened, in the order of opening.
    Its form fields are those of [edit_payload]. *)
Theorem edit_request_carries_the_opened_files (E : env) (args : edit_args) (w : world)
    (req : request) :
  let evs := events_of (edit_image E args) w in
  In req (posted evs) ->
  req_url req = BASE_URL +:+ "/edits"
  /\ req_headers req = [("Authorization", "Bearer " +:+ API_KEY E)]
  /\ req_timeout req = 120%Z
  /\ exists parts,
       req_body req = MultipartBody parts (edit_payload args)
       /\ map part_label parts
          = map (fun path => ("image[]", basename path)) (image_paths args)
            ++ match mask_path args with
               | Some mask => if str_truthy mask then [("mask", basename mask)] else []
               | None => []
               end
       /\ map part_handle parts = opened evs
       /\ Forall (fun part => no_slash (part_name part) = true) parts.
Proof.
  intros evs. subst evs.
  destruct (edit_image_projections E args w) as (-> & -> & _).
  destruct (forallb (usable E) (referenced_paths args)) eqn:Hall; [|intros []].
  intros [<-|[]]. repeat split. exists (edit_parts args (w_next_fd w)).
  rewrite (usable_prefix_all E _ Hall).
  auto using edit_parts_labels, edit_parts_handles, edit_parts_names.
Qed.

Lemma edit_request_carries_the_opened_files_witness :
  exists parts,
    req_body (edit_request sample_env (sample_edit ["cat.png"] None)
                [("image[]", ("cat.png", 3%nat))])
    = MultipartBody parts (edit_payload (sample_edit ["cat.png"] None))
    /\ map part_handle parts = [3%nat].
Proof.
  destruct (edit_request_carries_the_opened_files sample_env (sample_edit ["cat.png"] None)
              fresh_world
              (edit_request sample_env (sample_edit ["cat.png"] None)
                 [("image[]", ("cat.png", 3%nat))]))
    as (_ & _ & _ & parts & Hbody & _ & Hhandles & _).
  - vm_compute. left. reflexivity.
  - exists parts. split; [exact Hbody|]. rewrite Hhandles. vm_compute. reflexivity.
Defined.

(** X18.  The form fields of an edit request are [prompt], [model], [n],
    [quality] and [size] with the values of the arguments, and [user]
    exactly when a non-empty one was given; an edit never sends
    [background], [output_format], [output_compression] or [moderation]. *)
Theorem edit_payload_fields (args : edit_args) :
  let payload := edit_payload args in
  payload !! "prompt" = Some (PyStr (edit_prompt args))
  /\ payload !! "model" = Some (PyStr GPT_IMAGE_MODEL)
  /\ payload !! "n" = Some (PyInt (edit_n args))
  /\ payload !! "quality" = Some (PyStr (edit_quality args))
  /\ payload !! "size" = Some (PyStr (edit_size args))
  /\ payload !! "user"
     = match edit_user args with
       | Some u => if str_truthy u then Some (PyStr u) else None
       | None => None
       end
  /\ forall k, is_Some (payload !! k) ->
               In k ["prompt"; "model"; "n"; "quality"; "size"; "user"].
Proof.
  intros payload. subst payload. unfold edit_payload.
  destruct (edit_user args) as [u|]; [destruct (str_truthy u)|];
    (repeat split; [ now simplify_map_eq .. | intros k [v Hv]; key_among ]).
Qed.

(** X19.  An empty mask path is no mask: the edit runs as if none was given. *)
Theorem empty_mask_is_no_mask (E : env) (args : edit_args) (w : world) :
  edit_image E (with_mask (Some "") args) w = edit_image E (with_mask None args) w.
Proof. reflexivity. Qed.

(** X20.  Every file an edit writes is on disk with the bytes written when the
    edit ends, closing the uploads included; no two of them share a name;
    and an edit that sends no request changes no file. *)
Theorem edit_files_are_on_disk (E : env) (args : edit_args) (w : world) :
  let run := edit_image E args w in
  let evs := events_of (edit_image E args) w in
  (forall name data, In (EvWrite name data) evs -> w_files (snd run) !! name = Some data)
  /\ List.NoDup (map fst (written evs))
  /\ (posted evs = [] -> w_files (snd run) = w_files w).
Proof.
  intros run evs. subst run evs.
  destruct (edit_image_projections E args w) as (_ & _ & _ & Hhold & Hnodup & Hnone). auto.
Qed.
